(** * MHAPalletizing: the colour column of the packing results

    A shallow embedding of [add_colors_to_csv.py]: the hash-based colour of a
    product identifier ([generate_color_for_product]), the augmentation of one
    result table ([add_colors_to_csv]) and the batch driver ([main]), and of
    the request handler of [server.py], followed by the properties of the
    specification, each settled on the embedding.

    Conventions of the embedding
    - a Python [int] is a [Z] (unbounded, as in Python);
    - a Python [str] is the list of its code points;
    - a Python [float] is a binary64 number, Rocq's primitive [float];
    - a value that is a string or None is an [option str], None being
      [None];
    - a Python [dict] is a [gmap];
    - an exception is the [Raise] branch of [result]. *)

From Stdlib Require Import ZArith NArith QArith Qround Qpower.
From Stdlib Require Import List String Ascii Bool Lia.
From Stdlib Require Import Sorted.
From Stdlib Require Import PrimFloat SpecFloat FloatOps.
From Corelib Require Uint63Axioms.
From Stdlib Require Hexadecimal Decimal.
From stdpp Require Import base option list gmap.

Local Open Scope Z_scope.

(** ** Python values *)

Module Py.

(** A character is its code point, a string the list of its characters. *)
Abbreviation char := N (only parsing).
Abbreviation str := (list N) (only parsing).

Definition ord (c : char) : Z := Z.of_N c.

(** String literals of the source, written as Rocq strings. *)
Definition chr (a : ascii) : char := N_of_ascii a.
Definition lit (s : string) : str := List.map chr (list_ascii_of_string s).

(** Exceptions the modelled code can raise. *)
Inductive exn : Type :=
| KeyError (key : str)
| ValueError
| TypeError
| OverflowError
| ZeroDivisionError
| FileNotFoundError (path : str)
| IsADirectoryError (path : str)
| NotADirectoryError (path : str)
| SystemExit (code : Z).

Inductive result (A : Type) : Type :=
| Ok (a : A)
| Raise (e : exn).
Arguments Ok {A} a.
Arguments Raise {A} e.

Definition bind {A B : Type} (m : result A) (k : A -> result B) : result B :=
  match m with
  | Ok a => k a
  | Raise e => Raise e
  end.

(** *** int and float *)

(** [float(n)], the conversion Python applies to an [int] operand of mixed
    arithmetic: the nearest binary64 number.  The integers below 2^53 are
    representable and take the primitive conversion; both branches round
    to nearest. *)
Definition float_of_int (n : Z) : float :=
  if (0 <=? n) && (n <? 2 ^ 53)
  then PrimFloat.of_uint63 (Uint63Axioms.of_Z n)
  else SF2Prim (binary_normalize prec emax n 0 false).

(** [a / b] on two ints (true division), for a nonzero [b]: CPython divides
    the two converted operands when both are below 2^53 in magnitude, as are
    all the operands of this program (larger ones are outside this
    definition). *)
Definition int_truediv (a b : Z) : float :=
  PrimFloat.div (float_of_int a) (float_of_int b).

(** C's [fmod]: the exact remainder of the truncated quotient, with the
    sign of [x]. *)
Definition fmod (x y : float) : float :=
  match Prim2SF x, Prim2SF y with
  | S754_nan, _ | _, S754_nan => PrimFloat.nan
  | S754_infinity _, _ => PrimFloat.nan
  | _, S754_zero _ => PrimFloat.nan
  | S754_zero _, _ => x
  | S754_finite _ _ _, S754_infinity _ => x
  | S754_finite sx mx ex, S754_finite _ my ey =>
      let e := Z.min ex ey in
      let r := (Z.pos mx * 2 ^ (ex - e)) mod (Z.pos my * 2 ^ (ey - e)) in
      SF2Prim (binary_normalize prec emax (if sx then - r else r) e sx)
  end.

(** [vx % wx] on floats (CPython's [float_rem]): the remainder takes the
    sign of the divisor. *)
Definition float_mod (vx wx : float) : result float :=
  if PrimFloat.eqb wx PrimFloat.zero then Raise ZeroDivisionError
  else
    let m := fmod vx wx in
    if negb (PrimFloat.eqb m PrimFloat.zero)
    then Ok (if xorb (PrimFloat.ltb wx PrimFloat.zero)
                     (PrimFloat.ltb m PrimFloat.zero)
             then PrimFloat.add m wx else m)
    else Ok (if PrimFloat.get_sign wx
             then PrimFloat.neg_zero else PrimFloat.zero).

(** [int(f)]: truncation toward zero; NaN and the infinities raise. *)
Definition int_of_float (f : float) : result Z :=
  match Prim2SF f with
  | S754_nan => Raise ValueError
  | S754_infinity _ => Raise OverflowError
  | S754_zero _ => Ok 0
  | S754_finite s m e =>
      let a := if 0 <=? e then Z.pos m * 2 ^ e else Z.pos m / 2 ^ (- e) in
      Ok (if s then - a else a)
  end.

(** *** Formatting *)

(** The digits of format type [X]: hexadecimal, upper case. *)
Fixpoint hex_upper (d : Hexadecimal.uint) : str :=
  match d with
  | Hexadecimal.Nil => []
  | Hexadecimal.D0 d => chr "0" :: hex_upper d
  | Hexadecimal.D1 d => chr "1" :: hex_upper d
  | Hexadecimal.D2 d => chr "2" :: hex_upper d
  | Hexadecimal.D3 d => chr "3" :: hex_upper d
  | Hexadecimal.D4 d => chr "4" :: hex_upper d
  | Hexadecimal.D5 d => chr "5" :: hex_upper d
  | Hexadecimal.D6 d => chr "6" :: hex_upper d
  | Hexadecimal.D7 d => chr "7" :: hex_upper d
  | Hexadecimal.D8 d => chr "8" :: hex_upper d
  | Hexadecimal.D9 d => chr "9" :: hex_upper d
  | Hexadecimal.Da d => chr "A" :: hex_upper d
  | Hexadecimal.Db d => chr "B" :: hex_upper d
  | Hexadecimal.Dc d => chr "C" :: hex_upper d
  | Hexadecimal.Dd d => chr "D" :: hex_upper d
  | Hexadecimal.De d => chr "E" :: hex_upper d
  | Hexadecimal.Df d => chr "F" :: hex_upper d
  end.

(** [f"{n:02X}"]: sign, then the digits padded with zeros to a total
    width of two. *)
Definition format_02X (n : Z) : str :=
  let sign := if n <? 0 then lit "-" else [] in
  let digits := hex_upper (N.to_hex_uint (Z.abs_N n)) in
  let width := (2 - length sign)%nat in
  sign ++ List.repeat (chr "0") (width - length digits) ++ digits.

(** [str(n)] for an int that is a length: decimal digits. *)
Fixpoint dec_digits (d : Decimal.uint) : str :=
  match d with
  | Decimal.Nil => []
  | Decimal.D0 d => chr "0" :: dec_digits d
  | Decimal.D1 d => chr "1" :: dec_digits d
  | Decimal.D2 d => chr "2" :: dec_digits d
  | Decimal.D3 d => chr "3" :: dec_digits d
  | Decimal.D4 d => chr "4" :: dec_digits d
  | Decimal.D5 d => chr "5" :: dec_digits d
  | Decimal.D6 d => chr "6" :: dec_digits d
  | Decimal.D7 d => chr "7" :: dec_digits d
  | Decimal.D8 d => chr "8" :: dec_digits d
  | Decimal.D9 d => chr "9" :: dec_digits d
  end.

Definition str_of_nat (n : nat) : str := dec_digits (Nat.to_uint n).

(** A value that is a string or None is an [option str]; [str(v)] of it. *)
Definition str_of (v : option str) : str := default (lit "None") v.

End Py.

Import Py.

Notation "'let!' x ':=' m 'in' k" := (Py.bind m (fun x => k))
  (at level 10, x name, m at level 200, k at level 200).

(** ** The colour of a product: [generate_color_for_product] *)

(** One round of the loop of lines 16-17. *)
Definition hash_step (hash_value : Z) (c : char) : Z :=
  ord c + (Z.shiftl hash_value 5 - hash_value).

(** The accumulator after the loop over [str_id]. *)
Definition hash_of (str_id : str) : Z :=
  fold_left hash_step str_id 0.

(** Lines 20-22. *)
Definition hue (hash_value : Z) : Z := Z.abs (hash_value mod 360).
Definition saturation (hash_value : Z) : Z :=
  65 + Z.abs (Z.shiftr hash_value 8) mod 20.
Definition lightness (hash_value : Z) : Z :=
  55 + Z.abs (Z.shiftr hash_value 16) mod 15.

(** Lines 25-27, in binary64 arithmetic. *)
Definition chroma (s l : Z) : float :=
  ((1 - abs (int_truediv (2 * l) 100 - 1)) * float_of_int s / 100)%float.

Definition hue_ramp (h : Z) : result float :=
  let! t := float_mod (int_truediv h 60) 2%float in
  Ok (1 - abs (t - 1))%float.

Definition offset (l : Z) (c : float) : float :=
  (int_truediv l 100 - c / 2)%float.

(** Lines 29-40: the sextant of the hue places [c], [x] and [0]. *)
Definition sextant (h : Z) (c x : float) : float * float * float :=
  if h <? 60 then (c, x, 0%float)
  else if h <? 120 then (x, c, 0%float)
  else if h <? 180 then (0%float, c, x)
  else if h <? 240 then (0%float, x, c)
  else if h <? 300 then (x, 0%float, c)
  else (c, 0%float, x).

(** Lines 42-44: one channel. *)
Definition scaled (v m : float) : float := ((v + m) * 255)%float.
Definition channel (v m : float) : result Z := int_of_float (scaled v m).

(** Lines 25-44. *)
Definition hsl_to_rgb (h s l : Z) : result (Z * Z * Z) :=
  let c := chroma s l in
  let! t := hue_ramp h in
  let x := (c * t)%float in
  let m := offset l c in
  let '(r, g, b) := sextant h c x in
  let! r := channel r m in
  let! g := channel g m in
  let! b := channel b m in
  Ok (r, g, b).

(** Line 46. *)
Definition hex_color (rgb : Z * Z * Z) : str :=
  let '(r, g, b) := rgb in
  lit "#" ++ format_02X r ++ format_02X g ++ format_02X b.

(** Lines 20-46: from the hash to the colour. *)
Definition color_of_hash (hash_value : Z) : result str :=
  let h := hue hash_value in
  let s := saturation hash_value in
  let l := lightness hash_value in
  let! rgb := hsl_to_rgb h s l in
  Ok (hex_color rgb).

(** Lines 11-46.  [str(product_id)] is the identity on a string. *)
Definition generate_color_for_product (product_id : str) : result str :=
  let str_id := product_id in
  color_of_hash (hash_of str_id).

(** ** Exhaustive check of the HSL box

    The hue, saturation and lightness range over 360 x 20 x 15 values; the
    conversion is checked on all of them by evaluation.  The chroma and the
    offset depend on (s, l) only and the hue ramp on h only, so the check
    computes each of them once. *)

Definition Zrange (a : Z) (n : nat) : list Z :=
  List.map (fun k => a + Z.of_nat k) (seq 0 n).

Definition byte_ok (r : result Z) : bool :=
  match r with
  | Ok z => (0 <=? z) && (z <=? 255)
  | Raise _ => false
  end.

Definition ramp_ok (c m : float) (t : result float) : bool :=
  match t with
  | Ok t => byte_ok (channel (c * t)%float m)
  | Raise _ => false
  end.

Definition box_check (hues sats lights : list Z) : bool :=
  (fun ramps =>
     forallb (fun s =>
       forallb (fun l =>
         let c := chroma s l in
         let m := offset l c in
         byte_ok (channel c m) && byte_ok (channel 0%float m)
         && forallb (ramp_ok c m) ramps)
       lights)
     sats)
  (List.map hue_ramp hues).

(** ** The table of one result file

    A file is represented by the records [csv.reader] yields for it: one
    list of cells per line, the empty list for a blank line.  The text
    level of the csv module (delimiters, quoting, line ends) is outside the
    model.  [csv.DictReader] turns the records into the field names and one
    dict per data line. *)

(** A row as [csv.DictReader] builds it.  Under a field name the dict
    holds the cell of the line, or None ([restval]) when the line is too
    short to have it; under the key None ([restkey]) it holds the cells of
    the line beyond the field names, when there are any.  [cells] is the
    dict on the field names, [extra] its entry under the key None. *)
Record csv_row : Type := Row {
  cells : gmap str (option str);
  extra : option (list str)
}.

Record table : Type := Table {
  fieldnames : option (list str);
  rows : list csv_row
}.

(** [dict(zip(fieldnames, row))]: of two pairs with the same key the later
    one stays. *)
Definition dict_zip (keys : list str) (values : list str)
  : gmap str (option str) :=
  foldl (fun d kv => <[kv.1 := Some kv.2]> d) ∅ (zip keys values).

(** [DictReader.__next__] on one line: the dict of the line, the cells
    beyond the field names under [restkey], the missing ones set to
    [restval]. *)
Definition dict_row (fieldnames : list str) (row : list str) : csv_row :=
  let d := dict_zip fieldnames row in
  let lf := length fieldnames in
  let lr := length row in
  if (lf <? lr)%nat then Row d (Some (drop lf row))
  else if (lr <? lf)%nat
       then Row (foldl (fun d key => <[key := None]> d) d (drop lr fieldnames))
                None
       else Row d None.

(** [list(reader)] and [reader.fieldnames] for a [csv.DictReader]: the first
    record gives the field names ([None] when there is no record at all),
    blank lines after it are skipped. *)
Definition DictReader (records : list (list str)) : table :=
  match records with
  | [] => Table None []
  | fieldnames :: lines =>
      Table (Some fieldnames)
            (List.map (dict_row fieldnames)
                      (List.filter (fun row => negb (bool_decide (row = [])))
                                   lines))
  end.

(** ** The world

    The part of the world the program touches: the files by path, each with
    its records; the folders by path, each with the names [os.listdir]
    returns for it, in that order; the texts given to [print], in order.
    A path is taken as it is spelled, with '/' between its parts: two
    spellings are two paths, the folder of a file is what is in front of
    the last '/' of its path, and a path without '/' is in the current
    folder, which exists and is not listed.  A path is a file, a folder or
    nothing; were it in both maps, [open] would take it for a file and
    [os.listdir] for a folder.  The errors of [open] are those of Linux. *)
Record world : Type := World {
  fs : gmap str (list (list str));
  folders : gmap str (list str);
  stdout : list str
}.

(** Code that reads and changes the world and may raise. *)
Definition io (A : Type) : Type := world -> world * result A.

Definition io_ret {A : Type} (a : A) : io A := fun w => (w, Ok a).
Definition io_raise {A : Type} (e : exn) : io A := fun w => (w, Raise e).
Definition io_bind {A B : Type} (m : io A) (k : A -> io B) : io B :=
  fun w =>
    match m w with
    | (w', Ok a) => k a w'
    | (w', Raise e) => (w', Raise e)
    end.
Definition io_lift {A : Type} (r : result A) : io A := fun w => (w, r).

Notation "'do!' x ':=' m 'in' k" := (io_bind m (fun x => k))
  (at level 10, x name, m at level 200, k at level 200).
Notation "'run!' m 'in' k" := (io_bind m (fun _ => k))
  (at level 10, m at level 200, k at level 200).

Definition emit (text : str) (w : world) : world :=
  World (fs w) (folders w) (stdout w ++ [text]).

Definition print (text : str) : io unit := fun w => (emit text w, Ok tt).

(** *** Paths *)

(** [s.split('/')[-1]]: what follows the last '/'. *)
Definition last_component (s : str) : str :=
  fold_left (fun acc c => if (c =? chr "/")%N then [] else acc ++ [c]) s [].

(** What is in front of each '/' of a path, from left to right: the folders
    the path leads through, the last of them the folder of the path. *)
Fixpoint ancestors_from (before path : str) : list str :=
  match path with
  | [] => []
  | c :: rest =>
      if (c =? chr "/")%N
      then before :: ancestors_from (before ++ [c]) rest
      else ancestors_from (before ++ [c]) rest
  end.

Definition ancestors (path : str) : list str := ancestors_from [] path.

(** The system follows a path through its folders: each must be a folder
    (the empty one is the root); a file in its place is ENOTDIR, nothing
    there ENOENT. *)
Fixpoint reach (w : world) (path : str) (through : list str) : result unit :=
  match through with
  | [] => Ok tt
  | folder :: rest =>
      if decide (folder = [] \/ is_Some (folders w !! folder))
      then reach w path rest
      else if decide (is_Some (fs w !! folder))
           then Raise (NotADirectoryError path)
           else Raise (FileNotFoundError path)
  end.

(** [os.path.exists]. *)
Definition path_exists (path : str) : io bool :=
  fun w => (w, Ok (bool_decide (is_Some (fs w !! path)
                                \/ is_Some (folders w !! path)))).

(** [os.listdir]. *)
Definition listdir (path : str) : io (list str) :=
  fun w =>
    match folders w !! path with
    | Some names => (w, Ok names)
    | None =>
        (w, Raise (if decide (is_Some (fs w !! path))
                   then NotADirectoryError path
                   else FileNotFoundError path))
    end.

(** [open(path, 'r')], read to the end by the csv reader.  When there is
    no such file: ENOTDIR or ENOENT on the way to it, EISDIR for a folder
    and for a path that ends in '/' behind a folder, ENOENT otherwise. *)
Definition open_r (path : str) : io (list (list str)) :=
  fun w =>
    match fs w !! path with
    | Some records => (w, Ok records)
    | None =>
        (w, let! _ := reach w path (ancestors path) in
            if decide (path <> []
                       /\ (last_component path = []
                           \/ is_Some (folders w !! path)))
            then Raise (IsADirectoryError path)
            else Raise (FileNotFoundError path))
    end.

(** A new file gets its name into the listing of its folder.  The system
    does not say where in the listing; here it comes last. *)
Definition enlist (name : str) (names : list str) : list str :=
  if decide (name ∈ names) then names else names ++ [name].

(** [open(path, 'w')]: a file that exists is opened (and emptied); otherwise
    the file is created in its folder, which must exist.  The empty path is
    ENOENT, a path that ends in '/' and the path of a folder are EISDIR.
    The result is the folders after the call. *)
Definition open_w (w : world) (path : str) : result (gmap str (list str)) :=
  match fs w !! path with
  | Some _ => Ok (folders w)
  | None =>
      if decide (path = []) then Raise (FileNotFoundError path)
      else if decide (last_component path = [])
      then let! _ := reach w path (removelast (ancestors path)) in
           Raise (IsADirectoryError path)
      else let! _ := reach w path (ancestors path) in
           if decide (is_Some (folders w !! path))
           then Raise (IsADirectoryError path)
           else Ok (match last (ancestors path) with
                    | Some folder =>
                        alter (enlist (last_component path)) folder (folders w)
                    | None => folders w
                    end)
  end.

(** [with open(path, 'w') as f:] followed by the writing of [records]: when
    the block is left the file holds what was written, and a csv reader of
    the file gets the records the csv writer was given. *)
Definition store (path : str) (records : list (list str)) : io unit :=
  fun w =>
    match open_w w path with
    | Ok folders' => (World (<[path := records]> (fs w)) folders' (stdout w),
                      Ok tt)
    | Raise e => (w, Raise e)
    end.

(** ** One table: [add_colors_to_csv] *)

(** Lines 54-57. *)
Definition read_csv (path : str) : io table :=
  do! records := open_r path in
  io_ret (DictReader records).

Definition color_field : str := lit "Color".
Definition product_field : str := lit "ProductId".

(** Lines 69-73: the loop over the rows.  [product_colors] is the dict of
    line 68, its keys the values found under ProductId, strings or None;
    the rows come back in their order, each with its colour.  The
    [str(product_id)] of line 15 is taken at the call. *)
Fixpoint color_rows (product_colors : gmap (option str) str)
    (rows : list csv_row)
  : result (gmap (option str) str * list csv_row) :=
  match rows with
  | [] => Ok (product_colors, [])
  | row :: rest =>
      match cells row !! product_field with
      | None => Raise (KeyError product_field)
      | Some product_id =>
          let! product_colors :=
            match product_colors !! product_id with
            | Some _ => Ok product_colors
            | None =>
                let! color :=
                  generate_color_for_product (str_of product_id) in
                Ok (<[product_id := color]> product_colors)
            end in
          match product_colors !! product_id with
          | None => Raise (KeyError (str_of product_id))
          | Some color =>
              let row := Row (<[color_field := Some color]> (cells row))
                             (extra row) in
              let! done := color_rows product_colors rest in
              Ok (done.1, row :: done.2)
          end
      end
  end.

(** [DictWriter._dict_to_list] with the default [extrasaction='raise'] and
    [restval='']: a dict with a key that is not a field name is refused;
    otherwise the record has, for each field name, the text of the value
    under it, the empty text for None and for a missing key. *)
Definition dict_to_list (fieldnames : list str) (rowdict : csv_row)
  : result (list str) :=
  if decide (extra rowdict = None
             /\ dom (cells rowdict) ⊆ list_to_set fieldnames)
  then Ok (List.map (fun key => default [] (default (Some [])
                                                    (cells rowdict !! key)))
                    fieldnames)
  else Raise ValueError.

(** [writerows]: the records are written one after the other; a refused
    dict raises [ValueError] and ends the writing. *)
Fixpoint writerows (fieldnames : list str) (rowdicts : list csv_row)
  : list (list str) * result unit :=
  match rowdicts with
  | [] => ([], Ok tt)
  | rowdict :: rest =>
      match dict_to_list fieldnames rowdict with
      | Ok record =>
          let out := writerows fieldnames rest in
          (record :: out.1, out.2)
      | Raise e => ([], Raise e)
      end
  end.

(** Lines 76-79: the file is opened for writing, the header is written,
    then the rows; what has been written stays in the file when the writer
    raises. *)
Definition write_csv (path : str) (fieldnames : list str)
    (rowdicts : list csv_row) : io unit :=
  let out := writerows fieldnames rowdicts in
  run! store path (fieldnames :: out.1) in
  io_lift out.2.

(** Strings are compared code point by code point. *)
Fixpoint str_leb (a b : str) : bool :=
  match a, b with
  | [], _ => true
  | _ :: _, [] => false
  | x :: a, y :: b => (x <? y)%N || ((x =? y)%N && str_leb a b)
  end.

(** The comparison of the keys of two items of the dict; the keys of a dict
    are distinct, so the values are never compared.  None cannot be
    compared with a string. *)
Definition key_leb (a b : option str) : result bool :=
  match a, b with
  | Some x, Some y => Ok (str_leb x y)
  | _, _ => Raise TypeError
  end.

Fixpoint insert_sorted (item : option str * str)
    (items : list (option str * str)) : result (list (option str * str)) :=
  match items with
  | [] => Ok [item]
  | first :: rest =>
      let! le := key_leb item.1 first.1 in
      if le then Ok (item :: items)
      else let! rest := insert_sorted item rest in
           Ok (first :: rest)
  end.

Definition sort_items (items : list (option str * str))
  : result (list (option str * str)) :=
  foldr (fun item sorted => let! sorted := sorted in insert_sorted item sorted)
        (Ok []) items.

(** [sorted(product_colors.items())]. *)
Definition sorted_items (product_colors : gmap (option str) str)
  : result (list (option str * str)) :=
  sort_items (map_to_list product_colors).

(** Lines 84-85, the loop. *)
Fixpoint print_colors (items : list (option str * str)) : io unit :=
  match items with
  | [] => io_ret tt
  | (pid, color) :: rest =>
      run! print (lit "    ProductId " ++ str_of pid ++ lit ": " ++ color) in
      print_colors rest
  end.

(** Lines 48-85. *)
Definition add_colors_to_csv (input_file : str) (output_file : option str)
  : io unit :=
  let output_file := default input_file output_file in
  do! t := read_csv input_file in
  match fieldnames t with
  | None => io_raise TypeError
  | Some fieldnames =>
      if decide (color_field ∈ fieldnames)
      then print (lit "Color column already exists in " ++ input_file)
      else
        let fieldnames := fieldnames ++ [color_field] in
        do! colored := io_lift (color_rows ∅ (rows t)) in
        let product_colors := colored.1 in
        let rows := colored.2 in
        run! write_csv output_file fieldnames rows in
        run! print (lit "[OK] Added colors to " ++ output_file) in
        run! print (lit "  - " ++ str_of_nat (length rows) ++ lit " items") in
        run! print (lit "  - " ++ str_of_nat (size product_colors)
                   ++ lit " unique ProductIds") in
        do! items := io_lift (sorted_items product_colors) in
        print_colors items
  end.

(** ** The batch: [main] *)

Definition results_dir : str := lit "Results".

Definition startswith (s p : str) : bool := bool_decide (p `prefix_of` s).
Definition endswith (s p : str) : bool := bool_decide (p `suffix_of` s).

(** [os.path.join] of a folder and a file name of its listing. *)
Definition path_join (dir name : str) : str := dir ++ lit "/" ++ name.

(** Lines 104-108. *)
Fixpoint process (files : list str) : io unit :=
  match files with
  | [] => io_ret tt
  | filename :: rest =>
      let filepath := path_join results_dir filename in
      run! print (lit "Processing: " ++ filename) in
      run! add_colors_to_csv filepath None in
      run! print [] in
      process rest
  end.

Definition newline : str := [10%N].

(** Lines 87-108. *)
Definition main : io unit :=
  do! found := path_exists results_dir in
  if negb found
  then run! print (lit "Error: " ++ results_dir ++ lit " folder not found!") in
       io_raise (SystemExit 1)
  else
    do! names := listdir results_dir in
    let files :=
      List.filter (fun f => startswith f (lit "item_placements_")
                            && endswith f (lit ".csv")) names in
    match files with
    | [] =>
        run! print (lit "No item_placements_*.csv files found in "
                    ++ results_dir ++ lit "/") in
        io_raise (SystemExit 1)
    | _ =>
        run! print (lit "Found " ++ str_of_nat (length files)
                    ++ lit " file(s) to process:" ++ newline) in
        process files
    end.

(** ** Specification-side notions

    The definitions below follow the words of the specification; the
    properties compare them with the code above. *)

(** A 32-bit signed integer with wrap-around: the value of [z] reduced to
    the range -2^31 .. 2^31 - 1. *)
Definition wrap32 (z : Z) : Z := (z + 2 ^ 31) mod 2 ^ 32 - 2 ^ 31.

(** The hash of section 4.1 on a 32-bit signed accumulator: every operation
    wraps. *)
Definition hash32_step (h : Z) (c : char) : Z :=
  wrap32 (ord c + wrap32 (wrap32 (Z.shiftl h 5) - h)).

Definition hash32 (identifier : str) : Z := fold_left hash32_step identifier 0.

(** The k-th upper-case hexadecimal digit. *)
Definition upper_hex_digit (k : Z) : char :=
  nth (Z.to_nat k) (lit "0123456789ABCDEF") 0%N.

(** A channel on two digits, zero padded. *)
Definition two_hex_digits (n : Z) : str :=
  [upper_hex_digit (n / 16); upper_hex_digit (n mod 16)].

Definition is_byte (n : Z) : Prop := 0 <= n <= 255.

(** The exact value of a finite binary64 number. *)
Definition float_value (f : float) : option Q :=
  match Prim2SF f with
  | S754_zero _ => Some 0%Q
  | S754_finite s m e =>
      Some (inject_Z (if s then Z.neg m else Z.pos m) * Qpower 2 e)%Q
  | S754_infinity _ | S754_nan => None
  end.

(** Truncation toward zero of a rational, and rounding to nearest. *)
Definition truncate (q : Q) : Z :=
  if Qle_bool 0%Q q then Qfloor q else Qceiling q.

Definition round_half_up (q : Q) : Z := Qfloor (q + (1 # 2))%Q.

(** The formatting of the 256 bytes, checked by evaluation. *)
Definition bytes_check (bytes : list Z) : bool :=
  forallb (fun z => bool_decide (format_02X z = two_hex_digits z)
                    && forallb (fun c => bool_decide
                                  (c ∈ lit "0123456789ABCDEF"))
                               (two_hex_digits z))
          bytes.

(** ** Notions used in the statements on the tables *)

(** The table [csv.DictReader] gives for the file at a path. *)
Definition table_at (w : world) (path : str) : option table :=
  DictReader <$> fs w !! path.

(** What [os.listdir] returns for the results folder, [None] when there is
    no such folder. *)
Definition listing (w : world) : option (list str) :=
  folders w !! results_dir.

(** Every colour in the dict is the colour of its key. *)
Definition coherent (product_colors : gmap (option str) str) : Prop :=
  forall p c, product_colors !! p = Some c ->
              generate_color_for_product (str_of p) = Ok c.

(** What the loop does to one row. *)
Definition colored (row row' : csv_row) : Prop :=
  exists p c, cells row !! product_field = Some p
              /\ generate_color_for_product (str_of p) = Ok c
              /\ row' = Row (<[color_field := Some c]> (cells row))
                            (extra row).

(** The record [writerows] writes for a dict it accepts, and the dict a
    reader of the written file builds from it. *)
Definition written_record (fieldnames : list str) (rowdict : csv_row)
  : list str :=
  List.map (fun key => default [] (default (Some []) (cells rowdict !! key)))
           fieldnames.

Definition written_row (fieldnames : list str) (rowdict : csv_row) : csv_row :=
  dict_row fieldnames (written_record fieldnames rowdict).

Definition color_line (item : option str * str) : str :=
  lit "    ProductId " ++ str_of item.1 ++ lit ": " ++ item.2.

(** The first three lines of the report. *)
Definition summary (output_file : str) (rows : list csv_row)
    (product_colors : gmap (option str) str) : list str :=
  [lit "[OK] Added colors to " ++ output_file;
   lit "  - " ++ str_of_nat (length rows) ++ lit " items";
   lit "  - " ++ str_of_nat (size product_colors) ++ lit " unique ProductIds"].

(** The values under ProductId of the rows that have the key, in row
    order. *)
Definition product_ids (rows : list csv_row) : list (option str) :=
  omap (fun row => cells row !! product_field) rows.

(** A table whose field names contain Color. *)
Definition has_color (t : table) : Prop :=
  exists fns, fieldnames t = Some fns /\ color_field ∈ fns.

(** A row with a cell under ProductId and no cell beyond the field names. *)
Definition plain_row (row : csv_row) : Prop :=
  (exists p, cells row !! product_field = Some (Some p)) /\ extra row = None.

(** A table [add_colors_to_csv] accepts: it has the Color field already, or
    every row has a cell under ProductId and none beyond the field names. *)
Definition processable (t : table) : Prop :=
  exists fns,
    fieldnames t = Some fns
    /\ (color_field ∈ fns \/ Forall plain_row (rows t)).

(** The test of lines 95-96 on a file name. *)
Definition is_placements_file (f : str) : bool :=
  startswith f (lit "item_placements_") && endswith f (lit ".csv").

(** The files [main] works on. *)
Definition batch_files (w : world) : list str :=
  match listing w with
  | Some names => List.filter is_placements_file names
  | None => []
  end.

(** The order of two lines of the report: by identifier, both strings. *)
Definition keys_in_order (a b : option str * str) : Prop :=
  key_leb a.1 b.1 = Ok true.

(** [open(path, 'w')] does not raise. *)
Definition writable (w : world) (path : str) : Prop :=
  exists folders', open_w w path = Ok folders'.

(** The exceptions of [open] on a path. *)
Definition open_error (path : str) (e : exn) : Prop :=
  e = FileNotFoundError path \/ e = IsADirectoryError path
  \/ e = NotADirectoryError path.

(** ** Example worlds *)

(** A results folder written down file by file. *)
Definition file (name : string) (records : list (list str))
  : str * list (list str) := (lit name, records).

Definition results_with (files : list (str * list (list str))) : world :=
  World (list_to_map
           (List.map (fun f => (path_join results_dir f.1, f.2)) files))
        {[ results_dir := List.map fst files ]}
        [].

Definition placements : list (list str) :=
  [[lit "ItemId"; lit "ProductId"];
   [lit "7"; lit "1"];
   [lit "8"; lit "1"]].

Definition placements_colored : list (list str) :=
  [[lit "ItemId"; lit "ProductId"; lit "Color"];
   [lit "7"; lit "1"; lit "#D6BB41"];
   [lit "8"; lit "1"; lit "#D6BB41"]].

Definition placements_without_product : list (list str) :=
  [[lit "ItemId"]; [lit "7"]].

Definition placements_empty : list (list str) :=
  [[lit "ItemId"; lit "ProductId"]].

(** The second data line stops before its ProductId cell. *)
Definition placements_short : list (list str) :=
  [[lit "ItemId"; lit "ProductId"];
   [lit "7"; lit "1"];
   [lit "8"]].

(** What the program leaves of [placements_short]. *)
Definition placements_short_colored : list (list str) :=
  [[lit "ItemId"; lit "ProductId"; lit "Color"];
   [lit "7"; lit "1"; lit "#D6BB41"];
   [lit "8"; []; lit "#B558E3"]].


Definition file_a : str := path_join results_dir (lit "item_placements_a.csv").
Definition file_b : str := path_join results_dir (lit "item_placements_b.csv").

Definition one_file : world :=
  results_with [file "item_placements_a.csv" placements].

Definition one_colored_file : world :=
  results_with [file "item_placements_a.csv" placements_colored].

Definition one_empty_file : world :=
  results_with [file "item_placements_a.csv" placements_empty].


(** A batch whose first table has no ProductId field. *)
Definition batch : world :=
  results_with [file "item_placements_a.csv" placements_without_product;
                file "item_placements_b.csv" placements].

(** A batch of three tables, the second one without a ProductId field. *)
Definition batch_of_three : world :=
  results_with [file "item_placements_0.csv" placements;
                file "item_placements_a.csv" placements_without_product;
                file "item_placements_b.csv" placements].

(** A batch whose first table has a line without its ProductId cell. *)
Definition batch_short : world :=
  results_with [file "item_placements_a.csv" placements_short;
                file "item_placements_b.csv" placements].

(** A folder of two files, one of them augmented already. *)
Definition two_files : world :=
  results_with [file "item_placements_a.csv" placements;
                file "item_placements_b.csv" placements_colored].

(** A world without the results folder. *)
Definition no_folder : world := World ∅ ∅ [].

(** ** A second check of the HSL box: the palette

    On the same box, the channel of the offset alone is the weakest and the
    channel of the chroma the strongest, with the intermediate one between
    them; the bounds 43, 242 and 103 are the extremes met on the box. *)

Definition in_palette (lo hi : result Z) : bool :=
  match lo, hi with
  | Ok lo, Ok hi => (43 <=? lo) && (hi <=? 242) && (103 <=? hi - lo)
  | _, _ => false
  end.

Definition between (lo hi : result Z) (c m : float) (t : result float)
  : bool :=
  match lo, hi, t with
  | Ok lo, Ok hi, Ok t =>
      match channel (c * t)%float m with
      | Ok mid => (lo <=? mid) && (mid <=? hi)
      | Raise _ => false
      end
  | _, _, _ => false
  end.

Definition palette_check (hues sats lights : list Z) : bool :=
  (fun ramps =>
     forallb (fun s =>
       forallb (fun l =>
         let c := chroma s l in
         let m := offset l c in
         let lo := channel 0%float m in
         let hi := channel c m in
         in_palette lo hi && forallb (between lo hi c m) ramps)
       lights)
     sats)
  (List.map hue_ramp hues).

(** The order of the three channels in each sextant of the hue. *)
Definition sextant_order (h r g b : Z) : Prop :=
  if h <? 60 then b <= g <= r
  else if h <? 120 then b <= r <= g
  else if h <? 180 then r <= b <= g
  else if h <? 240 then r <= g <= b
  else if h <? 300 then g <= r <= b
  else g <= b <= r.

(** ** The file server: [server.py]

    The handler answers a GET request from the request path and the results
    folder.  The folder is the one of [main] ([../Results] seen from the
    folder of the script); the content of a file is represented by its
    records, as in [world].  Sending the answer on the socket and the
    handling of other paths by the base class are outside the model. *)

Inductive body : Type :=
| JsonNames (names : list str)
| FileContent (content : list (list str)).

Inductive response : Type :=
| Respond (status : Z) (content_type : str) (content : body)
| SendError (code : Z) (message : str)
| BaseDoGet.

(** Lines 15-47. *)
Definition do_GET (path : str) (w : world) : response :=
  if decide (path = lit "/list_csv") then
    let csv_files :=
      match folders w !! results_dir with
      | Some names =>
          List.filter (fun filename =>
                         startswith filename (lit "item_placements_")
                         && endswith filename (lit ".csv")) names
      | None => []
      end in
    Respond 200 (lit "application/json") (JsonNames csv_files)
  else if startswith path (lit "/packing_data/") then
    let filename := last_component path in
    let file_path := path_join results_dir filename in
    match fs w !! file_path with
    | Some content => Respond 200 (lit "text/csv") (FileContent content)
    | None => SendError 404 (lit "File Not Found: " ++ filename)
    end
  else BaseDoGet.

(** ** Properties of the colour *)

(** Closed goals are settled by evaluation. *)
Ltac by_evaluation := vm_compute; reflexivity.
Ltac not_a_field := apply (bool_decide_unpack _); vm_compute; exact I.

Lemma box_check_true :
  box_check (Zrange 0 360) (Zrange 65 20) (Zrange 55 15) = true.
Proof. vm_compute. reflexivity. Qed.

Lemma bytes_check_true : bytes_check (Zrange 0 256) = true.
Proof. vm_compute. reflexivity. Qed.

Lemma Zrange_In (a z : Z) (n : nat) :
  a <= z < a + Z.of_nat n -> In z (Zrange a n).
Proof.
  intros Hz. unfold Zrange. apply in_map_iff.
  exists (Z.to_nat (z - a)). split; [lia|]. apply in_seq. lia.
Qed.

Lemma byte_ok_inv (r : result Z) :
  byte_ok r = true -> exists z, r = Ok z /\ is_byte z.
Proof.
  destruct r as [z|e]; simpl; [|discriminate].
  intros H. apply andb_true_iff in H as [H1 H2].
  exists z. split; [reflexivity|]. unfold is_byte. lia.
Qed.

Lemma box_check_inv (hues sats lights : list Z) (h s l : Z) :
  box_check hues sats lights = true ->
  In h hues -> In s sats -> In l lights ->
  byte_ok (channel (chroma s l) (offset l (chroma s l))) = true
  /\ byte_ok (channel 0%float (offset l (chroma s l))) = true
  /\ ramp_ok (chroma s l) (offset l (chroma s l)) (hue_ramp h) = true.
Proof.
  unfold box_check. intros H Hh Hs Hl.
  pose proof (proj1 (forallb_forall _ _) H s Hs) as H1.
  cbv beta in H1.
  pose proof (proj1 (forallb_forall _ _) H1 l Hl) as H2.
  cbv beta zeta in H2.
  apply andb_true_iff in H2 as [H3 Hx].
  apply andb_true_iff in H3 as [Hc H0].
  pose proof (proj1 (forallb_forall _ _) Hx (hue_ramp h)
                (in_map hue_ramp _ _ Hh)) as Hx'.
  exact (conj Hc (conj H0 Hx')).
Qed.

(** On the whole HSL box the conversion returns three bytes. *)
Lemma hsl_to_rgb_box (h s l : Z) :
  0 <= h < 360 -> 65 <= s < 85 -> 55 <= l < 70 ->
  exists r g b, hsl_to_rgb h s l = Ok (r, g, b)
                /\ is_byte r /\ is_byte g /\ is_byte b.
Proof.
  intros Hh Hs Hl.
  destruct (box_check_inv _ _ _ h s l box_check_true
              (Zrange_In 0 h 360 ltac:(lia))
              (Zrange_In 65 s 20 ltac:(lia))
              (Zrange_In 55 l 15 ltac:(lia))) as (Hc & H0 & Hx).
  unfold hsl_to_rgb.
  destruct (hue_ramp h) as [t|e]; [|discriminate Hx].
  unfold ramp_ok in Hx. cbv beta iota delta [bind].
  apply byte_ok_inv in Hc as (zc & Ec & Bc).
  apply byte_ok_inv in H0 as (z0 & E0 & B0).
  apply byte_ok_inv in Hx as (zx & Ex & Bx).
  unfold sextant.
  repeat match goal with
         | |- context [if ?b then _ else _] => destruct b
         end;
    cbv beta iota; rewrite ?Ec, ?E0, ?Ex; cbv beta iota;
    do 3 eexists; (split; [reflexivity|]);
    (split; [assumption|]); split; assumption.
Qed.

(** A byte is formatted as its two upper-case hexadecimal digits. *)
Lemma format_byte (z : Z) :
  is_byte z ->
  format_02X z = two_hex_digits z
  /\ Forall (fun c => c ∈ lit "0123456789ABCDEF") (two_hex_digits z).
Proof.
  intros Hz.
  assert (Hin : In z (Zrange 0 256)) by (apply Zrange_In; unfold is_byte in Hz; lia).
  generalize bytes_check_true. generalize (Zrange 0 256) Hin.
  intros bytes Hb H. unfold bytes_check in H.
  pose proof (proj1 (forallb_forall _ _) H z Hb) as H1. cbv beta in H1.
  apply andb_true_iff in H1 as [H2 H3].
  apply bool_decide_eq_true in H2. split; [exact H2|].
  apply Forall_forall. intros c Hc.
  pose proof (proj1 (forallb_forall _ _) H3 c) as H4. cbv beta in H4.
  eapply bool_decide_eq_true_1, H4. apply list_elem_of_In. exact Hc.
Qed.

(** *** The hash *)

Lemma hash_step_linear (h : Z) (c : char) : hash_step h c = ord c + 31 * h.
Proof. unfold hash_step. rewrite Z.shiftl_mul_pow2 by lia. lia. Qed.

Lemma ord_nonneg (c : char) : 0 <= ord c.
Proof. unfold ord. lia. Qed.

Lemma fold_hash_nonneg (s : str) (a : Z) :
  0 <= a -> 0 <= fold_left hash_step s a.
Proof.
  revert a. induction s as [|c s IH]; intros a Ha; simpl; [exact Ha|].
  apply IH. rewrite hash_step_linear. pose proof (ord_nonneg c). lia.
Qed.

Lemma hash_of_nonneg (s : str) : 0 <= hash_of s.
Proof. apply fold_hash_nonneg. lia. Qed.

Lemma hash_of_snoc (s : str) (c : char) :
  hash_of (s ++ [c]) = hash_step (hash_of s) c.
Proof. unfold hash_of. rewrite fold_left_app. reflexivity. Qed.

Lemma hash_of_prefix (s : str) (n : nat) :
  fold_left hash_step (skipn n s) (hash_of (firstn n s)) = hash_of s.
Proof.
  unfold hash_of. rewrite <- fold_left_app, firstn_skipn. reflexivity.
Qed.

(** The three components stay in their ranges, whatever the hash. *)
Lemma hue_range (hv : Z) : 0 <= hue hv <= 359.
Proof. unfold hue. pose proof (Z.mod_pos_bound hv 360). lia. Qed.

Lemma saturation_range (hv : Z) : 65 <= saturation hv <= 84.
Proof.
  unfold saturation.
  pose proof (Z.mod_pos_bound (Z.abs (Z.shiftr hv 8)) 20). lia.
Qed.

Lemma lightness_range (hv : Z) : 55 <= lightness hv <= 69.
Proof.
  unfold lightness.
  pose proof (Z.mod_pos_bound (Z.abs (Z.shiftr hv 16)) 15). lia.
Qed.

Lemma color_of_hash_rgb (hv : Z) :
  exists r g b,
    hsl_to_rgb (hue hv) (saturation hv) (lightness hv) = Ok (r, g, b)
    /\ is_byte r /\ is_byte g /\ is_byte b
    /\ color_of_hash hv = Ok (hex_color (r, g, b)).
Proof.
  pose proof (hue_range hv) as Hh.
  pose proof (saturation_range hv) as Hs.
  pose proof (lightness_range hv) as Hl.
  destruct (hsl_to_rgb_box (hue hv) (saturation hv) (lightness hv))
    as (r & g & b & E & Br & Bg & Bb); [lia..|].
  exists r, g, b. repeat (split; [assumption|]).
  unfold color_of_hash. cbv zeta. rewrite E. reflexivity.
Qed.

(** [generate_color_for_product] returns a colour for every string. *)
Lemma generate_color_total (product_id : str) :
  exists color, generate_color_for_product product_id = Ok color.
Proof.
  destruct (color_of_hash_rgb (hash_of product_id))
    as (r & g & b & _ & _ & _ & _ & E).
  eexists. unfold generate_color_for_product. cbv zeta. exact E.
Qed.

(** *** [int] of a float is truncation toward zero *)

Lemma truncate_comp (p q : Q) : (p == q)%Q -> truncate p = truncate q.
Proof.
  intros E. unfold truncate.
  rewrite (Qleb_comp 0%Q 0%Q (Qeq_refl 0%Q) p q E).
  destruct (Qle_bool 0%Q q).
  - apply Qfloor_comp, E.
  - apply Qceiling_comp, E.
Qed.

Lemma truncate_Z (z : Z) : truncate (inject_Z z) = z.
Proof.
  unfold truncate. destruct (Qle_bool 0%Q (inject_Z z)).
  - apply Qfloor_Z.
  - apply Qceiling_Z.
Qed.

Lemma truncate_frac_pos (a : positive) (k : positive) :
  truncate (Z.pos a # k) = Z.pos a / Z.pos k.
Proof.
  unfold truncate.
  replace (Qle_bool 0%Q (Z.pos a # k)) with true; [reflexivity|].
  symmetry. apply Qle_bool_iff. unfold Qle. simpl. lia.
Qed.

Lemma truncate_frac_neg (a : positive) (k : positive) :
  truncate (Z.neg a # k) = - (Z.pos a / Z.pos k).
Proof.
  unfold truncate.
  replace (Qle_bool 0%Q (Z.neg a # k)) with false.
  - unfold Qceiling, Qfloor. simpl. reflexivity.
  - symmetry. apply not_true_is_false. rewrite Qle_bool_iff.
    unfold Qle. simpl. lia.
Qed.

Lemma Qpower_2_nonneg (e : Z) : 0 <= e -> (Qpower 2 e == inject_Z (2 ^ e))%Q.
Proof. intros He. symmetry. apply (Zpower_Qpower 2 e He). Qed.

Lemma Qpower_2_neg (e : Z) :
  e < 0 -> (Qpower 2 e == 1 # Z.to_pos (2 ^ (- e)))%Q.
Proof.
  intros He. destruct e as [|p|p]; try lia.
  change (Qpower 2 (Z.neg p)) with (/ Qpower 2 (Z.pos p))%Q.
  rewrite (Qpower_2_nonneg (Z.pos p)) by lia.
  change (- Z.neg p) with (Z.pos p).
  assert (Hp : 0 < 2 ^ Z.pos p) by (apply Z.pow_pos_nonneg; lia).
  destruct (2 ^ Z.pos p) as [|n|n] eqn:E; try lia.
  reflexivity.
Qed.

Lemma int_of_float_truncates (f : float) (z : Z) :
  int_of_float f = Ok z ->
  exists q, float_value f = Some q /\ z = truncate q.
Proof.
  unfold int_of_float, float_value.
  destruct (Prim2SF f) as [s|s| |s m e]; try discriminate.
  - intros [= <-]. exists 0%Q. split; reflexivity.
  - intros [= <-]. eexists. split; [reflexivity|].
    destruct (Z.leb_spec 0 e) as [He|He].
    + erewrite truncate_comp.
      2:{ rewrite (Qpower_2_nonneg e He), <- inject_Z_mult. reflexivity. }
      rewrite truncate_Z. destruct s; lia.
    + assert (Hp : 0 < 2 ^ (- e)) by (apply Z.pow_pos_nonneg; lia).
      erewrite truncate_comp.
      2:{ rewrite (Qpower_2_neg e He). reflexivity. }
      destruct (2 ^ (- e)) as [|n|n] eqn:E; try lia.
      change (Z.to_pos (Z.pos n)) with n.
      destruct s.
      * erewrite truncate_comp; [apply eq_sym, truncate_frac_neg|].
        unfold Qeq, Qmult, inject_Z. simpl. lia.
      * erewrite truncate_comp; [apply eq_sym, truncate_frac_pos|].
        unfold Qeq, Qmult, inject_Z. simpl. lia.
Qed.

(** *** The 32-bit accumulator of the specification *)

Lemma wrap32_mod (z : Z) : wrap32 z mod 2 ^ 32 = z mod 2 ^ 32.
Proof.
  unfold wrap32. rewrite Zminus_mod_idemp_l. f_equal. lia.
Qed.

Lemma wrap32_congr (a b : Z) :
  a mod 2 ^ 32 = b mod 2 ^ 32 -> wrap32 a = wrap32 b.
Proof.
  intros E. unfold wrap32.
  rewrite (Zplus_mod a), (Zplus_mod b), E. reflexivity.
Qed.

Lemma wrap32_small (z : Z) : - 2 ^ 31 <= z < 2 ^ 31 -> wrap32 z = z.
Proof. intros Hz. unfold wrap32. rewrite Z.mod_small; lia. Qed.

Lemma wrap32_shift (z : Z) : exists k, wrap32 z = z + k * 2 ^ 32.
Proof.
  exists (- ((z + 2 ^ 31) / 2 ^ 32)). unfold wrap32.
  rewrite Z.mod_eq by lia. lia.
Qed.

Lemma hash32_step_wrap (h h' : Z) (c : char) :
  h' = wrap32 h -> hash32_step h' c = wrap32 (hash_step h c).
Proof.
  intros ->. unfold hash32_step, hash_step.
  rewrite !Z.shiftl_mul_pow2 by lia.
  apply wrap32_congr.
  destruct (wrap32_shift h) as [k0 ->].
  destruct (wrap32_shift ((h + k0 * 2 ^ 32) * 2 ^ 5)) as [k1 ->].
  destruct (wrap32_shift ((h + k0 * 2 ^ 32) * 2 ^ 5 + k1 * 2 ^ 32
                          - (h + k0 * 2 ^ 32))) as [k2 ->].
  replace (ord c + ((h + k0 * 2 ^ 32) * 2 ^ 5 + k1 * 2 ^ 32
                    - (h + k0 * 2 ^ 32) + k2 * 2 ^ 32))
    with (ord c + (h * 2 ^ 5 - h) + (31 * k0 + k1 + k2) * 2 ^ 32) by ring.
  apply Z_mod_plus_full.
Qed.

(** The code's accumulator and the 32-bit one agree modulo 2^32: the 32-bit
    one is the code's, wrapped. *)
Lemma hash32_wrap (s : str) : hash32 s = wrap32 (hash_of s).
Proof.
  induction s as [|c s IH] using rev_ind; [reflexivity|].
  rewrite hash_of_snoc. unfold hash32. rewrite fold_left_app. simpl.
  apply hash32_step_wrap. exact IH.
Qed.

(** The two accumulators are equal as long as the code's stays below 2^31. *)
Lemma hash32_agrees_below (s : str) :
  hash_of s < 2 ^ 31 -> hash32 s = hash_of s.
Proof.
  intros H. rewrite hash32_wrap. apply wrap32_small.
  pose proof (hash_of_nonneg s). lia.
Qed.

(** ** The claims on the colour *)

(** C1 (the code departs from the claim). The claim: the accumulator after
    each character is the value a 32-bit signed accumulator would hold.  On
    the identifier "1000000" the code's accumulator is 44907686257, above
    2^31 - 1, where the 32-bit accumulator holds 1958013297; the colour the
    code returns, #E5518A, is not the colour of the 32-bit hash, #E268E8. *)
Theorem hash_exceeds_int32 :
  hash_of (lit "1000000") = 44907686257
  /\ hash32 (lit "1000000") = 1958013297
  /\ 2 ^ 31 - 1 < hash_of (lit "1000000")
  /\ generate_color_for_product (lit "1000000") = Ok (lit "#E5518A")
  /\ color_of_hash (hash32 (lit "1000000")) = Ok (lit "#E268E8").
Proof. vm_compute. repeat split. Qed.

(** C2. For the identifier "1", whose only character has code point 49, the
    hash is 49, the hue 49, the saturation 65 and the lightness 55, and the
    colour returned is the fixed string #D6BB41. *)
Theorem color_of_1 :
  List.map ord (lit "1") = [49]
  /\ hash_of (lit "1") = 49
  /\ hue 49 = 49 /\ saturation 49 = 65 /\ lightness 49 = 55
  /\ hsl_to_rgb 49 65 55 = Ok (214, 187, 65)
  /\ generate_color_for_product (lit "1") = Ok (lit "#D6BB41").
Proof. vm_compute. repeat split. Qed.

(** C3. For every identifier the hue is in [0,359], the saturation in
    [65,84] and the lightness in [55,69]; the three channels are integers in
    [0,255]; the value returned is '#' followed by the two upper-case
    hexadecimal digits of each channel, seven characters in all. *)
Theorem color_ranges (product_id : str) :
  0 <= hue (hash_of product_id) <= 359
  /\ 65 <= saturation (hash_of product_id) <= 84
  /\ 55 <= lightness (hash_of product_id) <= 69
  /\ exists r g b color,
       hsl_to_rgb (hue (hash_of product_id))
                  (saturation (hash_of product_id))
                  (lightness (hash_of product_id)) = Ok (r, g, b)
       /\ (0 <= r <= 255) /\ (0 <= g <= 255) /\ (0 <= b <= 255)
       /\ generate_color_for_product product_id = Ok color
       /\ color = lit "#" ++ two_hex_digits r ++ two_hex_digits g
                          ++ two_hex_digits b
       /\ length color = 7%nat
       /\ Forall (fun c => c ∈ lit "0123456789ABCDEF") (tail color).
Proof.
  split; [apply hue_range|]. split; [apply saturation_range|].
  split; [apply lightness_range|].
  destruct (color_of_hash_rgb (hash_of product_id))
    as (r & g & b & E & Br & Bg & Bb & Ec).
  destruct (format_byte r Br) as [Fr Dr].
  destruct (format_byte g Bg) as [Fg Dg].
  destruct (format_byte b Bb) as [Fb Db].
  exists r, g, b. eexists.
  split; [exact E|]. split; [exact Br|]. split; [exact Bg|].
  split; [exact Bb|].
  split.
  { unfold generate_color_for_product. cbv zeta. rewrite Ec.
    unfold hex_color. rewrite Fr, Fg, Fb. reflexivity. }
  split; [reflexivity|]. split; [reflexivity|].
  change (tail (lit "#" ++ two_hex_digits r ++ two_hex_digits g
                ++ two_hex_digits b))
    with (two_hex_digits r ++ two_hex_digits g ++ two_hex_digits b).
  rewrite !Forall_app. auto.
Qed.

(** C4. For every identifier each of the three channels is the exact value
    of the binary64 number (component + m) * 255 truncated toward zero; on
    the identifier "1" the blue channel is 65 where rounding to nearest
    gives 66. *)
Theorem channels_truncate :
  (forall product_id : str,
     let h := hue (hash_of product_id) in
     let s := saturation (hash_of product_id) in
     let l := lightness (hash_of product_id) in
     let c := chroma s l in
     let m := offset l c in
     exists t vr vg vb qr qg qb,
       hue_ramp h = Ok t
       /\ sextant h c (c * t)%float = (vr, vg, vb)
       /\ float_value (scaled vr m) = Some qr
       /\ float_value (scaled vg m) = Some qg
       /\ float_value (scaled vb m) = Some qb
       /\ hsl_to_rgb h s l = Ok (truncate qr, truncate qg, truncate qb)
       /\ generate_color_for_product product_id
          = Ok (hex_color (truncate qr, truncate qg, truncate qb)))
  /\ (exists q,
        float_value (scaled 0%float (offset 55 (chroma 65 55))) = Some q
        /\ hsl_to_rgb 49 65 55 = Ok (214, 187, truncate q)
        /\ truncate q = 65 /\ round_half_up q = 66).
Proof.
  split.
  - intros product_id h s l c m. subst h s l c m.
    destruct (color_of_hash_rgb (hash_of product_id))
      as (r & g & b & E & _ & _ & _ & Ec).
    pose proof E as E'. unfold hsl_to_rgb in E'. cbv zeta in E'.
    destruct (hue_ramp _) as [t|e] eqn:Et; [|discriminate E'].
    cbv beta iota delta [bind] in E'.
    destruct (sextant _ _ _) as [[vr vg] vb] eqn:Es.
    cbv beta iota in E'.
    destruct (channel vr _) as [zr|] eqn:Er; [|discriminate E'].
    destruct (channel vg _) as [zg|] eqn:Eg; [|discriminate E'].
    destruct (channel vb _) as [zb|] eqn:Eb; [|discriminate E'].
    injection E' as <- <- <-.
    apply int_of_float_truncates in Er as (qr & Vr & Tr).
    apply int_of_float_truncates in Eg as (qg & Vg & Tg).
    apply int_of_float_truncates in Eb as (qb & Vb & Tb).
    rewrite Tr, Tg, Tb in E, Ec.
    exists t, vr, vg, vb, qr, qg, qb.
    split; [reflexivity|]. split; [exact Es|].
    split; [exact Vr|]. split; [exact Vg|]. split; [exact Vb|].
    split; [exact E|].
    unfold generate_color_for_product. cbv zeta. exact Ec.
  - eexists. split; [vm_compute; reflexivity|].
    vm_compute. repeat split.
Qed.

(** C5. [generate_color_for_product] returns a colour for every string,
    never an exception; the empty string hashes to 0 and gets #D64141. *)
Theorem color_total :
  (forall product_id : str,
     exists color, generate_color_for_product product_id = Ok color)
  /\ hash_of [] = 0
  /\ generate_color_for_product [] = Ok (lit "#D64141").
Proof.
  split; [exact generate_color_total|]. vm_compute. split; reflexivity.
Qed.

(** C10. After every character the accumulator is a nonnegative integer (the
    accumulator after the first n characters is that of the prefix of length
    n); the three [abs] are the identity, the hue is the remainder of the
    hash by 360; and the accumulator has no upper bound. *)
Theorem hash_nonnegative :
  (forall (product_id : str) (n : nat),
     fold_left hash_step (skipn n product_id)
               (hash_of (firstn n product_id)) = hash_of product_id
     /\ 0 <= hash_of (firstn n product_id))
  /\ (forall product_id : str,
        let hash_value := hash_of product_id in
        0 <= hash_value
        /\ Z.abs (hash_value mod 360) = hash_value mod 360
        /\ Z.abs (Z.shiftr hash_value 8) = Z.shiftr hash_value 8
        /\ Z.abs (Z.shiftr hash_value 16) = Z.shiftr hash_value 16
        /\ hue hash_value = hash_value mod 360
        /\ saturation hash_value = 65 + Z.shiftr hash_value 8 mod 20
        /\ lightness hash_value = 55 + Z.shiftr hash_value 16 mod 15)
  /\ (forall bound : Z, exists product_id : str, bound < hash_of product_id).
Proof.
  split; [|split].
  - intros product_id n. split; [apply hash_of_prefix|apply hash_of_nonneg].
  - intros product_id hash_value.
    pose proof (hash_of_nonneg product_id) as H0. fold hash_value in H0.
    pose proof (Z.mod_pos_bound hash_value 360 ltac:(lia)) as Hm.
    assert (H8 : 0 <= Z.shiftr hash_value 8) by (apply Z.shiftr_nonneg; exact H0).
    assert (H16 : 0 <= Z.shiftr hash_value 16) by (apply Z.shiftr_nonneg; exact H0).
    unfold hue, saturation, lightness.
    rewrite (Z.abs_eq (hash_value mod 360)) by lia.
    rewrite (Z.abs_eq (Z.shiftr hash_value 8)) by lia.
    rewrite (Z.abs_eq (Z.shiftr hash_value 16)) by lia.
    repeat split; lia.
  - intros bound. exists (List.repeat 1%N (Z.to_nat bound + 1)).
    assert (H : forall n : nat, Z.of_nat n <= hash_of (List.repeat 1%N n)).
    { induction n as [|n IH]; [vm_compute; discriminate|].
      replace (List.repeat 1%N (S n)) with (List.repeat 1%N n ++ [1%N])
        by (rewrite <- repeat_cons; reflexivity).
      rewrite hash_of_snoc, hash_step_linear.
      pose proof (hash_of_nonneg (List.repeat 1%N n)).
      change (ord 1%N) with 1. lia. }
    specialize (H (Z.to_nat bound + 1)%nat). lia.
Qed.

(** ** Further properties of the colour *)

Lemma palette_check_true :
  palette_check (Zrange 0 360) (Zrange 65 20) (Zrange 55 15) = true.
Proof. vm_compute. reflexivity. Qed.

Lemma palette_check_inv (hues sats lights : list Z) (h s l : Z) :
  palette_check hues sats lights = true ->
  In h hues -> In s sats -> In l lights ->
  exists lo mid hi t,
    hue_ramp h = Ok t
    /\ channel 0%float (offset l (chroma s l)) = Ok lo
    /\ channel (chroma s l * t)%float (offset l (chroma s l)) = Ok mid
    /\ channel (chroma s l) (offset l (chroma s l)) = Ok hi
    /\ 43 <= lo /\ lo <= mid /\ mid <= hi /\ hi <= 242 /\ 103 <= hi - lo.
Proof.
  unfold palette_check. intros H Hh Hs Hl.
  pose proof (proj1 (forallb_forall _ _) H s Hs) as H1. cbv beta in H1.
  pose proof (proj1 (forallb_forall _ _) H1 l Hl) as H2.
  cbv beta zeta in H2.
  apply andb_true_iff in H2 as [Hp Hb].
  pose proof (proj1 (forallb_forall _ _) Hb (hue_ramp h)
                (in_map hue_ramp _ _ Hh)) as Hm.
  unfold in_palette in Hp. unfold between in Hm.
  destruct (channel 0%float _) as [lo|] eqn:Elo; [|discriminate Hp].
  destruct (channel (chroma s l) _) as [hi|] eqn:Ehi; [|discriminate Hp].
  destruct (hue_ramp h) as [t|] eqn:Et; [|discriminate Hm].
  destruct (channel (chroma s l * t)%float _) as [mid|] eqn:Emid;
    [|discriminate Hm].
  apply andb_true_iff in Hp as [Hp H103].
  apply andb_true_iff in Hp as [H43 H242].
  apply andb_true_iff in Hm as [Hlo Hhi].
  apply Z.leb_le in H103, H43, H242, Hlo, Hhi.
  exists lo, mid, hi, t.
  split; [reflexivity|]. split; [reflexivity|]. split; [exact Emid|].
  split; [reflexivity|]. lia.
Qed.

(** The three channels on the box: bounds, spread and order. *)
Lemma hsl_to_rgb_palette (h s l : Z) :
  0 <= h < 360 -> 65 <= s < 85 -> 55 <= l < 70 ->
  exists r g b,
    hsl_to_rgb h s l = Ok (r, g, b)
    /\ 43 <= Z.min r (Z.min g b)
    /\ Z.max r (Z.max g b) <= 242
    /\ 103 <= Z.max r (Z.max g b) - Z.min r (Z.min g b)
    /\ sextant_order h r g b.
Proof.
  intros Hh Hs Hl.
  destruct (palette_check_inv _ _ _ h s l palette_check_true
              (Zrange_In 0 h 360 ltac:(lia))
              (Zrange_In 65 s 20 ltac:(lia))
              (Zrange_In 55 l 15 ltac:(lia)))
    as (lo & mid & hi & t & Et & Elo & Emid & Ehi & Hb).
  unfold hsl_to_rgb, sextant_order. rewrite Et. cbv beta iota delta [bind].
  unfold sextant.
  repeat match goal with
         | |- context [if ?b then _ else _] => destruct b
         end;
    cbv beta iota; rewrite ?Elo, ?Emid, ?Ehi; cbv beta iota;
    do 3 eexists; (split; [reflexivity|]); lia.
Qed.

(** The colours are never close to black or white, and never grey: every
    channel is in [43, 242] and the strongest channel exceeds the weakest by
    at least 103. *)
Theorem palette_bounds (product_id : str) :
  exists r g b,
    generate_color_for_product product_id = Ok (hex_color (r, g, b))
    /\ 43 <= Z.min r (Z.min g b)
    /\ Z.max r (Z.max g b) <= 242
    /\ 103 <= Z.max r (Z.max g b) - Z.min r (Z.min g b).
Proof.
  pose proof (hue_range (hash_of product_id)) as Hh.
  pose proof (saturation_range (hash_of product_id)) as Hs.
  pose proof (lightness_range (hash_of product_id)) as Hl.
  destruct (hsl_to_rgb_palette (hue (hash_of product_id))
              (saturation (hash_of product_id))
              (lightness (hash_of product_id)))
    as (r & g & b & E & H1 & H2 & H3 & _); [lia..|].
  exists r, g, b. split; [|auto].
  unfold generate_color_for_product, color_of_hash. cbv zeta.
  rewrite E. reflexivity.
Qed.

(** The strongest and the weakest channel are fixed by the sextant of the
    hue: red over green over blue below 60 degrees, and so on round the
    circle. *)
Theorem channel_order (product_id : str) :
  exists r g b,
    hsl_to_rgb (hue (hash_of product_id)) (saturation (hash_of product_id))
               (lightness (hash_of product_id)) = Ok (r, g, b)
    /\ generate_color_for_product product_id = Ok (hex_color (r, g, b))
    /\ sextant_order (hue (hash_of product_id)) r g b.
Proof.
  pose proof (hue_range (hash_of product_id)) as Hh.
  pose proof (saturation_range (hash_of product_id)) as Hs.
  pose proof (lightness_range (hash_of product_id)) as Hl.
  destruct (hsl_to_rgb_palette (hue (hash_of product_id))
              (saturation (hash_of product_id))
              (lightness (hash_of product_id)))
    as (r & g & b & E & _ & _ & _ & Ho); [lia..|].
  exists r, g, b. split; [exact E|]. split; [|exact Ho].
  unfold generate_color_for_product, color_of_hash. cbv zeta.
  rewrite E. reflexivity.
Qed.

(** The hash of a concatenation: the hash of the first part is multiplied by
    31 once for every character that follows. *)
Theorem hash_of_app (a b : str) :
  hash_of (a ++ b) = hash_of a * 31 ^ Z.of_nat (length b) + hash_of b.
Proof.
  induction b as [|c b IH] using rev_ind.
  - rewrite app_nil_r. change (hash_of []) with 0. simpl. lia.
  - rewrite app_assoc, !hash_of_snoc, !hash_step_linear, IH.
    rewrite length_app, Nat2Z.inj_add, Z.pow_add_r by lia.
    change (Z.of_nat (length [c])) with 1. lia.
Qed.

Lemma hash_of_bound (s : str) (M : Z) :
  Forall (fun c => ord c <= M) s ->
  30 * hash_of s <= M * (31 ^ Z.of_nat (length s) - 1).
Proof.
  intros HF. induction s as [|c s IH] using rev_ind.
  - change (hash_of []) with 0. simpl. lia.
  - apply Forall_app in HF as [HF Hc]. inversion Hc as [|? ? Hc' _]; subst.
    specialize (IH HF).
    rewrite hash_of_snoc, hash_step_linear.
    rewrite length_app, Nat2Z.inj_add, Z.pow_add_r by lia.
    change (Z.of_nat (length [c])) with 1. rewrite Z.pow_1_r. lia.
Qed.

(** An identifier of at most six characters, none above the digit 9, keeps
    the accumulator below 2^31: on such identifiers the code computes the
    hash a 32-bit signed accumulator computes. *)
Theorem short_ids_fit_int32 (product_id : str) :
  Forall (fun c => ord c <= 57) product_id ->
  (length product_id <= 6)%nat ->
  hash_of product_id < 2 ^ 31 /\ hash32 product_id = hash_of product_id.
Proof.
  intros HF Hlen.
  assert (H : hash_of product_id < 2 ^ 31).
  { pose proof (hash_of_bound product_id 57 HF) as Hb.
    assert (Hp : 31 ^ Z.of_nat (length product_id) <= 31 ^ 6)
      by (apply Z.pow_le_mono_r; lia).
    change (31 ^ 6) with 887503681 in Hp. change (2 ^ 31) with 2147483648.
    lia. }
  split; [exact H|]. apply hash32_agrees_below, H.
Qed.

Lemma upper_hex_digit_inj (i j : Z) :
  0 <= i < 16 -> 0 <= j < 16 ->
  upper_hex_digit i = upper_hex_digit j -> i = j.
Proof.
  intros Hi Hj E. unfold upper_hex_digit in E.
  assert (Hnd : List.NoDup (lit "0123456789ABCDEF")).
  { apply NoDup_ListNoDup. apply (bool_decide_unpack _). vm_compute. exact I. }
  pose proof (proj1 (List.NoDup_nth _ 0%N) Hnd (Z.to_nat i) (Z.to_nat j)) as H.
  change (length (lit "0123456789ABCDEF")) with 16%nat in H.
  specialize (H ltac:(lia) ltac:(lia) E). lia.
Qed.

Lemma two_hex_digits_inj (m n : Z) :
  is_byte m -> is_byte n -> two_hex_digits m = two_hex_digits n -> m = n.
Proof.
  unfold is_byte, two_hex_digits. intros Hm Hn E.
  injection E as E1 E2.
  apply upper_hex_digit_inj in E1;
    [|split; [apply Z.div_pos; lia|apply Z.div_lt_upper_bound; lia]..].
  apply upper_hex_digit_inj in E2; [|apply Z.mod_pos_bound; lia..].
  rewrite (Z.div_mod m 16), (Z.div_mod n 16) by lia. lia.
Qed.

(** Different colours have different texts: on bytes the formatting of line
    46 is one to one. *)
Theorem hex_color_injective (r g b r' g' b' : Z) :
  is_byte r -> is_byte g -> is_byte b ->
  is_byte r' -> is_byte g' -> is_byte b' ->
  hex_color (r, g, b) = hex_color (r', g', b') ->
  (r, g, b) = (r', g', b').
Proof.
  intros Hr Hg Hb Hr' Hg' Hb' E. unfold hex_color in E.
  rewrite (proj1 (format_byte r Hr)), (proj1 (format_byte g Hg)),
    (proj1 (format_byte b Hb)), (proj1 (format_byte r' Hr')),
    (proj1 (format_byte g' Hg')), (proj1 (format_byte b' Hb')) in E.
  unfold two_hex_digits in E. cbn [app lit] in E.
  injection E as E1 E2 E3 E4 E5 E6.
  rewrite (two_hex_digits_inj r r' Hr Hr'), (two_hex_digits_inj g g' Hg Hg'),
    (two_hex_digits_inj b b' Hb Hb'); [reflexivity|..];
    unfold two_hex_digits; congruence.
Qed.

(** ** The further statements on the colour at examples *)

Lemma short_ids_fit_int32_witness :
  Forall (fun c => ord c <= 57) (lit "999999")
  /\ (length (lit "999999") <= 6)%nat
  /\ hash_of (lit "999999") < 2 ^ 31
  /\ hash32 (lit "999999") = hash_of (lit "999999").
Proof.
  assert (H1 : Forall (fun c => ord c <= 57) (lit "999999"))
    by (repeat constructor; vm_compute; discriminate).
  assert (H2 : (length (lit "999999") <= 6)%nat) by (vm_compute; lia).
  split; [exact H1|]. split; [exact H2|].
  exact (short_ids_fit_int32 (lit "999999") H1 H2).
Defined.

Lemma hex_color_injective_witness :
  is_byte 214 /\ is_byte 187 /\ is_byte 65
  /\ hex_color (214, 187, 65) = hex_color (214, 187, 65)
  /\ (214, 187, 65) = (214, 187, 65).
Proof.
  assert (H1 : is_byte 214) by (unfold is_byte; lia).
  assert (H2 : is_byte 187) by (unfold is_byte; lia).
  assert (H3 : is_byte 65) by (unfold is_byte; lia).
  assert (H4 : hex_color (214, 187, 65) = hex_color (214, 187, 65))
    by reflexivity.
  split; [exact H1|]. split; [exact H2|]. split; [exact H3|].
  split; [exact H4|].
  exact (hex_color_injective 214 187 65 214 187 65 H1 H2 H3 H1 H2 H3 H4).
Defined.

(** ** Properties of the tables *)

(** *** The rows of [csv.DictReader] *)

Lemma map_fmap {A B : Type} (f : A -> B) (l : list A) : List.map f l = f <$> l.
Proof. induction l as [|a l IH]; simpl; [reflexivity|]. rewrite IH. reflexivity. Qed.

Lemma lookup_map {A B : Type} (f : A -> B) (l : list A) (i : nat) :
  List.map f l !! i = f <$> (l !! i).
Proof.
  revert i. induction l as [|a l IH]; intros [|i]; simpl; auto.
Qed.

Lemma list_to_set_snoc (fns : list str) (c : str) :
  list_to_set (fns ++ [c]) =@{gset str} list_to_set fns ∪ {[c]}.
Proof.
  rewrite list_to_set_app_L. simpl. rewrite (right_id_L ∅ (∪)). reflexivity.
Qed.

(** Equalities and inclusions of sets built with union, element by
    element. *)
Ltac by_elements := set_unfold; intros; intuition (subst; auto).

Lemma dom_zip_acc (keys : list str) :
  forall (values : list str) (d : gmap str (option str)),
    dom (foldl (fun d kv => <[kv.1 := Some kv.2]> d) d (zip keys values))
    = dom d ∪ list_to_set (take (length values) keys).
Proof.
  induction keys as [|k keys IH]; intros values d.
  - simpl. rewrite take_nil. by_elements.
  - destruct values as [|v values]; simpl; [by_elements|].
    rewrite IH, dom_insert_L. by_elements.
Qed.

Lemma dom_fill_none (keys : list str) :
  forall d : gmap str (option str),
    dom (foldl (fun d key => <[key := None]> d) d keys)
    = dom d ∪ list_to_set keys.
Proof.
  induction keys as [|k keys IH]; intros d; simpl; [by_elements|].
  rewrite IH, dom_insert_L. by_elements.
Qed.

(** The keys of a row are the field names, whatever the length of the
    line. *)
Lemma dom_dict_row (fns row : list str) :
  dom (cells (dict_row fns row)) = list_to_set fns.
Proof.
  unfold dict_row, dict_zip.
  destruct (length fns <? length row)%nat eqn:E1.
  - apply Nat.ltb_lt in E1. cbn [cells]. rewrite dom_zip_acc, dom_empty_L.
    rewrite take_ge by lia. by_elements.
  - apply Nat.ltb_ge in E1.
    destruct (length row <? length fns)%nat eqn:E2; cbn [cells].
    + rewrite dom_fill_none, dom_zip_acc, dom_empty_L.
      rewrite <- (take_drop (length row) fns) at 3.
      rewrite list_to_set_app_L. by_elements.
    + apply Nat.ltb_ge in E2. rewrite dom_zip_acc, dom_empty_L.
      rewrite take_ge by lia. by_elements.
Qed.

Lemma extra_dict_row (fns row : list str) :
  extra (dict_row fns row) = None <-> (length row <= length fns)%nat.
Proof.
  unfold dict_row.
  destruct (length fns <? length row)%nat eqn:E1.
  - apply Nat.ltb_lt in E1. cbn [extra]. split; [discriminate|lia].
  - apply Nat.ltb_ge in E1.
    destruct (length row <? length fns)%nat; cbn [extra]; split; auto.
Qed.

Lemma lookup_zip_acc_map (f : str -> str) (keys : list str) (k : str) :
  forall d : gmap str (option str),
    foldl (fun d kv => <[kv.1 := Some kv.2]> d) d (zip keys (List.map f keys))
      !! k
    = if decide (k ∈ keys) then Some (Some (f k)) else d !! k.
Proof.
  induction keys as [|a keys IH]; intros d.
  - simpl. destruct (decide (k ∈ [])) as [H|H]; [inversion H|reflexivity].
  - simpl. rewrite IH.
    destruct (decide (k ∈ keys)) as [H|H].
    + destruct (decide (k ∈ a :: keys)) as [H'|H']; [reflexivity|].
      exfalso. apply H'. right. exact H.
    + destruct (decide (a = k)) as [->|Hne].
      * rewrite lookup_insert_eq.
        destruct (decide (k ∈ k :: keys)) as [H'|H']; [reflexivity|].
        exfalso. apply H'. left.
      * rewrite lookup_insert_ne by exact Hne.
        destruct (decide (k ∈ a :: keys)) as [H'|H']; [|reflexivity].
        exfalso. inversion H'; subst; [congruence|contradiction].
Qed.

(** A line with one cell for each field name, the cell a function of the
    name, is read as the dict of that function. *)
Lemma dict_row_map (f : str -> str) (fns : list str) :
  extra (dict_row fns (List.map f fns)) = None
  /\ forall k, cells (dict_row fns (List.map f fns)) !! k
               = if decide (k ∈ fns) then Some (Some (f k)) else None.
Proof.
  unfold dict_row, dict_zip. rewrite length_map, Nat.ltb_irrefl.
  cbn [cells extra]. split; [reflexivity|]. intros k.
  rewrite lookup_zip_acc_map, lookup_empty. reflexivity.
Qed.

Lemma written_row_extra (fns : list str) (r : csv_row) :
  extra (written_row fns r) = None.
Proof. apply (dict_row_map _ fns). Qed.

Lemma written_row_lookup (fns : list str) (r : csv_row) (k : str) :
  cells (written_row fns r) !! k
  = if decide (k ∈ fns)
    then Some (Some (default [] (default (Some []) (cells r !! k))))
    else None.
Proof.
  exact (proj2 (dict_row_map
                  (fun key => default [] (default (Some []) (cells r !! key)))
                  fns) k).
Qed.

Lemma dom_written_row (fns : list str) (r : csv_row) :
  dom (cells (written_row fns r)) = list_to_set fns.
Proof. apply dom_dict_row. Qed.

(** A dict of strings over the field names is written and read back as
    itself. *)
Lemma written_row_id (fns : list str) (r : csv_row) :
  dom (cells r) = list_to_set fns ->
  extra r = None ->
  (forall k, cells r !! k <> Some None) ->
  written_row fns r = r.
Proof.
  intros Hd He Hs. destruct r as [c e]. cbn [cells extra] in *. subst e.
  pose proof (written_row_extra fns (Row c None)) as He.
  destruct (written_row fns (Row c None)) as [c' e'] eqn:E.
  cbn [extra] in He. subst e'. f_equal.
  apply map_eq. intros k.
  pose proof (written_row_lookup fns (Row c None) k) as Hk.
  rewrite E in Hk. cbn [cells] in Hk. rewrite Hk.
  destruct (decide (k ∈ fns)) as [H|H].
  - assert (Hin : k ∈ dom c) by (rewrite Hd; apply elem_of_list_to_set, H).
    apply elem_of_dom in Hin as [v Hv]. rewrite Hv.
    destruct v as [s|]; [reflexivity|]. exfalso. exact (Hs k Hv).
  - assert (Hin : k ∉ dom c) by (rewrite Hd, elem_of_list_to_set; exact H).
    apply not_elem_of_dom in Hin. rewrite Hin. reflexivity.
Qed.

(** The table read from a header and written records. *)
Lemma DictReader_written (fns : list str) (rows' : list csv_row) :
  fns <> [] ->
  DictReader (fns :: List.map (written_record fns) rows')
  = Table (Some fns) (List.map (written_row fns) rows').
Proof.
  intros Hne. unfold DictReader. f_equal.
  induction rows' as [|r rows' IH]; [reflexivity|].
  cbn [List.map List.filter].
  destruct (written_record fns r) as [|c cs] eqn:E.
  - exfalso. apply Hne. apply (f_equal (@length _)) in E.
    unfold written_record in E. rewrite length_map in E.
    destruct fns; [reflexivity|discriminate E].
  - rewrite bool_decide_eq_false_2 by discriminate.
    cbn [negb List.map]. rewrite IH. unfold written_row. rewrite E.
    reflexivity.
Qed.

(** The rows of a table have the field names as keys; a key is missing
    from a row only when it is no field name. *)
Lemma DictReader_fieldnames (records : list (list str)) (fns : list str) :
  fieldnames (DictReader records) = Some fns ->
  exists lines, records = fns :: lines
                /\ rows (DictReader records)
                   = List.map (dict_row fns)
                       (List.filter (fun row => negb (bool_decide (row = [])))
                                    lines).
Proof.
  destruct records as [|h lines]; [discriminate|].
  cbn [DictReader fieldnames rows]. intros [= ->]. eauto.
Qed.

Lemma DictReader_empty (records : list (list str)) :
  fieldnames (DictReader records) = None <-> records = [].
Proof.
  destruct records as [|h lines]; cbn; split; auto; discriminate.
Qed.

Lemma DictReader_dom (records : list (list str)) (fns : list str) :
  fieldnames (DictReader records) = Some fns ->
  Forall (fun row => dom (cells row) = list_to_set fns)
         (rows (DictReader records)).
Proof.
  intros H. destruct (DictReader_fieldnames _ _ H) as (lines & _ & ->).
  apply Forall_forall. intros r Hr.
  apply list_elem_of_In, in_map_iff in Hr as (row & <- & _).
  apply dom_dict_row.
Qed.

Lemma table_at_Some (w : world) (path : str) (t : table) :
  table_at w path = Some t <->
  exists records, fs w !! path = Some records /\ t = DictReader records.
Proof.
  unfold table_at. destruct (fs w !! path) as [records|]; cbn.
  - split.
    + intros [= <-]. eauto.
    + intros (r & [= <-] & ->). reflexivity.
  - split; [discriminate|]. intros (r & H & _). discriminate.
Qed.

Lemma table_at_dom (w : world) (path : str) (t : table) (fns : list str) :
  table_at w path = Some t ->
  fieldnames t = Some fns ->
  Forall (fun row => dom (cells row) = list_to_set fns) (rows t).
Proof.
  intros Ht Hn. apply table_at_Some in Ht as (records & _ & ->).
  apply DictReader_dom, Hn.
Qed.

(** *** The loop over the rows *)

Lemma coherent_empty : coherent ∅.
Proof. intros p c H. rewrite lookup_empty in H. discriminate. Qed.

Lemma color_rows_spec (rows : list csv_row) :
  forall (pc pc' : gmap (option str) str) (rows' : list csv_row),
    coherent pc ->
    color_rows pc rows = Ok (pc', rows') ->
    coherent pc' /\ Forall2 colored rows rows'.
Proof.
  induction rows as [|row rest IH]; intros pc pc' rows' Hpc H.
  - simpl in H. injection H as <- <-. split; [exact Hpc|constructor].
  - simpl in H.
    destruct (cells row !! product_field) as [p|] eqn:Ep; [|discriminate].
    destruct (pc !! p) as [c|] eqn:El.
    + cbn [bind] in H. rewrite El in H.
      destruct (color_rows pc rest) as [[pc1 rest1]|e] eqn:Er;
        [|discriminate].
      cbn [bind fst snd] in H. injection H as <- <-.
      destruct (IH pc pc1 rest1 Hpc Er) as [Hc HF].
      split; [exact Hc|]. constructor; [|exact HF].
      exists p, c. auto.
    + destruct (generate_color_for_product (str_of p)) as [c|e] eqn:Eg;
        [|discriminate].
      cbn [bind] in H. rewrite lookup_insert_eq in H.
      assert (Hpc1 : coherent (<[p := c]> pc)).
      { intros q d Hq. destruct (decide (p = q)) as [<-|Hne].
        - rewrite lookup_insert_eq in Hq. injection Hq as <-. exact Eg.
        - rewrite lookup_insert_ne in Hq by exact Hne. apply Hpc, Hq. }
      destruct (color_rows (<[p := c]> pc) rest) as [[pc1 rest1]|e] eqn:Er;
        [|discriminate].
      cbn [bind fst snd] in H. injection H as <- <-.
      destruct (IH _ pc1 rest1 Hpc1 Er) as [Hc HF].
      split; [exact Hc|]. constructor; [|exact HF].
      exists p, c. auto.
Qed.

Lemma color_rows_total (rows : list csv_row) :
  forall pc : gmap (option str) str,
    Forall (fun row => is_Some (cells row !! product_field)) rows ->
    exists out, color_rows pc rows = Ok out.
Proof.
  induction rows as [|row rest IH]; intros pc HF.
  - eexists. reflexivity.
  - inversion HF as [|? ? [p Ep] HF']; subst. simpl. rewrite Ep.
    destruct (pc !! p) as [c|] eqn:El.
    + cbn [bind]. rewrite El.
      destruct (IH pc HF') as [out ->]. eexists. reflexivity.
    + destruct (generate_color_total (str_of p)) as [c ->]. cbn [bind].
      rewrite lookup_insert_eq.
      destruct (IH (<[p := c]> pc) HF') as [out ->]. eexists. reflexivity.
Qed.

Lemma color_rows_missing (rows : list csv_row) :
  forall pc : gmap (option str) str,
    Exists (fun row => cells row !! product_field = None) rows ->
    color_rows pc rows = Raise (KeyError product_field).
Proof.
  induction rows as [|row rest IH]; intros pc HE.
  - inversion HE.
  - simpl. destruct (cells row !! product_field) as [p|] eqn:Ep;
      [|reflexivity].
    assert (HE' : Exists (fun row => cells row !! product_field = None) rest).
    { inversion HE as [? ? H0|]; subst; [congruence|assumption]. }
    destruct (pc !! p) as [c|] eqn:El.
    + cbn [bind]. rewrite El, (IH pc HE'). reflexivity.
    + destruct (generate_color_total (str_of p)) as [c ->]. cbn [bind].
      rewrite lookup_insert_eq, (IH _ HE'). reflexivity.
Qed.

Lemma color_rows_raises (rows : list csv_row) :
  forall (pc : gmap (option str) str) (e : exn),
    color_rows pc rows = Raise e ->
    e = KeyError product_field
    /\ Exists (fun row => cells row !! product_field = None) rows.
Proof.
  induction rows as [|row rest IH]; intros pc e H; [discriminate H|].
  simpl in H. destruct (cells row !! product_field) as [p|] eqn:Ep.
  - assert (Hrest : exists pc1, color_rows pc1 rest = Raise e).
    { destruct (pc !! p) as [c|] eqn:El.
      - cbn [bind] in H. rewrite El in H.
        destruct (color_rows pc rest) as [out|e'] eqn:Er; [discriminate H|].
        cbn [bind] in H. injection H as ->. eauto.
      - destruct (generate_color_total (str_of p)) as [c Eg].
        rewrite Eg in H.
        cbn [bind] in H. rewrite lookup_insert_eq in H.
        destruct (color_rows (<[p := c]> pc) rest) as [out|e'] eqn:Er;
          [discriminate H|].
        cbn [bind] in H. injection H as ->. eauto. }
    destruct Hrest as [pc1 Hr]. destruct (IH pc1 e Hr) as [-> HE].
    split; [reflexivity|]. apply Exists_cons_tl, HE.
  - injection H as <-. split; [reflexivity|]. apply Exists_cons_hd, Ep.
Qed.

Lemma color_rows_dom (rows : list csv_row) :
  forall (pc pc' : gmap (option str) str) (rows' : list csv_row),
    color_rows pc rows = Ok (pc', rows') ->
    dom pc' = dom pc ∪ list_to_set (product_ids rows).
Proof.
  induction rows as [|row rest IH]; intros pc pc' rows' H.
  - simpl in H. injection H as <- <-. cbn. rewrite (right_id_L ∅ (∪)).
    reflexivity.
  - simpl in H. unfold product_ids. cbn [omap list_omap].
    destruct (cells row !! product_field) as [p|] eqn:Ep; [|discriminate H].
    fold (product_ids rest). cbn [list_to_set].
    destruct (pc !! p) as [c|] eqn:El.
    + cbn [bind] in H. rewrite El in H.
      destruct (color_rows pc rest) as [[pc1 rest1]|e] eqn:Er;
        [|discriminate H].
      cbn [bind fst snd] in H. injection H as <- <-.
      rewrite (IH _ _ _ Er).
      assert (Hp : p ∈ dom pc) by (apply elem_of_dom; eauto).
      by_elements.
    + destruct (generate_color_for_product (str_of p)) as [c|e] eqn:Eg;
        [|discriminate H].
      cbn [bind] in H. rewrite lookup_insert_eq in H.
      destruct (color_rows (<[p := c]> pc) rest) as [[pc1 rest1]|e] eqn:Er;
        [|discriminate H].
      cbn [bind fst snd] in H. injection H as <- <-.
      rewrite (IH _ _ _ Er), dom_insert_L. by_elements.
Qed.

Lemma color_rows_length (rows : list csv_row) :
  forall (pc pc' : gmap (option str) str) (rows' : list csv_row),
    color_rows pc rows = Ok (pc', rows') -> length rows' = length rows.
Proof.
  intros pc pc' rows' H.
  assert (HF : exists P : csv_row -> csv_row -> Prop, Forall2 P rows rows').
  { revert pc pc' rows' H.
    induction rows as [|row rest IH]; intros pc pc' rows' H.
    - simpl in H. injection H as <- <-. exists (fun _ _ => True). constructor.
    - simpl in H.
      destruct (cells row !! product_field) as [p|]; [|discriminate H].
      destruct (match pc !! p with
                | Some _ => Ok pc
                | None => let! color :=
                            generate_color_for_product (str_of p) in
                          Ok (<[p := color]> pc)
                end) as [pc0|e]; [|discriminate H].
      cbn [bind] in H. destruct (pc0 !! p) as [c|]; [|discriminate H].
      destruct (color_rows pc0 rest) as [[pc1 rest1]|e] eqn:Er;
        [|discriminate H].
      cbn [bind fst snd] in H. injection H as <- <-.
      destruct (IH _ _ _ Er) as [P HP]. exists (fun _ _ => True).
      constructor; [exact I|].
      clear -HP. induction HP; constructor; auto. }
  destruct HF as [P HF]. symmetry. exact (Forall2_length _ _ _ HF).
Qed.

(** *** Writing *)

(** A dict the writer accepts. *)
Lemma dict_to_list_ok (fns : list str) (r : csv_row) (record : list str) :
  dict_to_list fns r = Ok record ->
  record = written_record fns r
  /\ extra r = None /\ dom (cells r) ⊆ list_to_set (C := gset str) fns.
Proof.
  unfold dict_to_list.
  destruct (decide (extra r = None /\ dom (cells r) ⊆ list_to_set fns))
    as [[He Hd]|Hn]; [|discriminate].
  intros [= <-]. auto.
Qed.

Lemma dict_to_list_raise (fns : list str) (r : csv_row) (e : exn) :
  dict_to_list fns r = Raise e ->
  e = ValueError
  /\ ~ (extra r = None /\ dom (cells r) ⊆ list_to_set (C := gset str) fns).
Proof.
  unfold dict_to_list.
  destruct (decide (extra r = None /\ dom (cells r) ⊆ list_to_set fns))
    as [H|Hn]; [discriminate|].
  intros [= <-]. auto.
Qed.

Lemma writerows_ok (fns : list str) (rows : list csv_row) :
  forall ws, writerows fns rows = (ws, Ok tt) ->
             ws = List.map (written_record fns) rows
             /\ Forall (fun r => extra r = None
                                 /\ dom (cells r)
                                    ⊆ list_to_set (C := gset str) fns) rows.
Proof.
  induction rows as [|r rest IH]; intros ws H; simpl in H.
  - injection H as <-. split; [reflexivity|constructor].
  - destruct (dict_to_list fns r) as [record|e] eqn:Ed; [|discriminate].
    destruct (dict_to_list_ok _ _ _ Ed) as (-> & He & Hd).
    destruct (writerows fns rest) as [ws' res] eqn:E. simpl in H.
    injection H as <- ->. destruct (IH ws' eq_refl) as [-> HF].
    split; [reflexivity|]. constructor; auto.
Qed.

Lemma writerows_all (fns : list str) (rows : list csv_row) :
  Forall (fun r => extra r = None
                   /\ dom (cells r) ⊆ list_to_set (C := gset str) fns) rows ->
  writerows fns rows = (List.map (written_record fns) rows, Ok tt).
Proof.
  induction 1 as [|r rest Hr HF IH]; simpl; [reflexivity|].
  unfold dict_to_list.
  destruct (decide (extra r = None /\ dom (cells r) ⊆ list_to_set fns))
    as [Hd|Hd]; [|contradiction].
  rewrite IH. reflexivity.
Qed.

(** When the writer raises, it is ValueError at the first dict it refuses,
    and the records of the dicts before that one have been written. *)
Lemma writerows_raises (fns : list str) (rows : list csv_row) :
  forall e, (writerows fns rows).2 = Raise e ->
    e = ValueError
    /\ exists before r after,
         rows = before ++ r :: after
         /\ Forall (fun r => extra r = None
                             /\ dom (cells r)
                                ⊆ list_to_set (C := gset str) fns) before
         /\ ~ (extra r = None
               /\ dom (cells r) ⊆ list_to_set (C := gset str) fns)
         /\ (writerows fns rows).1 = List.map (written_record fns) before.
Proof.
  induction rows as [|r rest IH]; intros e H; simpl in H;
    [discriminate H|].
  simpl. destruct (dict_to_list fns r) as [record|e'] eqn:Ed.
  - cbn [snd] in H. destruct (IH e H) as (-> & before & r' & after & -> & HF
                                          & Hr' & Hw).
    destruct (dict_to_list_ok _ _ _ Ed) as (-> & He & Hd).
    split; [reflexivity|]. exists (r :: before), r', after.
    split; [reflexivity|]. split; [constructor; auto|].
    split; [exact Hr'|]. cbn [fst List.map]. rewrite Hw. reflexivity.
  - cbn [snd] in H. injection H as <-.
    destruct (dict_to_list_raise _ _ _ Ed) as [-> Hn].
    split; [reflexivity|]. exists [], r, rest.
    split; [reflexivity|]. split; [constructor|]. split; [exact Hn|].
    reflexivity.
Qed.

(** *** Sorting the items *)

Lemma str_leb_total (a b : str) : str_leb a b = false -> str_leb b a = true.
Proof.
  revert b. induction a as [|x a IH]; intros [|y b] H; try discriminate H;
    [reflexivity|].
  cbn [str_leb] in *.
  apply orb_false_iff in H as [Hlt H].
  apply N.ltb_ge in Hlt.
  destruct (N.eqb_spec x y) as [->|Hne].
  - cbn [andb] in H. rewrite N.eqb_refl, (IH b H). apply orb_true_r.
  - assert (Hyx : (y <? x)%N = true) by (apply N.ltb_lt; lia).
    rewrite Hyx. reflexivity.
Qed.

Lemma key_leb_ok (a b : option str) (le : bool) :
  key_leb a b = Ok le ->
  exists x y, a = Some x /\ b = Some y /\ le = str_leb x y.
Proof.
  destruct a as [x|], b as [y|]; cbn; try discriminate.
  intros [= <-]. eauto.
Qed.

Lemma key_leb_raise (a b : option str) (e : exn) :
  key_leb a b = Raise e -> e = TypeError /\ (a = None \/ b = None).
Proof.
  destruct a as [x|], b as [y|]; cbn; try discriminate;
    intros [= <-]; auto.
Qed.

Lemma insert_sorted_raise (item : option str * str)
    (items : list (option str * str)) (e : exn) :
  insert_sorted item items = Raise e -> e = TypeError.
Proof.
  induction items as [|first rest IH]; cbn [insert_sorted];
    [discriminate|].
  destruct (key_leb item.1 first.1) as [le|e'] eqn:E; cbn [bind].
  - destruct le; [discriminate|].
    destruct (insert_sorted item rest) as [l|e'']; cbn [bind];
      [discriminate|].
    intros [= <-]. apply IH. reflexivity.
  - intros [= <-]. apply (key_leb_raise _ _ _ E).
Qed.

Lemma insert_sorted_perm (item : option str * str)
    (items l : list (option str * str)) :
  insert_sorted item items = Ok l -> l ≡ₚ item :: items.
Proof.
  revert l. induction items as [|first rest IH]; intros l;
    cbn [insert_sorted].
  - intros [= <-]. reflexivity.
  - destruct (key_leb item.1 first.1) as [[|]|e]; cbn [bind];
      [intros [= <-]; reflexivity| |discriminate].
    destruct (insert_sorted item rest) as [l'|e]; cbn [bind];
      [|discriminate].
    intros [= <-]. rewrite (IH l' eq_refl). apply Permutation_swap.
Qed.

(** An item is compared with the first of a list that is not empty: both
    keys are strings when that does not raise. *)
Lemma insert_sorted_compared (item first : option str * str)
    (rest l : list (option str * str)) :
  insert_sorted item (first :: rest) = Ok l ->
  is_Some item.1 /\ is_Some first.1.
Proof.
  cbn [insert_sorted].
  destruct (key_leb item.1 first.1) as [le|e] eqn:E; [|discriminate].
  intros _. destruct (key_leb_ok _ _ _ E) as (x & y & -> & -> & _).
  split; eauto.
Qed.

Lemma insert_sorted_total (item : option str * str)
    (items : list (option str * str)) :
  is_Some item.1 ->
  Forall (fun i => is_Some i.1) items ->
  exists l, insert_sorted item items = Ok l.
Proof.
  intros [x Hx] HF. induction HF as [|first rest [y Hy] HF IH];
    cbn [insert_sorted]; [eauto|].
  rewrite Hx, Hy. cbn [key_leb bind].
  destruct (str_leb x y); [eauto|].
  destruct IH as [l ->]. cbn [bind]. eauto.
Qed.

Lemma insert_sorted_sorted (item : option str * str)
    (items l : list (option str * str)) :
  Sorted keys_in_order items ->
  insert_sorted item items = Ok l ->
  Sorted keys_in_order l.
Proof.
  intros Hs. revert l.
  induction Hs as [|first rest Hs IH Hd]; intros l; cbn [insert_sorted].
  - intros [= <-]. constructor; constructor.
  - destruct (key_leb item.1 first.1) as [le|e] eqn:E; [|discriminate].
    destruct (key_leb_ok _ _ _ E) as (x & y & Hx & Hy & ->).
    cbn [bind]. destruct (str_leb x y) eqn:Exy.
    + intros [= <-]. constructor; [constructor; assumption|].
      constructor. unfold keys_in_order. rewrite E. reflexivity.
    + destruct (insert_sorted item rest) as [l'|e] eqn:Ei; cbn [bind];
        [|discriminate].
      intros [= <-]. constructor; [exact (IH l' eq_refl)|].
      assert (Hfi : keys_in_order first item).
      { unfold keys_in_order. rewrite Hx, Hy. cbn [key_leb].
        rewrite (str_leb_total _ _ Exy). reflexivity. }
      destruct Hd as [|second rest' Hr]; cbn [insert_sorted] in Ei.
      * injection Ei as <-. constructor. exact Hfi.
      * destruct (key_leb item.1 second.1) as [[|]|e]; cbn [bind] in Ei;
          [| |discriminate].
        -- injection Ei as <-. constructor. exact Hfi.
        -- destruct (insert_sorted item rest') as [l''|e]; cbn [bind] in Ei;
             [|discriminate].
           injection Ei as <-. constructor. exact Hr.
Qed.

Lemma sort_items_ok (items sorted : list (option str * str)) :
  sort_items items = Ok sorted ->
  sorted ≡ₚ items
  /\ Sorted keys_in_order sorted
  /\ ((2 <= length items)%nat -> Forall (fun i => is_Some i.1) items).
Proof.
  revert sorted. induction items as [|item items IH]; intros sorted;
    cbn [sort_items foldr].
  - intros [= <-]. split; [reflexivity|]. split; [constructor|].
    cbn. lia.
  - fold (sort_items items).
    destruct (sort_items items) as [sorted'|e] eqn:E; cbn [bind];
      [|discriminate].
    intros Hi. destruct (IH sorted' eq_refl) as (Hp & Hs & Hk).
    split; [rewrite (insert_sorted_perm _ _ _ Hi), Hp; reflexivity|].
    split; [exact (insert_sorted_sorted _ _ _ Hs Hi)|].
    intros Hlen. destruct sorted' as [|first rest].
    + apply Permutation_nil_l in Hp. subst items. cbn in Hlen. lia.
    + destruct (insert_sorted_compared _ _ _ _ Hi) as [Hitem Hfirst].
      constructor; [exact Hitem|].
      destruct items as [|i1 [|i2 items']].
      * constructor.
      * apply Permutation_length in Hp as Hl. cbn in Hl.
        destruct rest; [|discriminate Hl].
        apply Permutation_singleton_l in Hp. injection Hp as <-.
        constructor; [exact Hfirst|constructor].
      * apply Hk. cbn. lia.
Qed.

Lemma sort_items_raise (items : list (option str * str)) (e : exn) :
  sort_items items = Raise e -> e = TypeError.
Proof.
  induction items as [|item items IH]; cbn [sort_items foldr];
    [discriminate|].
  fold (sort_items items).
  destruct (sort_items items) as [sorted'|e'] eqn:E; cbn [bind].
  - apply insert_sorted_raise.
  - intros [= <-]. apply IH. reflexivity.
Qed.

Lemma sort_items_total (items : list (option str * str)) :
  Forall (fun i => is_Some i.1) items ->
  exists sorted, sort_items items = Ok sorted.
Proof.
  induction 1 as [|item items Hi HF IH]; cbn [sort_items foldr]; [eauto|].
  fold (sort_items items). destruct IH as [sorted' E]. rewrite E.
  cbn [bind]. apply insert_sorted_total; [exact Hi|].
  destruct (sort_items_ok _ _ E) as (Hp & _ & _).
  rewrite Hp. exact HF.
Qed.

(** [sorted] of the items of the dict does not raise when all keys are
    strings. *)
Lemma sorted_items_total (pc : gmap (option str) str) :
  pc !! None = None -> exists items, sorted_items pc = Ok items.
Proof.
  intros Hn. apply sort_items_total. apply Forall_forall.
  intros [k c] Hin. apply elem_of_map_to_list in Hin. cbn.
  destruct k as [x|]; [eauto|]. congruence.
Qed.

(** When [sorted] does not raise and None is a key, it is the only key. *)
Lemma sorted_items_none (pc : gmap (option str) str)
    (items : list (option str * str)) :
  sorted_items pc = Ok items ->
  is_Some (pc !! None) ->
  forall k, is_Some (pc !! k) -> k = None.
Proof.
  intros Hs [c Hc] k [c' Hk].
  destruct (sort_items_ok _ _ Hs) as (_ & _ & Hall).
  destruct (decide (2 <= length (map_to_list pc))%nat) as [Hl|Hl].
  - exfalso. pose proof (proj1 (Forall_forall _ _) (Hall Hl) (None, c)) as H.
    destruct H as [x Hx]; [apply elem_of_map_to_list, Hc|discriminate Hx].
  - apply elem_of_map_to_list in Hc, Hk.
    destruct (map_to_list pc) as [|i1 [|i2 l]]; [inversion Hc| |cbn in Hl; lia].
    apply list_elem_of_singleton in Hc, Hk. congruence.
Qed.

(** When [sorted] raises, it is TypeError: None is a key and there is
    another key. *)
Lemma sorted_items_raise (pc : gmap (option str) str) (e : exn) :
  sorted_items pc = Raise e ->
  e = TypeError
  /\ is_Some (pc !! None)
  /\ exists p, is_Some (pc !! Some p).
Proof.
  intros H. split; [exact (sort_items_raise _ _ H)|].
  destruct (pc !! None) as [c|] eqn:Hn.
  - split; [eauto|].
    destruct (map_to_list pc) as [|[k1 c1] [|[k2 c2] l]] eqn:El.
    + apply map_to_list_empty_iff in El. subst pc.
      rewrite lookup_empty in Hn. discriminate.
    + unfold sorted_items in H. rewrite El in H. discriminate H.
    + assert (H1 : (k1, c1) ∈ map_to_list pc) by (rewrite El; left).
      assert (H2 : (k2, c2) ∈ map_to_list pc)
        by (rewrite El; right; left).
      apply elem_of_map_to_list in H1, H2.
      pose proof (NoDup_fst_map_to_list pc) as Hnd. rewrite El in Hnd.
      cbn in Hnd. apply NoDup_cons in Hnd as [Hnotin _].
      destruct k1 as [p1|]; [eauto|].
      destruct k2 as [p2|]; [eauto|].
      exfalso. apply Hnotin. left.
  - destruct (sorted_items_total pc Hn) as [items Hi]. congruence.
Qed.

Lemma sorted_items_perm (pc : gmap (option str) str)
    (items : list (option str * str)) :
  sorted_items pc = Ok items -> items ≡ₚ map_to_list pc.
Proof. intros H. apply (sort_items_ok _ _ H). Qed.

Lemma sorted_items_sorted (pc : gmap (option str) str)
    (items : list (option str * str)) :
  sorted_items pc = Ok items -> Sorted keys_in_order items.
Proof. intros H. apply (sort_items_ok _ _ H). Qed.

(** *** Opening files *)

Lemma reach_raise (w : world) (path : str) (through : list str) (e : exn) :
  reach w path through = Raise e -> open_error path e.
Proof.
  induction through as [|folder rest IH]; cbn [reach]; [discriminate|].
  destruct (decide (folder = [] \/ is_Some (folders w !! folder)));
    [exact IH|].
  destruct (decide (is_Some (fs w !! folder))); intros [= <-];
    unfold open_error; auto.
Qed.

Lemma open_w_existing (w : world) (path : str) :
  is_Some (fs w !! path) -> open_w w path = Ok (folders w).
Proof. intros [records H]. unfold open_w. rewrite H. reflexivity. Qed.

Lemma open_w_raise (w : world) (path : str) (e : exn) :
  open_w w path = Raise e -> fs w !! path = None /\ open_error path e.
Proof.
  unfold open_w. destruct (fs w !! path) as [records|]; [discriminate|].
  intros H. split; [reflexivity|].
  destruct (decide (path = [])).
  { injection H as <-. left. reflexivity. }
  destruct (decide (last_component path = [])).
  { destruct (reach w path (removelast (ancestors path))) as [[]|e'] eqn:E;
      cbn [bind] in H; injection H as <-.
    - right. left. reflexivity.
    - exact (reach_raise _ _ _ _ E). }
  destruct (reach w path (ancestors path)) as [[]|e'] eqn:E;
    cbn [bind] in H.
  - destruct (decide (is_Some (folders w !! path))); [|discriminate H].
    injection H as <-. right. left. reflexivity.
  - injection H as <-. exact (reach_raise _ _ _ _ E).
Qed.

(** What [open(path, 'w')] does to the folders: nothing when the file
    exists; a new file is entered in the listing of its folder. *)
Lemma open_w_ok (w : world) (path : str) (folders' : gmap str (list str)) :
  open_w w path = Ok folders' ->
  (is_Some (fs w !! path) /\ folders' = folders w)
  \/ (fs w !! path = None
      /\ folders' = match last (ancestors path) with
                    | Some folder =>
                        alter (enlist (last_component path)) folder
                              (folders w)
                    | None => folders w
                    end).
Proof.
  unfold open_w. destruct (fs w !! path) as [records|].
  - intros [= <-]. left. eauto.
  - intros H. right. split; [reflexivity|].
    destruct (decide (path = [])); [discriminate H|].
    destruct (decide (last_component path = [])).
    { destruct (reach w path (removelast (ancestors path))) as [[]|e'];
        discriminate H. }
    destruct (reach w path (ancestors path)) as [[]|e']; cbn [bind] in H;
      [|discriminate H].
    destruct (decide (is_Some (folders w !! path))); [discriminate H|].
    injection H as <-. reflexivity.
Qed.

Lemma read_csv_file (w : world) (path : str) (t : table) :
  table_at w path = Some t -> read_csv path w = (w, Ok t).
Proof.
  intros H. apply table_at_Some in H as (records & Hf & ->).
  unfold read_csv, io_bind, open_r. rewrite Hf. reflexivity.
Qed.

Lemma read_csv_raise (w : world) (path : str) :
  table_at w path = None ->
  exists e, read_csv path w = (w, Raise e) /\ open_error path e.
Proof.
  unfold table_at. intros H.
  destruct (fs w !! path) as [records|] eqn:Hf; [discriminate H|].
  unfold read_csv, io_bind, open_r. rewrite Hf.
  destruct (reach w path (ancestors path)) as [[]|e'] eqn:E; cbn [bind].
  - destruct (decide (path <> []
                      /\ (last_component path = []
                          \/ is_Some (folders w !! path))));
      eexists; (split; [reflexivity|]); unfold open_error; auto.
  - eexists. split; [reflexivity|]. exact (reach_raise _ _ _ _ E).
Qed.

(** *** One table *)

Lemma print_colors_run (items : list (option str * str)) :
  forall w, print_colors items w
            = (World (fs w) (folders w)
                     (stdout w ++ List.map color_line items), Ok tt).
Proof.
  induction items as [|[pid color] rest IH]; intros w.
  - simpl. unfold io_ret. rewrite app_nil_r. destruct w; reflexivity.
  - simpl. unfold io_bind, print. rewrite IH. unfold emit. simpl.
    rewrite <- app_assoc. reflexivity.
Qed.

(** The run of [add_colors_to_csv] on a table without a Color field: the
    loop, the opening of the output file, the writing, the report. *)
Lemma add_colors_to_csv_run (input_file : str) (output_file : option str)
    (w : world) (t : table) (fns : list str) :
  table_at w input_file = Some t ->
  fieldnames t = Some fns ->
  color_field ∉ fns ->
  add_colors_to_csv input_file output_file w =
  match color_rows ∅ (rows t) with
  | Raise e => (w, Raise e)
  | Ok (product_colors, rows') =>
      match open_w w (default input_file output_file) with
      | Raise e => (w, Raise e)
      | Ok folders' =>
          let out := writerows (fns ++ [color_field]) rows' in
          let files := <[default input_file output_file :=
                           (fns ++ [color_field]) :: out.1]> (fs w) in
          match out.2 with
          | Raise e => (World files folders' (stdout w), Raise e)
          | Ok _ =>
              let report :=
                stdout w ++ summary (default input_file output_file)
                                    rows' product_colors in
              match sorted_items product_colors with
              | Raise e => (World files folders' report, Raise e)
              | Ok items =>
                  (World files folders'
                         (report ++ List.map color_line items), Ok tt)
              end
          end
      end
  end.
Proof.
  intros Hf Hn Hc. unfold add_colors_to_csv, io_bind at 1.
  rewrite (read_csv_file _ _ _ Hf), Hn.
  destruct (decide (color_field ∈ fns)) as [H|_]; [contradiction|].
  unfold io_bind at 1, io_lift.
  destruct (color_rows ∅ (rows t)) as [[pc rows']|e]; [|reflexivity].
  cbn [fst snd]. unfold io_bind at 1, write_csv, io_bind at 1, store.
  destruct (open_w w (default input_file output_file)) as [folders'|e];
    [|reflexivity].
  unfold io_lift. cbv zeta.
  destruct (writerows (fns ++ [color_field]) rows') as [ws [[]|e]];
    cbn [fst snd]; [|reflexivity].
  unfold io_bind, print, emit. cbn [fs folders stdout].
  destruct (sorted_items pc) as [items|e].
  - rewrite print_colors_run. cbn [fs folders stdout].
    unfold summary. rewrite <- !app_assoc. reflexivity.
  - unfold summary. rewrite <- !app_assoc. reflexivity.
Qed.

Lemma fields_differ : color_field <> product_field.
Proof. intros H. vm_compute in H. discriminate H. Qed.

Lemma color_field_last (fns : list str) : color_field ∈ fns ++ [color_field].
Proof. apply elem_of_app. right. apply list_elem_of_singleton. reflexivity. Qed.

Lemma fields_not_nil (fns : list str) : fns ++ [color_field] <> [].
Proof. destruct fns; discriminate. Qed.

(** What the writer and a reader make of a coloured row. *)
Lemma colored_written (fns : list str) (r0 r0' : csv_row) :
  colored r0 r0' ->
  dom (cells r0') ⊆ list_to_set (C := gset str) (fns ++ [color_field]) ->
  exists p c,
    cells r0 !! product_field = Some p
    /\ generate_color_for_product (str_of p) = Ok c
    /\ r0' = Row (<[color_field := Some c]> (cells r0)) (extra r0)
    /\ cells (written_row (fns ++ [color_field]) r0') !! product_field
       = Some (Some (default [] p))
    /\ cells (written_row (fns ++ [color_field]) r0') !! color_field
       = Some (Some c).
Proof.
  intros (p & c & Hp & Hg & ->) Hd. exists p, c.
  split; [exact Hp|]. split; [exact Hg|]. split; [reflexivity|].
  rewrite !written_row_lookup. cbn [cells] in *.
  assert (Hpf : product_field ∈ fns ++ [color_field]).
  { apply (elem_of_list_to_set (C := gset str)), Hd, elem_of_dom.
    rewrite lookup_insert_ne by exact fields_differ. eauto. }
  pose proof (color_field_last fns) as Hcf.
  destruct (decide (product_field ∈ fns ++ [color_field])); [|contradiction].
  destruct (decide (color_field ∈ fns ++ [color_field])); [|contradiction].
  rewrite lookup_insert_ne by exact fields_differ.
  rewrite lookup_insert_eq, Hp. split; reflexivity.
Qed.

(** The keys the loop has seen are the keys of the dict. *)
Lemma color_rows_keys (rows rows' : list csv_row)
    (pc : gmap (option str) str) (r : csv_row) (p : option str) :
  color_rows ∅ rows = Ok (pc, rows') ->
  r ∈ rows -> cells r !! product_field = Some p -> is_Some (pc !! p).
Proof.
  intros Er Hr Hp. apply elem_of_dom.
  rewrite (color_rows_dom _ _ _ _ Er), dom_empty_L, (left_id_L ∅ (∪)).
  apply elem_of_list_to_set. unfold product_ids.
  apply list_elem_of_omap. exists r. auto.
Qed.

(** The rows of a table of the reader keep their keys in the loop. *)
Lemma colored_accepted (fns : list str) (rows rows' : list csv_row) :
  Forall (fun row => dom (cells row) = list_to_set fns) rows ->
  Forall2 colored rows rows' ->
  Forall (fun row => extra row = None) rows ->
  Forall (fun r => extra r = None
                   /\ dom (cells r)
                      ⊆ list_to_set (C := gset str) (fns ++ [color_field]))
         rows'.
Proof.
  intros Hdom HF2. revert Hdom.
  induction HF2 as [|r r' rest rest' Hcol _ IH]; intros Hdom He;
    [constructor|].
  inversion Hdom as [|? ? Hd Hdom']; subst.
  inversion He as [|? ? He1 He']; subst.
  constructor; [|exact (IH Hdom' He')].
  destruct Hcol as (p & c & _ & _ & ->). cbn [cells extra].
  split; [exact He1|].
  rewrite dom_insert_L, list_to_set_snoc, Hd. by_elements.
Qed.

(** On a table that has the Color field already the function prints one line
    and returns. *)
Lemma add_colors_to_csv_skip (input_file : str) (output_file : option str)
    (w : world) (t : table) (fns : list str) :
  table_at w input_file = Some t ->
  fieldnames t = Some fns ->
  color_field ∈ fns ->
  add_colors_to_csv input_file output_file w
  = (emit (lit "Color column already exists in " ++ input_file) w, Ok tt).
Proof.
  intros Hf Hn Hc. unfold add_colors_to_csv, io_bind.
  rewrite (read_csv_file _ _ _ Hf), Hn.
  destruct (decide (color_field ∈ fns)) as [_|H];
    [reflexivity|contradiction].
Qed.

(** C6. On a table whose field names contain Color, [add_colors_to_csv]
    prints that the column exists and returns: no file is written, the
    world differs by that one line of output only. *)
Theorem already_augmented (input_file : str) (output_file : option str)
    (w : world) (t : table) (fns : list str) :
  table_at w input_file = Some t ->
  fieldnames t = Some fns ->
  color_field ∈ fns ->
  add_colors_to_csv input_file output_file w
  = (emit (lit "Color column already exists in " ++ input_file) w, Ok tt)
  /\ fs (add_colors_to_csv input_file output_file w).1 = fs w
  /\ folders (add_colors_to_csv input_file output_file w).1 = folders w.
Proof.
  intros Hf Hn Hc.
  rewrite (add_colors_to_csv_skip _ output_file _ _ _ Hf Hn Hc).
  split; [reflexivity|]. split; reflexivity.
Qed.

(** *** A successful run

    The table [t] of [input_file] has the field names [fns], Color is not
    among them, and [add_colors_to_csv] returns normally, leaving the world
    [w']. *)

Section Augmented.

Variables (input_file : str) (output_file : option str).
Variables (w w' : world) (t : table) (fns : list str).

Hypothesis Hfile : table_at w input_file = Some t.
Hypothesis Hnames : fieldnames t = Some fns.
Hypothesis Hfresh : color_field ∉ fns.
Hypothesis Hrun : add_colors_to_csv input_file output_file w = (w', Ok tt).

(** The run, taken apart: the loop gave [rows'], the output file could be
    opened, every dict passed the writer, the items could be sorted, and the
    world holds the written records. *)
Lemma add_colors_to_csv_ok :
  exists product_colors rows' folders' items,
    color_rows ∅ (rows t) = Ok (product_colors, rows')
    /\ Forall2 colored (rows t) rows'
    /\ Forall (fun r => extra r = None
                        /\ dom (cells r)
                           ⊆ list_to_set (C := gset str)
                               (fns ++ [color_field])) rows'
    /\ open_w w (default input_file output_file) = Ok folders'
    /\ sorted_items product_colors = Ok items
    /\ w' = World (<[default input_file output_file :=
                       (fns ++ [color_field])
                       :: List.map (written_record (fns ++ [color_field]))
                                   rows']> (fs w))
                  folders'
                  (stdout w
                   ++ summary (default input_file output_file)
                              rows' product_colors
                   ++ List.map color_line items).
Proof.
  pose proof Hrun as H.
  rewrite (add_colors_to_csv_run _ _ _ t fns Hfile Hnames Hfresh) in H.
  destruct (color_rows ∅ (rows t)) as [[pc rows']|e] eqn:Er;
    [|discriminate (f_equal snd H)].
  destruct (open_w w (default input_file output_file)) as [folders'|e]
    eqn:Eo; [|discriminate (f_equal snd H)].
  cbv zeta in H.
  destruct (writerows (fns ++ [color_field]) rows') as [ws res] eqn:Ew.
  cbn [fst snd] in H. destruct res as [[]|e]; [|discriminate (f_equal snd H)].
  destruct (sorted_items pc) as [items|e] eqn:Es;
    [|discriminate (f_equal snd H)].
  destruct (writerows_ok _ _ _ Ew) as [-> HF].
  exists pc, rows', folders', items. split; [reflexivity|].
  split; [exact (proj2 (color_rows_spec _ _ _ _ coherent_empty Er))|].
  split; [exact HF|]. split; [reflexivity|]. split; [exact Es|].
  injection H as <-. rewrite <- app_assoc. reflexivity.
Qed.

(** The table a reader finds in the output file. *)
Lemma add_colors_to_csv_table :
  exists product_colors rows',
    color_rows ∅ (rows t) = Ok (product_colors, rows')
    /\ table_at w' (default input_file output_file)
       = Some (Table (Some (fns ++ [color_field]))
                     (List.map (written_row (fns ++ [color_field])) rows')).
Proof.
  destruct add_colors_to_csv_ok
    as (pc & rows' & fd & items & Er & _ & _ & _ & _ & ->).
  exists pc, rows'. split; [exact Er|].
  unfold table_at. cbn [fs]. rewrite lookup_insert_eq. cbn [fmap option_fmap option_map].
  rewrite (DictReader_written _ _ (fields_not_nil fns)). reflexivity.
Qed.

(** C7. When a table is augmented, the row written for a row carries the
    colour of the value the row has under ProductId (of the text None when
    the line was too short to have the cell), so two rows with equal
    ProductId values have identical Color values, in the table read as well
    as in the table written. *)
Theorem same_product_same_color (t' : table) :
  table_at w' (default input_file output_file) = Some t' ->
  (forall (i : nat) (r : csv_row),
     rows t !! i = Some r ->
     exists p c r',
       cells r !! product_field = Some p
       /\ generate_color_for_product (str_of p) = Ok c
       /\ rows t' !! i = Some r'
       /\ cells r' !! product_field = Some (Some (default [] p))
       /\ cells r' !! color_field = Some (Some c))
  /\ (forall r', r' ∈ rows t' ->
        exists p c,
          cells r' !! product_field = Some (Some p)
          /\ cells r' !! color_field = Some (Some c)
          /\ (generate_color_for_product p = Ok c
              \/ (p = [] /\ generate_color_for_product (lit "None") = Ok c)))
  /\ (forall r1 r2, r1 ∈ rows t' -> r2 ∈ rows t' ->
        cells r1 !! product_field = cells r2 !! product_field ->
        cells r1 !! color_field = cells r2 !! color_field).
Proof.
  intros Ht'.
  destruct add_colors_to_csv_ok
    as (pc & rows' & fd & items & Er & HF2 & HF & _ & Hs & _).
  destruct add_colors_to_csv_table as (pc0 & rows0 & Er0 & Ht).
  rewrite Er in Er0. injection Er0 as <- <-.
  rewrite Ht in Ht'. injection Ht' as <-. cbn [rows].
  assert (Hrow : forall i r0',
             rows' !! i = Some r0' ->
             exists r0 p c,
               rows t !! i = Some r0
               /\ cells r0 !! product_field = Some p
               /\ generate_color_for_product (str_of p) = Ok c
               /\ cells (written_row (fns ++ [color_field]) r0')
                    !! product_field = Some (Some (default [] p))
               /\ cells (written_row (fns ++ [color_field]) r0')
                    !! color_field = Some (Some c)).
  { intros i r0' Hi.
    destruct (Forall2_lookup_r _ _ _ _ _ HF2 Hi) as (r0 & Hi0 & Hcol).
    assert (Hd : dom (cells r0')
                 ⊆ list_to_set (C := gset str) (fns ++ [color_field])).
    { apply (proj1 (Forall_forall _ _) HF r0').
      apply list_elem_of_lookup. eauto. }
    destruct (colored_written fns r0 r0' Hcol Hd)
      as (p & c & Hp & Hg & _ & Hp' & Hc').
    exists r0, p, c. auto. }
  split; [|split].
  - intros i r Hi.
    destruct (Forall2_lookup_l _ _ _ _ _ HF2 Hi) as (r0' & Hi' & _).
    destruct (Hrow i r0' Hi') as (r0 & p & c & Hi0 & Hp & Hg & Hp' & Hc').
    rewrite Hi in Hi0. injection Hi0 as <-.
    exists p, c, (written_row (fns ++ [color_field]) r0').
    split; [exact Hp|]. split; [exact Hg|].
    split; [rewrite lookup_map, Hi'; reflexivity|]. auto.
  - intros r' Hr'.
    apply list_elem_of_In, in_map_iff in Hr' as (r0' & <- & Hin).
    apply list_elem_of_In, list_elem_of_lookup in Hin as [i Hi].
    destruct (Hrow i r0' Hi) as (r0 & p & c & _ & _ & Hg & Hp' & Hc').
    exists (default [] p), c. split; [exact Hp'|]. split; [exact Hc'|].
    destruct p as [p|]; [left; exact Hg|right; split; [reflexivity|exact Hg]].
  - intros r1 r2 H1 H2 E.
    apply list_elem_of_In, in_map_iff in H1 as (r1' & <- & Hin1).
    apply list_elem_of_In, in_map_iff in H2 as (r2' & <- & Hin2).
    apply list_elem_of_In, list_elem_of_lookup in Hin1 as [i1 Hi1].
    apply list_elem_of_In, list_elem_of_lookup in Hin2 as [i2 Hi2].
    destruct (Hrow i1 r1' Hi1)
      as (r01 & p1 & c1 & Hr1 & Hp1 & Hg1 & Hp1' & Hc1').
    destruct (Hrow i2 r2' Hi2)
      as (r02 & p2 & c2 & Hr2 & Hp2 & Hg2 & Hp2' & Hc2').
    rewrite Hp1', Hp2' in E. rewrite Hc1', Hc2'.
    assert (Hk1 : is_Some (pc !! p1)).
    { apply (color_rows_keys _ _ _ r01 _ Er); [|exact Hp1].
      apply list_elem_of_lookup. eauto. }
    assert (Hk2 : is_Some (pc !! p2)).
    { apply (color_rows_keys _ _ _ r02 _ Er); [|exact Hp2].
      apply list_elem_of_lookup. eauto. }
    assert (Hp : p1 = p2).
    { destruct p1 as [x1|], p2 as [x2|]; cbn in E.
      - congruence.
      - exfalso.
        discriminate (sorted_items_none _ _ Hs Hk2 (Some x1) Hk1).
      - exfalso.
        discriminate (sorted_items_none _ _ Hs Hk1 (Some x2) Hk2).
      - reflexivity. }
    subst p2. congruence.
Qed.

(** C8. When a table is augmented, the written table has the original field
    names in their order followed by Color, as many rows in the same order,
    and in every row each original field keeps its value (a cell the line
    was too short to have is written empty); the keys of a written row are
    the original fields and Color, and a row of strings is written as
    itself with Color added.  No other file changes. *)
Theorem schema_preserved :
  exists t',
    table_at w' (default input_file output_file) = Some t'
    /\ fieldnames t' = Some (fns ++ [color_field])
    /\ length (rows t') = length (rows t)
    /\ (forall (i : nat) (r : csv_row),
          rows t !! i = Some r ->
          exists r' c,
            rows t' !! i = Some r'
            /\ cells r' !! color_field = Some (Some c)
            /\ (forall k v, k ∈ fns -> cells r !! k = Some (Some v) ->
                            cells r' !! k = Some (Some v))
            /\ (forall k, k ∈ fns -> cells r !! k = Some None ->
                          cells r' !! k = Some (Some []))
            /\ dom (cells r') = list_to_set fns ∪ {[color_field]}
            /\ extra r' = None
            /\ ((forall k, cells r !! k <> Some None) ->
                r' = Row (<[color_field := Some c]> (cells r)) None))
    /\ (forall path, path <> default input_file output_file ->
                     fs w' !! path = fs w !! path).
Proof.
  destruct add_colors_to_csv_ok
    as (pc & rows' & fd & items & Er & HF2 & HF & _ & _ & Hw).
  destruct add_colors_to_csv_table as (pc0 & rows0 & Er0 & Ht).
  rewrite Er in Er0. injection Er0 as <- <-.
  eexists. split; [exact Ht|].
  cbn [fieldnames rows]. split; [reflexivity|].
  split.
  { rewrite length_map. symmetry. exact (Forall2_length _ _ _ HF2). }
  split.
  - intros i r Hi.
    destruct (Forall2_lookup_l _ _ _ _ _ HF2 Hi) as (r0' & Hi' & Hcol).
    assert (Hacc : extra r0' = None
                   /\ dom (cells r0')
                      ⊆ list_to_set (C := gset str) (fns ++ [color_field])).
    { apply (proj1 (Forall_forall _ _) HF).
      apply list_elem_of_lookup. exists i. exact Hi'. }
    destruct Hacc as [He Hd].
    destruct (colored_written fns r r0' Hcol Hd)
      as (p & c & Hp & Hg & -> & Hp' & Hc').
    cbn [extra] in He.
    exists (written_row (fns ++ [color_field])
                        (Row (<[color_field := Some c]> (cells r)) (extra r))),
           c.
    split.
    { rewrite lookup_map, Hi'. reflexivity. }
    split; [exact Hc'|].
    assert (Hkeep : forall k v, k ∈ fns -> cells r !! k = Some v ->
              cells (written_row (fns ++ [color_field])
                       (Row (<[color_field := Some c]> (cells r)) (extra r)))
                !! k = Some (Some (default [] v))).
    { intros k v Hk Hv. rewrite written_row_lookup. cbn [cells].
      destruct (decide (k ∈ fns ++ [color_field])) as [_|Hn'].
      - rewrite lookup_insert_ne, Hv; [reflexivity|].
        intros <-. contradiction.
      - exfalso. apply Hn', elem_of_app. left. exact Hk. }
    split; [intros k v Hk Hv; exact (Hkeep k (Some v) Hk Hv)|].
    split; [intros k Hk Hv; exact (Hkeep k None Hk Hv)|].
    split; [rewrite dom_written_row; apply list_to_set_snoc|].
    split; [apply written_row_extra|].
    intros Hstr. rewrite He. apply written_row_id; cbn [cells extra].
    + pose proof (table_at_dom _ _ _ _ Hfile Hnames) as Hdom.
      rewrite dom_insert_L, list_to_set_snoc.
      rewrite (proj1 (Forall_forall _ _) Hdom r).
      * apply (comm_L (∪)).
      * apply list_elem_of_lookup. eauto.
    + reflexivity.
    + intros k Hk. destruct (decide (color_field = k)) as [<-|Hne].
      * rewrite lookup_insert_eq in Hk. discriminate Hk.
      * rewrite lookup_insert_ne in Hk by exact Hne. exact (Hstr k Hk).
  - intros path Hp. rewrite Hw. cbn [fs]. apply lookup_insert_ne. congruence.
Qed.

(** Running the program a second time on its own output changes no file. *)
Lemma augment_twice :
  output_file = None ->
  exists w'', add_colors_to_csv input_file None w' = (w'', Ok tt)
              /\ fs w'' = fs w'.
Proof.
  intros Hout.
  destruct add_colors_to_csv_table as (pc & rows' & _ & Ht).
  rewrite Hout in Ht. cbn [default from_option id] in Ht.
  eexists. split.
  - eapply add_colors_to_csv_skip.
    + exact Ht.
    + reflexivity.
    + apply color_field_last.
  - reflexivity.
Qed.

End Augmented.

(** *** The batch *)

Lemma process_cons (name : str) (rest : list str) (w : world) :
  process (name :: rest) w
  = match add_colors_to_csv (path_join results_dir name) None
                            (emit (lit "Processing: " ++ name) w) with
    | (w1, Ok _) => process rest (emit [] w1)
    | (w1, Raise e) => (w1, Raise e)
    end.
Proof. reflexivity. Qed.

Lemma process_app (before after : list str) :
  forall w, process (before ++ after) w
            = match process before w with
              | (w1, Ok _) => process after w1
              | (w1, Raise e) => (w1, Raise e)
              end.
Proof.
  induction before as [|name before IH]; intros w; [reflexivity|].
  rewrite <- app_comm_cons, !process_cons.
  destruct (add_colors_to_csv _ _ _) as [w1 [[]|e]]; [apply IH|reflexivity].
Qed.

Lemma table_at_emit (text : str) (w : world) (path : str) :
  table_at (emit text w) path = table_at w path.
Proof. reflexivity. Qed.

Lemma writable_existing (w : world) (path : str) :
  is_Some (fs w !! path) -> writable w path.
Proof. intros H. exists (folders w). apply open_w_existing, H. Qed.

Lemma table_at_is_Some (w : world) (path : str) (t : table) :
  table_at w path = Some t -> is_Some (fs w !! path).
Proof. intros H. apply table_at_Some in H as (records & -> & _). eauto. Qed.

(** *** A row without ProductId *)

(** A row lacks the key ProductId when the header has no such field, and
    only then. *)
Lemma missing_key_iff (w : world) (path : str) (t : table) (fns : list str) :
  table_at w path = Some t ->
  fieldnames t = Some fns ->
  Exists (fun row => cells row !! product_field = None) (rows t)
  <-> (product_field ∉ fns) /\ rows t <> [].
Proof.
  intros Ht Hn. pose proof (table_at_dom _ _ _ _ Ht Hn) as Hdom.
  split.
  - intros HE. apply Exists_exists in HE as (r & Hr & Hk).
    split.
    + intros Hin. apply not_elem_of_dom in Hk.
      rewrite (proj1 (Forall_forall _ _) Hdom r Hr) in Hk.
      apply Hk, elem_of_list_to_set, Hin.
    + intros E. rewrite E in Hr. inversion Hr.
  - intros [Hnot Hne]. destruct (rows t) as [|r rest]; [contradiction|].
    apply Exists_cons_hd. apply not_elem_of_dom.
    inversion Hdom as [|? ? Hd _]; subst. rewrite Hd.
    rewrite elem_of_list_to_set. exact Hnot.
Qed.

Lemma add_colors_to_csv_missing (input_file : str) (output_file : option str)
    (w : world) (t : table) (fns : list str) :
  table_at w input_file = Some t ->
  fieldnames t = Some fns ->
  color_field ∉ fns ->
  Exists (fun row => cells row !! product_field = None) (rows t) ->
  add_colors_to_csv input_file output_file w
  = (w, Raise (KeyError product_field)).
Proof.
  intros Hf Hn Hc HE.
  rewrite (add_colors_to_csv_run _ _ _ t fns Hf Hn Hc).
  rewrite (color_rows_missing _ _ HE). reflexivity.
Qed.

(** *** A line without its ProductId cell *)

(** When a row has a value under ProductId, every row has the key. *)
Lemma all_rows_have_key (w : world) (path : str) (t : table)
    (fns : list str) (p : option str) :
  table_at w path = Some t ->
  fieldnames t = Some fns ->
  Exists (fun row => cells row !! product_field = Some p) (rows t) ->
  Forall (fun row => is_Some (cells row !! product_field)) (rows t).
Proof.
  intros Ht Hn HE. pose proof (table_at_dom _ _ _ _ Ht Hn) as Hdom.
  apply Exists_exists in HE as (r & Hr & Hk).
  assert (Hin : product_field ∈ list_to_set (C := gset str) fns).
  { rewrite <- (proj1 (Forall_forall _ _) Hdom r Hr).
    apply elem_of_dom. eauto. }
  apply Forall_forall. intros r' Hr'. apply elem_of_dom.
  rewrite (proj1 (Forall_forall _ _) Hdom r' Hr'). exact Hin.
Qed.

Lemma product_ids_elem (rows : list csv_row) (p : option str) :
  p ∈ product_ids rows
  <-> Exists (fun row => cells row !! product_field = Some p) rows.
Proof.
  unfold product_ids. rewrite list_elem_of_omap, Exists_exists.
  split; intros (r & Hr & Hk); exists r; auto.
Qed.

(** The run on a table in which some line stops before its ProductId cell
    and no line goes beyond the field names: the row of that line is
    coloured under the key None and the file is written; the report stops
    after its third line when the dict has another key. *)
Lemma add_colors_to_csv_short (input_file : str) (output_file : option str)
    (w : world) (t : table) (fns : list str) :
  table_at w input_file = Some t ->
  fieldnames t = Some fns ->
  color_field ∉ fns ->
  Exists (fun row => cells row !! product_field = Some None) (rows t) ->
  Forall (fun row => extra row = None) (rows t) ->
  writable w (default input_file output_file) ->
  exists product_colors rows' folders',
    color_rows ∅ (rows t) = Ok (product_colors, rows')
    /\ Forall2 colored (rows t) rows'
    /\ dom product_colors = list_to_set (product_ids (rows t))
    /\ is_Some (product_colors !! None)
    /\ add_colors_to_csv input_file output_file w
       = let files := <[default input_file output_file :=
                          (fns ++ [color_field])
                          :: List.map (written_record (fns ++ [color_field]))
                                      rows']> (fs w) in
         let report := stdout w ++ summary (default input_file output_file)
                                           rows' product_colors in
         match sorted_items product_colors with
         | Raise _ => (World files folders' report, Raise TypeError)
         | Ok items =>
             (World files folders' (report ++ List.map color_line items),
              Ok tt)
         end.
Proof.
  intros Hf Hn Hc HE Hex [folders' Ho].
  pose proof (all_rows_have_key _ _ _ _ _ Hf Hn HE) as Hkeys.
  destruct (color_rows_total _ ∅ Hkeys) as [[pc rows'] Er].
  pose proof (proj2 (color_rows_spec _ _ _ _ coherent_empty Er)) as HF2.
  pose proof (color_rows_dom _ _ _ _ Er) as Hdom.
  rewrite dom_empty_L, (left_id_L ∅ (∪)) in Hdom.
  exists pc, rows', folders'. split; [exact Er|]. split; [exact HF2|].
  split; [exact Hdom|]. split.
  { apply elem_of_dom. rewrite Hdom. apply elem_of_list_to_set.
    apply product_ids_elem, HE. }
  rewrite (add_colors_to_csv_run _ _ _ t fns Hf Hn Hc), Er, Ho.
  pose proof (colored_accepted fns _ _ (table_at_dom _ _ _ _ Hf Hn) HF2 Hex)
    as Hacc.
  rewrite (writerows_all _ _ Hacc). cbn [fst snd]. cbv zeta.
  destruct (sorted_items pc) as [items|e] eqn:Es; [reflexivity|].
  rewrite (proj1 (sorted_items_raise _ _ Es)). reflexivity.
Qed.

(** C9, amended. A table without a Color field in which a row lacks the key
    ProductId, which is a table with a data line under a header without that
    field, makes [add_colors_to_csv] raise KeyError before anything is
    written or printed: the world is unchanged.  The error is not caught:
    the loop of [main] ends with it at that table, the tables before it are
    processed, the tables after it are not reached.  A line that stops
    before its ProductId cell is no error of its own: the row has None
    under ProductId, gets the colour of the text None, and the table is
    written with the cell empty; when the table has a ProductId cell on
    another line the call raises TypeError after the file is written and
    three lines are printed, and the loop of [main] ends there; otherwise it
    returns.  A table with a header and no rows is not an error: it is
    written back with Color appended to its field names. *)
Theorem missing_product_id_ends_batch :
  (forall (input_file : str) (output_file : option str) (w : world)
          (t : table) (fns : list str),
      table_at w input_file = Some t ->
      fieldnames t = Some fns ->
      color_field ∉ fns ->
      Exists (fun row => cells row !! product_field = None) (rows t) ->
      add_colors_to_csv input_file output_file w
      = (w, Raise (KeyError product_field)))
  /\ (forall (w : world) (path : str) (t : table) (fns : list str),
        table_at w path = Some t ->
        fieldnames t = Some fns ->
        Exists (fun row => cells row !! product_field = None) (rows t)
        <-> (product_field ∉ fns) /\ rows t <> [])
  /\ (forall (before after : list str) (name : str) (w w1 : world)
             (t : table) (fns : list str),
        process before w = (w1, Ok tt) ->
        table_at w1 (path_join results_dir name) = Some t ->
        fieldnames t = Some fns ->
        color_field ∉ fns ->
        Exists (fun row => cells row !! product_field = None) (rows t) ->
        process (before ++ name :: after) w
        = (emit (lit "Processing: " ++ name) w1,
           Raise (KeyError product_field)))
  /\ (forall (input_file : str) (output_file : option str) (w : world)
             (t : table) (fns : list str),
        table_at w input_file = Some t ->
        fieldnames t = Some fns ->
        color_field ∉ fns ->
        Exists (fun row => cells row !! product_field = Some None) (rows t) ->
        Forall (fun row => extra row = None) (rows t) ->
        writable w (default input_file output_file) ->
        exists (w' : world) (res : result unit) (t' : table),
          add_colors_to_csv input_file output_file w = (w', res)
          /\ table_at w' (default input_file output_file) = Some t'
          /\ fieldnames t' = Some (fns ++ [color_field])
          /\ length (rows t') = length (rows t)
          /\ (forall (i : nat) (r : csv_row),
                rows t !! i = Some r ->
                cells r !! product_field = Some None ->
                exists r' c,
                  rows t' !! i = Some r'
                  /\ cells r' !! product_field = Some (Some [])
                  /\ generate_color_for_product (lit "None") = Ok c
                  /\ cells r' !! color_field = Some (Some c))
          /\ ((Exists (fun row => exists p,
                         cells row !! product_field = Some (Some p)) (rows t)
               /\ res = Raise TypeError
               /\ stdout w'
                  = stdout w
                    ++ [lit "[OK] Added colors to "
                        ++ default input_file output_file;
                        lit "  - " ++ str_of_nat (length (rows t))
                        ++ lit " items";
                        lit "  - "
                        ++ str_of_nat
                             (size (list_to_set (C := gset (option str))
                                      (product_ids (rows t))))
                        ++ lit " unique ProductIds"])
              \/ (Forall (fun row => cells row !! product_field = Some None)
                         (rows t)
                  /\ res = Ok tt)))
  /\ (forall (before after : list str) (name : str) (w w1 : world)
             (t : table) (fns : list str),
        process before w = (w1, Ok tt) ->
        table_at w1 (path_join results_dir name) = Some t ->
        fieldnames t = Some fns ->
        color_field ∉ fns ->
        Exists (fun row => cells row !! product_field = Some None) (rows t) ->
        Exists (fun row => exists p,
                  cells row !! product_field = Some (Some p)) (rows t) ->
        Forall (fun row => extra row = None) (rows t) ->
        exists (w2 : world) (t' : table),
          process (before ++ name :: after) w = (w2, Raise TypeError)
          /\ table_at w2 (path_join results_dir name) = Some t'
          /\ fieldnames t' = Some (fns ++ [color_field]))
  /\ (forall (input_file : str) (w : world) (fns : list str),
        fs w !! input_file = Some [fns] ->
        color_field ∉ fns ->
        add_colors_to_csv input_file None w
        = (World (<[input_file := [fns ++ [color_field]]]> (fs w))
                 (folders w)
                 (stdout w ++ summary input_file [] ∅),
           Ok tt)).
Proof.
  split; [exact add_colors_to_csv_missing|].
  split; [exact missing_key_iff|].
  assert (Hshort : forall (input_file : str) (output_file : option str)
             (w : world) (t : table) (fns : list str),
        table_at w input_file = Some t ->
        fieldnames t = Some fns ->
        color_field ∉ fns ->
        Exists (fun row => cells row !! product_field = Some None) (rows t) ->
        Forall (fun row => extra row = None) (rows t) ->
        writable w (default input_file output_file) ->
        exists (w' : world) (res : result unit) (t' : table),
          add_colors_to_csv input_file output_file w = (w', res)
          /\ table_at w' (default input_file output_file) = Some t'
          /\ fieldnames t' = Some (fns ++ [color_field])
          /\ length (rows t') = length (rows t)
          /\ (forall (i : nat) (r : csv_row),
                rows t !! i = Some r ->
                cells r !! product_field = Some None ->
                exists r' c,
                  rows t' !! i = Some r'
                  /\ cells r' !! product_field = Some (Some [])
                  /\ generate_color_for_product (lit "None") = Ok c
                  /\ cells r' !! color_field = Some (Some c))
          /\ ((Exists (fun row => exists p,
                         cells row !! product_field = Some (Some p)) (rows t)
               /\ res = Raise TypeError
               /\ stdout w'
                  = stdout w
                    ++ [lit "[OK] Added colors to "
                        ++ default input_file output_file;
                        lit "  - " ++ str_of_nat (length (rows t))
                        ++ lit " items";
                        lit "  - "
                        ++ str_of_nat
                             (size (list_to_set (C := gset (option str))
                                      (product_ids (rows t))))
                        ++ lit " unique ProductIds"])
              \/ (Forall (fun row => cells row !! product_field = Some None)
                         (rows t)
                  /\ res = Ok tt))).
  { intros input_file output_file w t fns Hf Hn Hc HE Hex Hw.
    destruct (add_colors_to_csv_short _ _ _ _ _ Hf Hn Hc HE Hex Hw)
      as (pc & rows' & fd & Er & HF2 & Hdom & Hnone & Hrun).
    cbv zeta in Hrun.
    pose proof (table_at_dom _ _ _ _ Hf Hn) as Hkeys.
    pose proof (colored_accepted fns _ _ Hkeys HF2 Hex) as Hacc.
    assert (Htab : forall fd' out,
               table_at (World (<[default input_file output_file :=
                                    (fns ++ [color_field])
                                    :: List.map (written_record
                                                   (fns ++ [color_field]))
                                                rows']> (fs w)) fd' out)
                        (default input_file output_file)
               = Some (Table (Some (fns ++ [color_field]))
                             (List.map (written_row (fns ++ [color_field]))
                                       rows'))).
    { intros fd' out. unfold table_at. cbn [fs].
      rewrite lookup_insert_eq. cbn [fmap option_fmap option_map].
      rewrite (DictReader_written _ _ (fields_not_nil fns)). reflexivity. }
    assert (Hrows : forall (i : nat) (r : csv_row),
               rows t !! i = Some r ->
               cells r !! product_field = Some None ->
               exists r' c,
                 List.map (written_row (fns ++ [color_field])) rows' !! i
                 = Some r'
                 /\ cells r' !! product_field = Some (Some [])
                 /\ generate_color_for_product (lit "None") = Ok c
                 /\ cells r' !! color_field = Some (Some c)).
    { intros i r Hi Hp.
      destruct (Forall2_lookup_l _ _ _ _ _ HF2 Hi) as (r0' & Hi' & Hcol).
      assert (Hd : dom (cells r0')
                   ⊆ list_to_set (C := gset str) (fns ++ [color_field])).
      { apply (proj1 (Forall_forall _ _) Hacc r0').
        apply list_elem_of_lookup. eauto. }
      destruct (colored_written fns r r0' Hcol Hd)
        as (p & c & Hp0 & Hg & _ & Hp' & Hc').
      rewrite Hp in Hp0. injection Hp0 as <-.
      exists (written_row (fns ++ [color_field]) r0'), c.
      split; [rewrite lookup_map, Hi'; reflexivity|]. auto. }
    assert (Hlen : length (List.map (written_row (fns ++ [color_field]))
                                    rows') = length (rows t)).
    { rewrite length_map. symmetry. exact (Forall2_length _ _ _ HF2). }
    destruct (sorted_items pc) as [items|e] eqn:Es.
    - eexists _, _, _. split; [exact Hrun|]. split; [apply Htab|].
      split; [reflexivity|]. split; [exact Hlen|]. split; [exact Hrows|].
      right. split; [|reflexivity].
      apply Forall_forall. intros r Hr.
      destruct (proj1 (Forall_forall _ _)
                      (all_rows_have_key _ _ _ _ _ Hf Hn HE) r Hr) as [p Hp].
      assert (Hk : is_Some (pc !! p)).
      { apply elem_of_dom. rewrite Hdom. apply elem_of_list_to_set.
        apply product_ids_elem, Exists_exists. eauto. }
      rewrite (sorted_items_none _ _ Es Hnone p Hk) in Hp. exact Hp.
    - eexists _, _, _. split; [exact Hrun|]. split; [apply Htab|].
      split; [reflexivity|]. split; [exact Hlen|]. split; [exact Hrows|].
      left. destruct (sorted_items_raise _ _ Es) as (_ & _ & p & Hk).
      split.
      + apply elem_of_dom in Hk. rewrite Hdom in Hk.
        apply elem_of_list_to_set, product_ids_elem in Hk.
        apply Exists_exists in Hk as (r & Hr & Hp).
        apply Exists_exists. eauto.
      + split; [reflexivity|]. cbn [stdout]. unfold summary.
        rewrite (color_rows_length _ _ _ _ Er).
        rewrite <- Hdom, size_dom. reflexivity. }
  split.
  { intros before after name w w1 t fns Hb Hf Hn Hc HE.
    rewrite process_app, Hb, process_cons.
    rewrite (add_colors_to_csv_missing _ None _ t fns); try assumption.
    reflexivity. }
  split; [exact Hshort|].
  split.
  { intros before after name w w1 t fns Hb Hf Hn Hc HE HS Hex.
    rewrite process_app, Hb, process_cons.
    assert (Hw : writable (emit (lit "Processing: " ++ name) w1)
                          (default (path_join results_dir name) None)).
    { apply writable_existing. cbn [default from_option id emit fs].
      exact (table_at_is_Some _ _ _ Hf). }
    destruct (Hshort (path_join results_dir name) None
                     (emit (lit "Processing: " ++ name) w1) t fns
                     Hf Hn Hc HE Hex Hw)
      as (w' & res & t' & Hrun & Ht' & Hn' & _ & _ & Hres).
    rewrite Hrun. destruct Hres as [(_ & -> & _)|(Hall & _)].
    - exists w', t'. auto.
    - exfalso. apply Exists_exists in HS as (r & Hr & p & Hp).
      rewrite (proj1 (Forall_forall _ _) Hall r Hr) in Hp. discriminate Hp. }
  intros input_file w fns Hf Hc.
  assert (Ht : table_at w input_file = Some (DictReader [fns]))
    by (unfold table_at; rewrite Hf; reflexivity).
  rewrite (add_colors_to_csv_run _ _ _ _ fns Ht eq_refl Hc).
  cbn [DictReader rows List.filter List.map color_rows].
  cbn [default from_option id].
  rewrite (open_w_existing w input_file) by eauto.
  cbv zeta. cbn [writerows fst snd]. unfold sorted_items.
  rewrite map_to_list_empty. cbn [sort_items foldr List.map].
  rewrite app_nil_r. reflexivity.
Qed.

(** ** Further properties of the tables *)

(** *** What [add_colors_to_csv] can raise *)

Lemma add_colors_to_csv_unreadable (input_file : str)
    (output_file : option str) (w : world) :
  table_at w input_file = None ->
  exists e, add_colors_to_csv input_file output_file w = (w, Raise e)
            /\ open_error input_file e.
Proof.
  intros H. destruct (read_csv_raise _ _ H) as (e & Hr & He).
  exists e. split; [|exact He].
  unfold add_colors_to_csv, io_bind. rewrite Hr. reflexivity.
Qed.

Lemma add_colors_to_csv_no_header (input_file : str)
    (output_file : option str) (w : world) (t : table) :
  table_at w input_file = Some t ->
  fieldnames t = None ->
  add_colors_to_csv input_file output_file w = (w, Raise TypeError).
Proof.
  intros Hf Hn. unfold add_colors_to_csv, io_bind.
  rewrite (read_csv_file _ _ _ Hf), Hn. reflexivity.
Qed.


(** The classes of the exceptions of [add_colors_to_csv]. *)
Lemma add_colors_to_csv_raise_kind (input_file : str)
    (output_file : option str) (w w' : world) (e : exn) :
  add_colors_to_csv input_file output_file w = (w', Raise e) ->
  open_error input_file e
  \/ open_error (default input_file output_file) e
  \/ e = TypeError \/ e = KeyError product_field \/ e = ValueError.
Proof.
  intros H. destruct (table_at w input_file) as [t|] eqn:Hf.
  - destruct (fieldnames t) as [fns|] eqn:Hn.
    + destruct (decide (color_field ∈ fns)) as [Hc|Hc].
      * rewrite (add_colors_to_csv_skip _ _ _ _ _ Hf Hn Hc) in H.
        discriminate H.
      * rewrite (add_colors_to_csv_run _ _ _ _ _ Hf Hn Hc) in H.
        destruct (color_rows ∅ (rows t)) as [[pc rows']|e'] eqn:Er.
        -- destruct (open_w w (default input_file output_file))
             as [fd|e'] eqn:Eo.
           ++ cbv zeta in H.
              destruct (writerows (fns ++ [color_field]) rows')
                as [ws res] eqn:Ew.
              cbn [fst snd] in H. destruct res as [[]|e''].
              ** destruct (sorted_items pc) as [items|e''] eqn:Es;
                   [discriminate H|].
                 injection H as _ <-.
                 rewrite (proj1 (sorted_items_raise _ _ Es)). auto.
              ** injection H as _ <-.
                 pose proof (writerows_raises (fns ++ [color_field]) rows' e'')
                   as Hv. rewrite Ew in Hv.
                 rewrite (proj1 (Hv eq_refl)). auto 6.
           ++ injection H as _ <-. right. left.
              exact (proj2 (open_w_raise _ _ _ Eo)).
        -- injection H as _ <-.
           rewrite (proj1 (color_rows_raises _ _ _ Er)). auto 6.
    + rewrite (add_colors_to_csv_no_header _ _ _ _ Hf Hn) in H.
      injection H as _ <-. auto.
  - destruct (add_colors_to_csv_unreadable input_file output_file w Hf)
      as (e' & Hr & He).
    rewrite Hr in H. injection H as _ <-. left. exact He.
Qed.


(** *** What [add_colors_to_csv] leaves alone *)

Lemma add_colors_to_csv_shape (input_file : str) (output_file : option str)
    (w : world) :
  exists files folders' out r,
    add_colors_to_csv input_file output_file w
    = (World files folders' (stdout w ++ out), r)
    /\ ((files = fs w /\ folders' = folders w)
        \/ (exists records,
              files = <[default input_file output_file := records]> (fs w))
           /\ is_Some (fs w !! input_file)
           /\ open_w w (default input_file output_file) = Ok folders').
Proof.
  destruct (table_at w input_file) as [t|] eqn:Hf.
  2:{ destruct (add_colors_to_csv_unreadable input_file output_file w Hf)
        as (e' & -> & _).
      exists (fs w), (folders w), [], (Raise e'). rewrite app_nil_r.
      split; [destruct w; reflexivity|]. left. auto. }
  destruct (fieldnames t) as [fns|] eqn:Hn.
  2:{ rewrite (add_colors_to_csv_no_header _ _ _ _ Hf Hn).
      exists (fs w), (folders w), [], (Raise TypeError). rewrite app_nil_r.
      split; [destruct w; reflexivity|]. left. auto. }
  destruct (decide (color_field ∈ fns)) as [Hc|Hc].
  { rewrite (add_colors_to_csv_skip _ _ _ _ _ Hf Hn Hc).
    eexists _, _, _, _. split; [reflexivity|]. left. auto. }
  pose proof (table_at_is_Some _ _ _ Hf) as Hin.
  rewrite (add_colors_to_csv_run _ _ _ _ _ Hf Hn Hc).
  destruct (color_rows ∅ (rows t)) as [[pc rows']|e'].
  2:{ exists (fs w), (folders w), [], (Raise e'). rewrite app_nil_r.
      split; [destruct w; reflexivity|]. left. auto. }
  destruct (open_w w (default input_file output_file)) as [fd|e'] eqn:Eo.
  2:{ exists (fs w), (folders w), [], (Raise e'). rewrite app_nil_r.
      split; [destruct w; reflexivity|]. left. auto. }
  cbv zeta.
  destruct (writerows (fns ++ [color_field]) rows') as [ws [[]|e]];
    cbn [fst snd].
  - destruct (sorted_items pc) as [items|e].
    + rewrite <- app_assoc. eexists _, _, _, _. split; [reflexivity|].
      right. eauto.
    + eexists _, _, _, _. split; [reflexivity|]. right. eauto.
  - eexists _, fd, [], (Raise e). rewrite app_nil_r.
    split; [reflexivity|]. right. eauto.
Qed.

Lemma add_colors_to_csv_in_place (path : str) (w : world) :
  folders (add_colors_to_csv path None w).1 = folders w
  /\ (forall q, q <> path ->
        fs (add_colors_to_csv path None w).1 !! q = fs w !! q).
Proof.
  destruct (add_colors_to_csv_shape path None w)
    as (files & fd & out & r & -> & Hshape).
  cbn [fst folders fs default from_option id] in *.
  destruct Hshape as [[-> ->]|([records ->] & Hin & Ho)];
    [split; reflexivity|].
  rewrite (open_w_existing _ _ Hin) in Ho. injection Ho as <-.
  split; [reflexivity|]. intros q Hq. apply lookup_insert_ne. congruence.
Qed.

Lemma elem_of_enlist (name : str) (names : list str) (n : str) :
  n ∈ enlist name names <-> n ∈ names \/ n = name.
Proof.
  unfold enlist. destruct (decide (name ∈ names)) as [H|H].
  - split; [auto|]. intros [Hn| ->]; assumption.
  - rewrite elem_of_app, list_elem_of_singleton. reflexivity.
Qed.

(** Whatever the outcome, [add_colors_to_csv] only adds to the output and
    changes no file but the output file.  The folders stay as they are when
    the output file exists already; when the call creates it, its name is
    added to the names of its folder, and no other listing changes. *)
Theorem add_colors_to_csv_frame (input_file : str)
    (output_file : option str) (w : world) :
  stdout w `prefix_of` stdout (add_colors_to_csv input_file output_file w).1
  /\ (forall path, path <> default input_file output_file ->
        fs (add_colors_to_csv input_file output_file w).1 !! path
        = fs w !! path)
  /\ (is_Some (fs w !! default input_file output_file) ->
      folders (add_colors_to_csv input_file output_file w).1 = folders w)
  /\ (forall folder,
        folders (add_colors_to_csv input_file output_file w).1 !! folder
        = folders w !! folder
        \/ exists names names',
             folders w !! folder = Some names
             /\ folders (add_colors_to_csv input_file output_file w).1
                  !! folder = Some names'
             /\ last (ancestors (default input_file output_file))
                = Some folder
             /\ fs w !! default input_file output_file = None
             /\ is_Some (fs (add_colors_to_csv input_file output_file w).1
                           !! default input_file output_file)
             /\ forall n,
                  n ∈ names'
                  <-> n ∈ names
                      \/ n = last_component
                               (default input_file output_file)).
Proof.
  destruct (add_colors_to_csv_shape input_file output_file w)
    as (files & fd & out & r & -> & Hshape).
  cbn [fst folders stdout fs].
  split; [apply prefix_app_r; reflexivity|].
  destruct Hshape as [[-> ->]|([records ->] & Hin & Ho)].
  { split; [reflexivity|]. split; [reflexivity|]. intros folder. left.
    reflexivity. }
  split; [intros path Hp; apply lookup_insert_ne; congruence|].
  split.
  { intros Hex. rewrite (open_w_existing _ _ Hex) in Ho.
    injection Ho as <-. reflexivity. }
  intros folder. destruct (open_w_ok _ _ _ Ho) as [[_ ->]|[Hnone ->]];
    [left; reflexivity|].
  destruct (last (ancestors (default input_file output_file)))
    as [parent|] eqn:El; [|left; reflexivity].
  destruct (decide (parent = folder)) as [->|Hne].
  - rewrite lookup_alter_eq.
    destruct (folders w !! folder) as [names|] eqn:Ef; [|left; reflexivity].
    right. exists names. eexists. cbn [fmap option_fmap option_map].
    split; [reflexivity|]. split; [reflexivity|]. split; [reflexivity|].
    split; [exact Hnone|].
    split; [rewrite lookup_insert_eq; eauto|]. apply elem_of_enlist.
  - left. apply lookup_alter_ne. exact Hne.
Qed.

(** *** When [add_colors_to_csv] succeeds *)

Lemma plain_rows_keys (rows : list csv_row) :
  Forall plain_row rows ->
  Forall (fun row => is_Some (cells row !! product_field)) rows
  /\ Forall (fun row => extra row = None) rows
  /\ None ∉ product_ids rows.
Proof.
  intros HF. split; [|split].
  - apply (Forall_impl _ _ _ HF). intros r [[p Hp] _]. eauto.
  - apply (Forall_impl _ _ _ HF). intros r [_ He]. exact He.
  - intros Hin. apply product_ids_elem, Exists_exists in Hin as (r & Hr & Hp).
    destruct (proj1 (Forall_forall _ _) HF r Hr) as [[p Hp'] _].
    congruence.
Qed.

(** The run on a table of plain rows. *)
Lemma add_colors_to_csv_plain (input_file : str) (output_file : option str)
    (w : world) (t : table) (fns : list str) :
  table_at w input_file = Some t ->
  fieldnames t = Some fns ->
  color_field ∉ fns ->
  Forall plain_row (rows t) ->
  match open_w w (default input_file output_file) with
  | Ok _ => exists w', add_colors_to_csv input_file output_file w
                       = (w', Ok tt)
  | Raise e => add_colors_to_csv input_file output_file w = (w, Raise e)
  end.
Proof.
  intros Hf Hn Hc Hplain.
  destruct (plain_rows_keys _ Hplain) as (Hpid & Hex & Hnone).
  rewrite (add_colors_to_csv_run _ _ _ t fns Hf Hn Hc).
  destruct (color_rows_total (rows t) ∅ Hpid) as [[pc rows'] Er].
  rewrite Er.
  destruct (open_w w (default input_file output_file)) as [fd|e];
    [|reflexivity].
  cbv zeta.
  pose proof (proj2 (color_rows_spec _ _ _ _ coherent_empty Er)) as HF2.
  rewrite (writerows_all _ _
             (colored_accepted fns _ _ (table_at_dom _ _ _ _ Hf Hn) HF2 Hex)).
  cbn [fst snd].
  destruct (sorted_items_total pc) as [items ->]; [|eauto].
  apply not_elem_of_dom.
  rewrite (color_rows_dom _ _ _ _ Er), dom_empty_L, (left_id_L ∅ (∪)).
  rewrite elem_of_list_to_set. exact Hnone.
Qed.

(** A table without a Color field, in which every line has its ProductId
    cell and no cell beyond the field names, is augmented whenever the
    output file can be opened: the call returns normally and the output
    file holds the field names followed by Color.  When the output file
    cannot be opened the call raises the error of [open] and changes
    nothing. *)
Theorem well_formed_table_is_augmented (input_file : str)
    (output_file : option str) (w : world) (t : table) (fns : list str) :
  table_at w input_file = Some t ->
  fieldnames t = Some fns ->
  color_field ∉ fns ->
  Forall plain_row (rows t) ->
  (writable w (default input_file output_file) ->
   exists w' t',
     add_colors_to_csv input_file output_file w = (w', Ok tt)
     /\ table_at w' (default input_file output_file) = Some t'
     /\ fieldnames t' = Some (fns ++ [color_field])
     /\ length (rows t') = length (rows t))
  /\ (forall e, open_w w (default input_file output_file) = Raise e ->
        add_colors_to_csv input_file output_file w = (w, Raise e)
        /\ open_error (default input_file output_file) e).
Proof.
  intros Hf Hn Hc Hplain.
  pose proof (add_colors_to_csv_plain _ output_file _ _ _ Hf Hn Hc Hplain)
    as Hrun.
  split.
  - intros [fd Ho]. rewrite Ho in Hrun. destruct Hrun as [w' Hrun].
    destruct (add_colors_to_csv_ok _ _ _ _ _ _ Hf Hn Hc Hrun)
      as (pc & rows' & _ & _ & _ & HF2 & _).
    destruct (add_colors_to_csv_table _ _ _ _ _ _ Hf Hn Hc Hrun)
      as (pc0 & rows0 & Er0 & Ht).
    exists w'. eexists. split; [exact Hrun|]. split; [exact Ht|].
    cbn [fieldnames rows]. split; [reflexivity|].
    rewrite length_map. exact (color_rows_length _ _ _ _ Er0).
  - intros e Ho. rewrite Ho in Hrun. split; [exact Hrun|].
    exact (proj2 (open_w_raise _ _ _ Ho)).
Qed.

(** A second run on the file the first run wrote does nothing but print that
    the column exists. *)
Theorem second_run_is_skipped (input_file : str) (w w' : world) (t : table)
    (fns : list str) :
  table_at w input_file = Some t ->
  fieldnames t = Some fns ->
  color_field ∉ fns ->
  add_colors_to_csv input_file None w = (w', Ok tt) ->
  add_colors_to_csv input_file None w'
  = (emit (lit "Color column already exists in " ++ input_file) w', Ok tt).
Proof.
  intros Hf Hn Hc Hrun.
  destruct (add_colors_to_csv_table _ _ _ _ _ _ Hf Hn Hc Hrun)
    as (pc & rows' & _ & Ht).
  cbn [default from_option id] in Ht.
  eapply add_colors_to_csv_skip.
  - exact Ht.
  - reflexivity.
  - apply color_field_last.
Qed.

(** *** The report *)

(** After a successful run the output ends with the report: the file, the
    number of rows of the table, the number of distinct values under
    ProductId, then one line per distinct value. *)
Theorem report_counts (input_file : str) (output_file : option str)
    (w w' : world) (t : table) (fns : list str) :
  table_at w input_file = Some t ->
  fieldnames t = Some fns ->
  color_field ∉ fns ->
  add_colors_to_csv input_file output_file w = (w', Ok tt) ->
  exists lines,
    stdout w'
    = stdout w
      ++ [lit "[OK] Added colors to " ++ default input_file output_file;
          lit "  - " ++ str_of_nat (length (rows t)) ++ lit " items";
          lit "  - "
          ++ str_of_nat (size (list_to_set (C := gset (option str))
                                 (product_ids (rows t))))
          ++ lit " unique ProductIds"]
      ++ lines
    /\ length lines
       = size (list_to_set (C := gset (option str)) (product_ids (rows t))).
Proof.
  intros Hf Hn Hc Hrun.
  destruct (add_colors_to_csv_ok _ _ _ _ _ _ Hf Hn Hc Hrun)
    as (pc & rows' & fd & items & Er & _ & _ & _ & Hs & ->).
  cbn [stdout]. unfold summary.
  pose proof (color_rows_dom _ _ _ _ Er) as Hdom.
  rewrite dom_empty_L, (left_id_L ∅ (∪)) in Hdom.
  assert (Hsize : size pc
                  = size (list_to_set (C := gset (option str))
                            (product_ids (rows t)))).
  { rewrite <- Hdom. symmetry. apply size_dom. }
  rewrite (color_rows_length _ _ _ _ Er), Hsize.
  eexists. split; [reflexivity|].
  rewrite length_map, (Permutation_length (sorted_items_perm _ _ Hs)).
  rewrite length_map_to_list. exact Hsize.
Qed.

(** The lines of the report after the counts: one for each distinct value
    under ProductId with the colour of that product, no product twice, in
    the order of the identifiers. *)
Theorem report_lines (input_file : str) (output_file : option str)
    (w w' : world) (t : table) (fns : list str) :
  table_at w input_file = Some t ->
  fieldnames t = Some fns ->
  color_field ∉ fns ->
  add_colors_to_csv input_file output_file w = (w', Ok tt) ->
  exists head items,
    stdout w' = stdout w ++ head ++ List.map color_line items
    /\ length head = 3%nat
    /\ (forall p c, (p, c) ∈ items
                    <-> p ∈ product_ids (rows t)
                        /\ generate_color_for_product (str_of p) = Ok c)
    /\ NoDup items.*1
    /\ Sorted keys_in_order items.
Proof.
  intros Hf Hn Hc Hrun.
  destruct (add_colors_to_csv_ok _ _ _ _ _ _ Hf Hn Hc Hrun)
    as (pc & rows' & fd & items & Er & _ & _ & _ & Hs & ->).
  cbn [stdout]. eexists _, items.
  split; [reflexivity|]. split; [reflexivity|].
  pose proof (color_rows_dom _ _ _ _ Er) as Hdom.
  rewrite dom_empty_L, (left_id_L ∅ (∪)) in Hdom.
  pose proof (proj1 (color_rows_spec _ _ _ _ coherent_empty Er)) as Hcoh.
  split; [|split].
  - intros p c. rewrite (sorted_items_perm _ _ Hs), elem_of_map_to_list.
    split.
    + intros Hl. split; [|apply Hcoh, Hl].
      apply (elem_of_list_to_set (C := gset (option str))). rewrite <- Hdom.
      apply elem_of_dom. eauto.
    + intros [Hp Hg].
      apply (elem_of_list_to_set (C := gset (option str))) in Hp.
      rewrite <- Hdom in Hp. apply elem_of_dom in Hp as [c' Hl].
      rewrite (Hcoh _ _ Hl) in Hg. injection Hg as <-. exact Hl.
  - rewrite (sorted_items_perm _ _ Hs). apply NoDup_fst_map_to_list.
  - exact (sorted_items_sorted _ _ Hs).
Qed.

(** *** The batch as a whole *)

Lemma main_run (w : world) :
  main w
  = match folders w !! results_dir with
    | Some names =>
        match List.filter is_placements_file names with
        | [] =>
            (emit (lit "No item_placements_*.csv files found in "
                   ++ results_dir ++ lit "/") w,
             Raise (SystemExit 1))
        | files =>
            process files
              (emit (lit "Found " ++ str_of_nat (length files)
                     ++ lit " file(s) to process:" ++ newline) w)
        end
    | None =>
        match fs w !! results_dir with
        | Some _ => (w, Raise (NotADirectoryError results_dir))
        | None =>
            (emit (lit "Error: " ++ results_dir ++ lit " folder not found!") w,
             Raise (SystemExit 1))
        end
    end.
Proof.
  unfold main, io_bind at 1, path_exists.
  destruct (folders w !! results_dir) as [names|] eqn:Ed.
  - rewrite bool_decide_eq_true_2 by (right; eauto). cbn [negb].
    unfold io_bind at 1, listdir. rewrite Ed.
    change (fun f => startswith f (lit "item_placements_")
                     && endswith f (lit ".csv")) with is_placements_file.
    destruct (List.filter is_placements_file names); reflexivity.
  - destruct (fs w !! results_dir) as [records|] eqn:Ef.
    + rewrite bool_decide_eq_true_2 by (left; eauto). cbn [negb].
      unfold io_bind at 1, listdir. rewrite Ed, Ef.
      destruct (decide (is_Some (Some records))) as [_|Hn]; [reflexivity|].
      exfalso. apply Hn. eauto.
    + rewrite bool_decide_eq_false_2; [reflexivity|].
      intros [[x Hx]|[x Hx]]; discriminate.
Qed.

Lemma open_error_not_exit (path : str) (e : exn) (code : Z) :
  open_error path e -> e <> SystemExit code.
Proof. intros [->|[->| ->]]; discriminate. Qed.

Lemma process_raises (files : list str) :
  forall (w w' : world) (e : exn),
    process files w = (w', Raise e) -> forall code, e <> SystemExit code.
Proof.
  induction files as [|name rest IH]; intros w w' e H code;
    [discriminate H|].
  rewrite process_cons in H.
  destruct (add_colors_to_csv _ _ _) as [w1 [[]|e1]] eqn:Ea.
  - exact (IH _ _ _ H code).
  - injection H as _ <-.
    destruct (add_colors_to_csv_raise_kind _ _ _ _ _ Ea)
      as [He|[He|[->|[->| ->]]]];
      try discriminate; exact (open_error_not_exit _ _ _ He).
Qed.

Lemma process_frame (files : list str) :
  forall w : world,
    folders (process files w).1 = folders w
    /\ (forall path,
          (forall name, name ∈ files -> path <> path_join results_dir name) ->
          fs (process files w).1 !! path = fs w !! path).
Proof.
  induction files as [|name rest IH]; intros w; [split; reflexivity|].
  rewrite process_cons.
  destruct (add_colors_to_csv_in_place (path_join results_dir name)
              (emit (lit "Processing: " ++ name) w)) as [Hfd Hfs].
  destruct (add_colors_to_csv (path_join results_dir name) None
              (emit (lit "Processing: " ++ name) w)) as [w1 r].
  cbn [fst emit folders fs] in Hfd, Hfs.
  destruct r as [[]|e].
  - destruct (IH (emit [] w1)) as [Hl Hf]. cbn [emit folders fs] in Hl, Hf.
    split; [rewrite Hl; exact Hfd|].
    intros path Hp. rewrite Hf.
    + apply Hfs, Hp. left.
    + intros n Hn. apply Hp. right. exact Hn.
  - cbn [fst]. split; [exact Hfd|].
    intros path Hp. apply Hfs, Hp. left.
Qed.

(** [main] ends with exit status 1 exactly when there is nothing to do, the
    results folder missing or without a matching name, and then it changes
    neither file nor folder.  (Were Results the path of a file, [os.listdir]
    would raise NotADirectoryError.) *)
Theorem main_exits_iff_no_work (w : world) :
  ((exists code, (main w).2 = Raise (SystemExit code))
   <-> batch_files w = []
       /\ ~ (listing w = None /\ is_Some (fs w !! results_dir)))
  /\ (batch_files w = [] ->
      ~ (listing w = None /\ is_Some (fs w !! results_dir)) ->
      (main w).2 = Raise (SystemExit 1)
      /\ fs (main w).1 = fs w
      /\ folders (main w).1 = folders w)
  /\ (listing w = None -> is_Some (fs w !! results_dir) ->
      main w = (w, Raise (NotADirectoryError results_dir))).
Proof.
  rewrite main_run. unfold batch_files, listing.
  destruct (folders w !! results_dir) as [names|].
  - destruct (List.filter is_placements_file names) as [|f files] eqn:Ef.
    + split; [|split; [intros _ _; repeat split|discriminate]].
      split; [|intros _; exists 1; reflexivity].
      intros _. split; [reflexivity|]. intros [H _]. discriminate H.
    + split; [|split; discriminate].
      split; [|intros [H _]; discriminate H]. intros [code H].
      destruct (process (f :: files) _) as [w' [[]|e]] eqn:Ep;
        [discriminate H|].
      cbn [snd] in H. injection H as ->.
      exfalso. exact (process_raises _ _ _ _ Ep code eq_refl).
  - destruct (fs w !! results_dir) as [records|].
    + split; [|split].
      * split; [intros [code H]; discriminate H|].
        intros [_ Hn]. exfalso. apply Hn. eauto.
      * intros _ Hn. exfalso. apply Hn. eauto.
      * reflexivity.
    + split; [|split].
      * split; [|intros _; exists 1; reflexivity].
        intros _. split; [reflexivity|]. intros [_ [x Hx]]. discriminate Hx.
      * intros _ _. repeat split.
      * intros _ [x Hx]. discriminate Hx.
Qed.

Lemma main_frame (w : world) :
  folders (main w).1 = folders w
  /\ (forall path,
        (forall name, name ∈ batch_files w ->
                      path <> path_join results_dir name) ->
        fs (main w).1 !! path = fs w !! path).
Proof.
  rewrite main_run. unfold batch_files, listing.
  destruct (folders w !! results_dir) as [names|] eqn:El.
  - destruct (List.filter is_placements_file names) as [|f files] eqn:Ef;
      [split; reflexivity|].
    destruct (process_frame (f :: files)
                (emit (lit "Found " ++ str_of_nat (length (f :: files))
                       ++ lit " file(s) to process:" ++ newline) w))
      as [Hl Hf].
    split; [exact Hl|].
    intros path Hp. rewrite Hf; [reflexivity|exact Hp].
  - destruct (fs w !! results_dir); split; reflexivity.
Qed.

(** [main] keeps the folders and their listings and changes no file other
    than the files of the results folder whose names pass the test of lines
    95-96. *)
Theorem main_touches_only_batch (w : world) :
  listing (main w).1 = listing w
  /\ folders (main w).1 = folders w
  /\ (forall path,
        (forall name, name ∈ batch_files w ->
                      path <> path_join results_dir name) ->
        fs (main w).1 !! path = fs w !! path).
Proof.
  destruct (main_frame w) as [Hfd Hfs].
  split; [unfold listing; rewrite Hfd; reflexivity|]. split; assumption.
Qed.

Lemma has_color_processable (t : table) : has_color t -> processable t.
Proof. intros (fns & Hn & Hc). exists fns. auto. Qed.

Lemma table_at_same (w w' : world) (path : str) :
  fs w' !! path = fs w !! path -> table_at w' path = table_at w path.
Proof. unfold table_at. intros ->. reflexivity. Qed.

(** What a call that returns normally leaves behind. *)
Lemma add_colors_to_csv_returns (path : str) (w w' : world) :
  add_colors_to_csv path None w = (w', Ok tt) ->
  folders w' = folders w
  /\ (exists t', table_at w' path = Some t' /\ has_color t')
  /\ (forall q, q <> path -> fs w' !! q = fs w !! q)
  /\ ((exists t, table_at w path = Some t /\ has_color t) -> fs w' = fs w).
Proof.
  intros H.
  destruct (add_colors_to_csv_in_place path w) as [Hfd Hfs].
  rewrite H in Hfd, Hfs. cbn [fst] in Hfd, Hfs.
  split; [exact Hfd|].
  destruct (table_at w path) as [t|] eqn:Hf.
  - destruct (fieldnames t) as [fns|] eqn:Hn.
    + destruct (decide (color_field ∈ fns)) as [Hc|Hc].
      * rewrite (add_colors_to_csv_skip _ _ _ _ _ Hf Hn Hc) in H.
        injection H as <-. cbn [emit fs].
        split; [|split; [reflexivity|reflexivity]].
        exists t. split; [exact Hf|]. exists fns. auto.
      * destruct (add_colors_to_csv_table _ _ _ _ _ _ Hf Hn Hc H)
          as (pc & rows' & _ & Ht).
        cbn [default from_option id] in Ht.
        split; [|split; [exact Hfs|]].
        -- eexists. split; [exact Ht|].
           exists (fns ++ [color_field]). split; [reflexivity|].
           apply color_field_last.
        -- intros (t0 & Ht0 & fns0 & Hn0 & Hc0). exfalso.
           injection Ht0 as <-. rewrite Hn in Hn0.
           injection Hn0 as <-. contradiction.
    + rewrite (add_colors_to_csv_no_header _ _ _ _ Hf Hn) in H.
      discriminate H.
  - destruct (add_colors_to_csv_unreadable path None w Hf) as (e & Hr & _).
    rewrite Hr in H. discriminate H.
Qed.

Lemma add_colors_to_csv_accepts (path : str) (w : world) (t : table) :
  table_at w path = Some t -> processable t ->
  exists w', add_colors_to_csv path None w = (w', Ok tt).
Proof.
  intros Hf (fns & Hn & [Hc|Hplain]).
  - eexists. apply (add_colors_to_csv_skip _ _ _ _ _ Hf Hn Hc).
  - destruct (decide (color_field ∈ fns)) as [Hc|Hc].
    + eexists. apply (add_colors_to_csv_skip _ _ _ _ _ Hf Hn Hc).
    + pose proof (add_colors_to_csv_plain _ None _ _ _ Hf Hn Hc Hplain) as H.
      cbn [default from_option id] in H.
      rewrite (open_w_existing _ _ (table_at_is_Some _ _ _ Hf)) in H.
      exact H.
Qed.

(** After a loop that returns normally every file of the loop has the Color
    field. *)
Lemma process_gives_color (files : list str) :
  forall w w' : world,
    process files w = (w', Ok tt) ->
    (forall name, name ∈ files ->
       exists t', table_at w' (path_join results_dir name) = Some t'
                  /\ has_color t')
    /\ (forall q t, table_at w q = Some t -> has_color t ->
          exists t', table_at w' q = Some t' /\ has_color t').
Proof.
  induction files as [|name rest IH]; intros w w' H.
  - injection H as <-. split; [intros name Hn; inversion Hn|eauto].
  - rewrite process_cons in H.
    destruct (add_colors_to_csv _ _ _) as [w1 [[]|e]] eqn:Ea;
      [|discriminate H].
    destruct (add_colors_to_csv_returns _ _ _ Ea)
      as (_ & (t1 & Ht1 & Hc1) & Hother & _).
    cbn [emit fs] in Hother.
    destruct (IH _ _ H) as [Hrest Hkeep0].
    assert (Hkeep : forall q t, table_at w1 q = Some t -> has_color t ->
                      exists t', table_at w' q = Some t' /\ has_color t')
      by exact Hkeep0.
    assert (Hkeep1 : forall q t, table_at w q = Some t -> has_color t ->
                       exists t', table_at w1 q = Some t' /\ has_color t').
    { intros q t Hq Hc.
      destruct (decide (q = path_join results_dir name)) as [->|Hne];
        [eauto|].
      exists t. rewrite (table_at_same _ _ _ (Hother q Hne)). auto. }
    split.
    + intros n Hn. apply elem_of_cons in Hn as [->|Hn];
        [exact (Hkeep _ _ Ht1 Hc1)|exact (Hrest n Hn)].
    + intros q t Hq Hc. destruct (Hkeep1 q t Hq Hc) as (t' & Hq' & Hc').
      exact (Hkeep _ _ Hq' Hc').
Qed.

Lemma process_accepts (files : list str) :
  forall w : world,
    (forall name, name ∈ files ->
       exists t, table_at w (path_join results_dir name) = Some t
                 /\ processable t) ->
    exists w', process files w = (w', Ok tt).
Proof.
  induction files as [|name rest IH]; intros w Hall;
    [eexists; reflexivity|].
  rewrite process_cons.
  destruct (Hall name ltac:(left)) as (t & Hf & Hp).
  destruct (add_colors_to_csv_accepts (path_join results_dir name)
              (emit (lit "Processing: " ++ name) w) t Hf Hp) as [w1 Ea].
  rewrite Ea.
  destruct (add_colors_to_csv_returns _ _ _ Ea)
    as (_ & (t1 & Ht1 & Hc1) & Hother & _).
  cbn [emit fs] in Hother.
  apply IH. intros n Hn. rewrite table_at_emit.
  destruct (decide (path_join results_dir n = path_join results_dir name))
    as [E|Hne].
  - exists t1. rewrite E. split; [exact Ht1|].
    apply has_color_processable, Hc1.
  - rewrite (table_at_same _ _ _ (Hother _ Hne)). apply Hall. right. exact Hn.
Qed.

Lemma process_skips (files : list str) :
  forall w : world,
    (forall name, name ∈ files ->
       exists t, table_at w (path_join results_dir name) = Some t
                 /\ has_color t) ->
    exists w', process files w = (w', Ok tt) /\ fs w' = fs w.
Proof.
  induction files as [|name rest IH]; intros w Hall;
    [eexists; split; reflexivity|].
  rewrite process_cons.
  destruct (Hall name ltac:(left)) as (t & Hf & fns & Hn & Hc).
  rewrite (add_colors_to_csv_skip _ None
             (emit (lit "Processing: " ++ name) w) t fns Hf Hn Hc).
  destruct (IH (emit [] (emit (lit "Color column already exists in "
                               ++ path_join results_dir name)
                              (emit (lit "Processing: " ++ name) w))))
    as (w' & Hp & Hfs).
  { intros n Hin. rewrite !table_at_emit. apply Hall. right. exact Hin. }
  exists w'. split; [exact Hp|]. rewrite Hfs. reflexivity.
Qed.

(** When every file of the batch holds a table [add_colors_to_csv] accepts,
    [main] returns normally and every file of the batch has the Color field
    afterwards. *)
Theorem main_completes_batch (w : world) :
  batch_files w <> [] ->
  (forall name, name ∈ batch_files w ->
     exists t, table_at w (path_join results_dir name) = Some t
               /\ processable t) ->
  exists w',
    main w = (w', Ok tt)
    /\ (forall name, name ∈ batch_files w ->
          exists t', table_at w' (path_join results_dir name) = Some t'
                     /\ has_color t').
Proof.
  intros Hne Hall. rewrite main_run. unfold batch_files, listing in *.
  destruct (folders w !! results_dir) as [names|]; [|contradiction].
  destruct (List.filter is_placements_file names) as [|f files] eqn:Ef;
    [contradiction|].
  destruct (process_accepts (f :: files)
              (emit (lit "Found " ++ str_of_nat (length (f :: files))
                     ++ lit " file(s) to process:" ++ newline) w) Hall)
    as [w' Hp].
  exists w'. split; [exact Hp|].
  exact (proj1 (process_gives_color _ _ _ Hp)).
Qed.

(** A second run of [main] after one that returned normally returns normally
    too and changes no file. *)
Theorem main_twice (w w' : world) :
  main w = (w', Ok tt) ->
  exists w'', main w' = (w'', Ok tt) /\ fs w'' = fs w'.
Proof.
  intros H. pose proof H as H0. rewrite main_run in H.
  assert (Hl : folders w' = folders w).
  { rewrite <- (proj1 (main_frame w)), H0. reflexivity. }
  rewrite main_run, Hl.
  destruct (folders w !! results_dir) as [names|].
  2:{ destruct (fs w !! results_dir); discriminate H. }
  destruct (List.filter is_placements_file names) as [|f files] eqn:Ef;
    [discriminate H|].
  destruct (process_gives_color _ _ _ H) as [Hcol _].
  destruct (process_skips (f :: files)
              (emit (lit "Found " ++ str_of_nat (length (f :: files))
                     ++ lit " file(s) to process:" ++ newline) w'))
    as (w'' & Hp & Hfs); [exact Hcol|].
  exists w''. split; [exact Hp|exact Hfs].
Qed.

(** *** Lines that are too long, files that are new *)



Lemma ancestors_from_app (a b : str) :
  forall before,
    ancestors_from before (a ++ b)
    = ancestors_from before a ++ ancestors_from (before ++ a) b.
Proof.
  induction a as [|c a IH]; intros before.
  - rewrite app_nil_r. reflexivity.
  - cbn [app ancestors_from]. rewrite IH, <- app_assoc. cbn [app].
    destruct (c =? chr "/")%N; reflexivity.
Qed.

Lemma ancestors_from_name (name : str) :
  forall before, chr "/" ∉ name -> ancestors_from before name = [].
Proof.
  induction name as [|c name IH]; intros before Hn; [reflexivity|].
  cbn [ancestors_from]. destruct (N.eqb_spec c (chr "/")) as [->|Hne].
  - exfalso. apply Hn. left.
  - apply IH. intros H. apply Hn. right. exact H.
Qed.

(** The folder of a file of a folder. *)
Lemma ancestors_join (dir name : str) :
  chr "/" ∉ name -> last (ancestors (path_join dir name)) = Some dir.
Proof.
  intros Hn. unfold ancestors, path_join. rewrite ancestors_from_app.
  change (lit "/" ++ name) with (chr "/" :: name).
  cbn [ancestors_from app]. rewrite N.eqb_refl.
  rewrite (ancestors_from_name _ _ Hn). apply last_snoc.
Qed.

Lemma last_component_snoc (s : str) (c : N) :
  last_component (s ++ [c])
  = if (c =? chr "/")%N then [] else last_component s ++ [c].
Proof. unfold last_component. rewrite fold_left_app. reflexivity. Qed.

Lemma last_component_no_slash (s : str) : chr "/" ∉ last_component s.
Proof.
  induction s as [|c s IH] using rev_ind.
  - intros H. inversion H.
  - rewrite last_component_snoc. destruct (N.eqb_spec c (chr "/")) as [->|Hne].
    + intros H. inversion H.
    + intros H. apply elem_of_app in H as [H|H]; [exact (IH H)|].
      apply list_elem_of_singleton in H. congruence.
Qed.

Lemma last_component_suffix (s : str) :
  s = last_component s
  \/ exists before, s = before ++ lit "/" ++ last_component s.
Proof.
  induction s as [|c s IH] using rev_ind; [left; reflexivity|].
  rewrite last_component_snoc. destruct (N.eqb_spec c (chr "/")) as [->|Hne].
  - right. exists s. rewrite app_nil_r. reflexivity.
  - destruct IH as [IH|[before IH]].
    + left. rewrite <- IH. reflexivity.
    + right. exists before. rewrite IH at 1. rewrite <- !app_assoc.
      reflexivity.
Qed.

Lemma last_component_app (prefix name : str) :
  chr "/" ∉ name ->
  last_component (prefix ++ lit "/" ++ name) = name.
Proof.
  intros Hn. induction name as [|c name IH] using rev_ind.
  - rewrite app_nil_r. change (lit "/") with [chr "/"].
    rewrite last_component_snoc. reflexivity.
  - rewrite !app_assoc, last_component_snoc, <- !app_assoc.
    destruct (N.eqb_spec c (chr "/")) as [->|Hne].
    + exfalso. apply Hn, elem_of_app. right. left.
    + rewrite IH; [reflexivity|].
      intros H. apply Hn, elem_of_app. left. exact H.
Qed.

Lemma last_component_join (dir name : str) :
  chr "/" ∉ name -> last_component (path_join dir name) = name.
Proof. apply last_component_app. Qed.

(** When [add_colors_to_csv] writes a table to a file of the results folder
    that did not exist, the listing of the folder afterwards has the name
    of the file, once, besides the names that were there; no other folder
    changes, and a later run of [main] works on the file when its name
    passes the test of lines 95-96. *)
Theorem new_output_file_is_listed (input_file name : str) (w w' : world)
    (t : table) (fns names : list str) :
  table_at w input_file = Some t ->
  fieldnames t = Some fns ->
  color_field ∉ fns ->
  chr "/" ∉ name ->
  listing w = Some names ->
  name ∉ names ->
  fs w !! path_join results_dir name = None ->
  add_colors_to_csv input_file (Some (path_join results_dir name)) w
  = (w', Ok tt) ->
  (exists names', listing w' = Some names' /\ names' ≡ₚ name :: names)
  /\ is_Some (fs w' !! path_join results_dir name)
  /\ (forall folder, folder <> results_dir ->
        folders w' !! folder = folders w !! folder)
  /\ (is_placements_file name = true -> name ∈ batch_files w').
Proof.
  intros Hf Hn Hc Hslash Hl Hnew Hnone Hrun.
  destruct (add_colors_to_csv_ok _ _ _ _ _ _ Hf Hn Hc Hrun)
    as (pc & rows' & fd & items & _ & _ & _ & Ho & _ & ->).
  cbn [default from_option id] in Ho.
  destruct (open_w_ok _ _ _ Ho) as [[[x Hx] _]|[_ ->]]; [congruence|].
  rewrite (ancestors_join _ _ Hslash).
  rewrite (last_component_join _ _ Hslash).
  assert (Hlist : listing
            (World (<[path_join results_dir name :=
                        (fns ++ [color_field])
                        :: List.map (written_record (fns ++ [color_field]))
                                    rows']> (fs w))
                   (alter (enlist name) results_dir (folders w))
                   (stdout w ++ summary (path_join results_dir name) rows' pc
                    ++ List.map color_line items))
            = Some (names ++ [name])).
  { unfold listing in *. cbn [folders]. rewrite lookup_alter_eq, Hl.
    cbn [fmap option_fmap option_map]. unfold enlist.
    destruct (decide (name ∈ names)); [contradiction|reflexivity]. }
  split.
  { exists (names ++ [name]). split; [exact Hlist|].
    symmetry. apply Permutation_cons_append. }
  cbn [default from_option id fs folders].
  split; [rewrite lookup_insert_eq; eauto|].
  split; [intros folder Hne; apply lookup_alter_ne; congruence|].
  intros Hp. unfold batch_files. rewrite Hlist.
  apply list_elem_of_In, filter_In. split; [|exact Hp].
  apply list_elem_of_In, elem_of_app. right. left.
Qed.

(** ** Properties of the file server *)

(** A request under /packing_data/ is answered from the file of the results
    folder named by what follows the last '/' of the path: the name has no
    '/' in it, the answer is that file as text/csv when the folder has it,
    and the error 404 otherwise. *)
Theorem packing_data_request (path : str) (w : world) :
  startswith path (lit "/packing_data/") = true ->
  exists filename,
    filename = last_component path
    /\ (chr "/" ∉ filename)
    /\ (exists before, path = before ++ lit "/" ++ filename)
    /\ do_GET path w
       = match fs w !! path_join results_dir filename with
         | Some content => Respond 200 (lit "text/csv") (FileContent content)
         | None => SendError 404 (lit "File Not Found: " ++ filename)
         end.
Proof.
  intros Hp. exists (last_component path).
  split; [reflexivity|]. split; [apply last_component_no_slash|].
  split.
  - destruct (last_component_suffix path) as [E|H]; [|exact H].
    exfalso. apply (last_component_no_slash path). rewrite <- E.
    unfold startswith in Hp. apply bool_decide_eq_true in Hp.
    destruct Hp as [k ->]. apply elem_of_app. left. left.
  - unfold do_GET.
    destruct (decide (path = lit "/list_csv")) as [->|_];
      [vm_compute in Hp; discriminate Hp|].
    rewrite Hp. reflexivity.
Qed.

Lemma do_GET_list (w : world) :
  do_GET (lit "/list_csv") w
  = Respond 200 (lit "application/json") (JsonNames (batch_files w)).
Proof.
  unfold do_GET, batch_files, listing.
  destruct (decide (lit "/list_csv" = lit "/list_csv")) as [_|H];
    [|contradiction].
  destruct (folders w !! results_dir); reflexivity.
Qed.

Lemma do_GET_file (name : str) (w : world) :
  chr "/" ∉ name ->
  do_GET (lit "/packing_data/" ++ name) w
  = match fs w !! path_join results_dir name with
    | Some content => Respond 200 (lit "text/csv") (FileContent content)
    | None => SendError 404 (lit "File Not Found: " ++ name)
    end.
Proof.
  intros Hn. unfold do_GET.
  destruct (decide (lit "/packing_data/" ++ name = lit "/list_csv"))
    as [E|_]; [vm_compute in E; discriminate E|].
  assert (Hs : startswith (lit "/packing_data/" ++ name)
                          (lit "/packing_data/") = true).
  { unfold startswith. apply bool_decide_eq_true. exists name. reflexivity. }
  rewrite Hs. cbv zeta.
  change (lit "/packing_data/" ++ name)
    with (lit "/packing_data" ++ lit "/" ++ name).
  rewrite (last_component_app _ _ Hn). reflexivity.
Qed.

(** The server lists the files [main] works on; after a run of [main] that
    returned normally, each listed file (a name without '/') is served with
    records whose table has the Color field. *)
Theorem served_files_are_colored (w w' : world) :
  main w = (w', Ok tt) ->
  Forall (fun name => chr "/" ∉ name) (batch_files w) ->
  do_GET (lit "/list_csv") w'
  = Respond 200 (lit "application/json") (JsonNames (batch_files w))
  /\ (forall name, name ∈ batch_files w ->
        exists content,
          do_GET (lit "/packing_data/" ++ name) w'
          = Respond 200 (lit "text/csv") (FileContent content)
          /\ has_color (DictReader content)).
Proof.
  intros H Hnames.
  assert (Hl : folders w' = folders w).
  { rewrite <- (proj1 (main_frame w)), H. reflexivity. }
  split.
  - rewrite do_GET_list. unfold batch_files, listing. rewrite Hl.
    reflexivity.
  - intros name Hn.
    pose proof (proj1 (Forall_forall _ _) Hnames name Hn) as Hslash.
    rewrite main_run in H. unfold batch_files, listing in Hn.
    destruct (folders w !! results_dir) as [names|]; [|inversion Hn].
    destruct (List.filter is_placements_file names) as [|f files] eqn:Ef;
      [inversion Hn|].
    destruct (proj1 (process_gives_color _ _ _ H) name Hn)
      as (t' & Ht' & Hc).
    apply table_at_Some in Ht' as (content & Hcontent & ->).
    exists content. rewrite (do_GET_file _ _ Hslash), Hcontent. auto.
Qed.

(** ** The statements at the example worlds *)

Lemma already_augmented_witness :
  table_at one_colored_file file_a = Some (DictReader placements_colored)
  /\ fieldnames (DictReader placements_colored)
     = Some [lit "ItemId"; lit "ProductId"; lit "Color"]
  /\ color_field ∈ [lit "ItemId"; lit "ProductId"; lit "Color"]
  /\ add_colors_to_csv file_a None one_colored_file
     = (emit (lit "Color column already exists in " ++ file_a)
             one_colored_file, Ok tt)
  /\ fs (add_colors_to_csv file_a None one_colored_file).1
     = fs one_colored_file
  /\ folders (add_colors_to_csv file_a None one_colored_file).1
     = folders one_colored_file.
Proof.
  assert (H1 : table_at one_colored_file file_a
               = Some (DictReader placements_colored)) by by_evaluation.
  assert (H2 : fieldnames (DictReader placements_colored)
               = Some [lit "ItemId"; lit "ProductId"; lit "Color"])
    by reflexivity.
  assert (H3 : color_field ∈ [lit "ItemId"; lit "ProductId"; lit "Color"])
    by not_a_field.
  split; [exact H1|]. split; [exact H2|]. split; [exact H3|].
  exact (already_augmented file_a None one_colored_file _ _ H1 H2 H3).
Defined.

Lemma same_product_same_color_witness :
  let w' := (add_colors_to_csv file_a None one_file).1 in
  let t := DictReader placements in
  let t' := DictReader placements_colored in
  table_at one_file file_a = Some t
  /\ fieldnames t = Some [lit "ItemId"; lit "ProductId"]
  /\ (color_field ∉ [lit "ItemId"; lit "ProductId"])
  /\ add_colors_to_csv file_a None one_file = (w', Ok tt)
  /\ table_at w' file_a = Some t'
  /\ (forall (i : nat) (r : csv_row),
        rows t !! i = Some r ->
        exists p c r',
          cells r !! product_field = Some p
          /\ generate_color_for_product (str_of p) = Ok c
          /\ rows t' !! i = Some r'
          /\ cells r' !! product_field = Some (Some (default [] p))
          /\ cells r' !! color_field = Some (Some c))
  /\ (forall r', r' ∈ rows t' ->
        exists p c,
          cells r' !! product_field = Some (Some p)
          /\ cells r' !! color_field = Some (Some c)
          /\ (generate_color_for_product p = Ok c
              \/ (p = [] /\ generate_color_for_product (lit "None") = Ok c)))
  /\ (forall r1 r2, r1 ∈ rows t' -> r2 ∈ rows t' ->
        cells r1 !! product_field = cells r2 !! product_field ->
        cells r1 !! color_field = cells r2 !! color_field).
Proof.
  intros w' t t'.
  assert (H1 : table_at one_file file_a = Some t) by by_evaluation.
  assert (H2 : fieldnames t = Some [lit "ItemId"; lit "ProductId"])
    by reflexivity.
  assert (H3 : color_field ∉ [lit "ItemId"; lit "ProductId"])
    by not_a_field.
  assert (H4 : add_colors_to_csv file_a None one_file = (w', Ok tt))
    by by_evaluation.
  assert (H5 : table_at w' (default file_a None) = Some t')
    by by_evaluation.
  split; [exact H1|]. split; [exact H2|]. split; [exact H3|].
  split; [exact H4|]. split; [exact H5|].
  exact (same_product_same_color file_a None one_file w' t _
                                 H1 H2 H3 H4 t' H5).
Defined.

Lemma schema_preserved_witness :
  let w' := (add_colors_to_csv file_a None one_file).1 in
  let t := DictReader placements in
  table_at one_file file_a = Some t
  /\ fieldnames t = Some [lit "ItemId"; lit "ProductId"]
  /\ (color_field ∉ [lit "ItemId"; lit "ProductId"])
  /\ add_colors_to_csv file_a None one_file = (w', Ok tt)
  /\ exists t',
       table_at w' (default file_a None) = Some t'
       /\ fieldnames t'
          = Some ([lit "ItemId"; lit "ProductId"] ++ [color_field])
       /\ length (rows t') = length (rows t)
       /\ (forall (i : nat) (r : csv_row),
             rows t !! i = Some r ->
             exists r' c,
               rows t' !! i = Some r'
               /\ cells r' !! color_field = Some (Some c)
               /\ (forall k v, k ∈ [lit "ItemId"; lit "ProductId"] ->
                               cells r !! k = Some (Some v) ->
                               cells r' !! k = Some (Some v))
               /\ (forall k, k ∈ [lit "ItemId"; lit "ProductId"] ->
                             cells r !! k = Some None ->
                             cells r' !! k = Some (Some []))
               /\ dom (cells r')
                  = list_to_set [lit "ItemId"; lit "ProductId"]
                    ∪ {[color_field]}
               /\ extra r' = None
               /\ ((forall k, cells r !! k <> Some None) ->
                   r' = Row (<[color_field := Some c]> (cells r)) None))
       /\ (forall path, path <> default file_a None ->
                        fs w' !! path = fs one_file !! path).
Proof.
  intros w' t.
  assert (H1 : table_at one_file file_a = Some t) by by_evaluation.
  assert (H2 : fieldnames t = Some [lit "ItemId"; lit "ProductId"])
    by reflexivity.
  assert (H3 : color_field ∉ [lit "ItemId"; lit "ProductId"])
    by not_a_field.
  assert (H4 : add_colors_to_csv file_a None one_file = (w', Ok tt))
    by by_evaluation.
  split; [exact H1|]. split; [exact H2|]. split; [exact H3|].
  split; [exact H4|].
  exact (schema_preserved file_a None one_file w' t _ H1 H2 H3 H4).
Defined.

Lemma placements_short_none :
  Exists (fun row => cells row !! product_field = Some None)
         (rows (DictReader placements_short)).
Proof. apply Exists_cons_tl, Exists_cons_hd. by_evaluation. Qed.

Lemma placements_short_some :
  Exists (fun row => exists p, cells row !! product_field = Some (Some p))
         (rows (DictReader placements_short)).
Proof. apply Exists_cons_hd. eexists. by_evaluation. Qed.

Lemma placements_short_extra :
  Forall (fun row => extra row = None) (rows (DictReader placements_short)).
Proof. repeat constructor. Qed.

Lemma missing_product_id_ends_batch_witness :
  let w1 := (process [lit "item_placements_0.csv"] batch_of_three).1 in
  let t := DictReader placements_without_product in
  let s := DictReader placements_short in
  (table_at batch file_a = Some t
   /\ fieldnames t = Some [lit "ItemId"]
   /\ (color_field ∉ [lit "ItemId"])
   /\ Exists (fun row => cells row !! product_field = None) (rows t)
   /\ add_colors_to_csv file_a None batch
      = (batch, Raise (KeyError product_field)))
  /\ (Exists (fun row => cells row !! product_field = None) (rows t)
      <-> (product_field ∉ [lit "ItemId"]) /\ rows t <> [])
  /\ (process [lit "item_placements_0.csv"] batch_of_three = (w1, Ok tt)
      /\ table_at w1 (path_join results_dir (lit "item_placements_a.csv"))
         = Some t
      /\ process ([lit "item_placements_0.csv"]
                  ++ lit "item_placements_a.csv"
                  :: [lit "item_placements_b.csv"]) batch_of_three
         = (emit (lit "Processing: " ++ lit "item_placements_a.csv") w1,
            Raise (KeyError product_field)))
  /\ (table_at batch_short file_a = Some s
      /\ fieldnames s = Some [lit "ItemId"; lit "ProductId"]
      /\ (color_field ∉ [lit "ItemId"; lit "ProductId"])
      /\ Exists (fun row => cells row !! product_field = Some None) (rows s)
      /\ Forall (fun row => extra row = None) (rows s)
      /\ writable batch_short (default file_a None)
      /\ exists (w' : world) (res : result unit) (t' : table),
           add_colors_to_csv file_a None batch_short = (w', res)
           /\ table_at w' (default file_a None) = Some t'
           /\ fieldnames t'
              = Some ([lit "ItemId"; lit "ProductId"] ++ [color_field])
           /\ length (rows t') = length (rows s)
           /\ (forall (i : nat) (r : csv_row),
                 rows s !! i = Some r ->
                 cells r !! product_field = Some None ->
                 exists r' c,
                   rows t' !! i = Some r'
                   /\ cells r' !! product_field = Some (Some [])
                   /\ generate_color_for_product (lit "None") = Ok c
                   /\ cells r' !! color_field = Some (Some c))
           /\ ((Exists (fun row => exists p,
                          cells row !! product_field = Some (Some p))
                       (rows s)
                /\ res = Raise TypeError
                /\ stdout w'
                   = stdout batch_short
                     ++ [lit "[OK] Added colors to " ++ default file_a None;
                         lit "  - " ++ str_of_nat (length (rows s))
                         ++ lit " items";
                         lit "  - "
                         ++ str_of_nat
                              (size (list_to_set (C := gset (option str))
                                       (product_ids (rows s))))
                         ++ lit " unique ProductIds"])
               \/ (Forall (fun row => cells row !! product_field = Some None)
                          (rows s)
                   /\ res = Ok tt)))
  /\ (process [] batch_short = (batch_short, Ok tt)
      /\ table_at batch_short
                  (path_join results_dir (lit "item_placements_a.csv"))
         = Some s
      /\ Exists (fun row => exists p,
                   cells row !! product_field = Some (Some p)) (rows s)
      /\ exists (w2 : world) (t' : table),
           process ([] ++ lit "item_placements_a.csv"
                    :: [lit "item_placements_b.csv"]) batch_short
           = (w2, Raise TypeError)
           /\ table_at w2
                       (path_join results_dir (lit "item_placements_a.csv"))
              = Some t'
           /\ fieldnames t'
              = Some ([lit "ItemId"; lit "ProductId"] ++ [color_field]))
  /\ (fs one_empty_file !! file_a = Some [[lit "ItemId"; lit "ProductId"]]
      /\ add_colors_to_csv file_a None one_empty_file
         = (World (<[file_a := [[lit "ItemId"; lit "ProductId"]
                                ++ [color_field]]]>
                     (fs one_empty_file))
                  (folders one_empty_file)
                  (stdout one_empty_file ++ summary file_a [] ∅),
            Ok tt)).
Proof.
  intros w1 t s.
  destruct missing_product_id_ends_batch
    as (Hone & Hiff & Hbatch & Hshort & Hbatch2 & Hempty).
  assert (H1 : table_at batch file_a = Some t) by by_evaluation.
  assert (H2 : fieldnames t = Some [lit "ItemId"]) by reflexivity.
  assert (H3 : color_field ∉ [lit "ItemId"]) by not_a_field.
  assert (H4 : Exists (fun row => cells row !! product_field = None) (rows t))
    by (apply Exists_cons_hd; by_evaluation).
  assert (H5 : process [lit "item_placements_0.csv"] batch_of_three
               = (w1, Ok tt)) by by_evaluation.
  assert (H6 : table_at w1 (path_join results_dir
                                      (lit "item_placements_a.csv"))
               = Some t) by by_evaluation.
  assert (H7 : fs one_empty_file !! file_a
               = Some [[lit "ItemId"; lit "ProductId"]]) by by_evaluation.
  assert (H8 : color_field ∉ [lit "ItemId"; lit "ProductId"])
    by not_a_field.
  assert (S1 : table_at batch_short file_a = Some s) by by_evaluation.
  assert (S2 : fieldnames s = Some [lit "ItemId"; lit "ProductId"])
    by reflexivity.
  assert (S3 : writable batch_short (default file_a None))
    by (eexists; by_evaluation).
  assert (S4 : process [] batch_short = (batch_short, Ok tt))
    by reflexivity.
  split; [|split; [|split; [|split; [|split]]]].
  - split; [exact H1|]. split; [exact H2|]. split; [exact H3|].
    split; [exact H4|].
    exact (Hone file_a None batch t _ H1 H2 H3 H4).
  - exact (Hiff batch file_a t _ H1 H2).
  - split; [exact H5|]. split; [exact H6|].
    exact (Hbatch [lit "item_placements_0.csv"]
                  [lit "item_placements_b.csv"]
                  (lit "item_placements_a.csv") batch_of_three w1
                  t _ H5 H6 H2 H3 H4).
  - split; [exact S1|]. split; [exact S2|]. split; [exact H8|].
    split; [exact placements_short_none|].
    split; [exact placements_short_extra|]. split; [exact S3|].
    exact (Hshort file_a None batch_short s _ S1 S2 H8
                  placements_short_none placements_short_extra S3).
  - split; [exact S4|]. split; [exact S1|].
    split; [exact placements_short_some|].
    exact (Hbatch2 [] [lit "item_placements_b.csv"]
                   (lit "item_placements_a.csv") batch_short batch_short
                   s _ S4 S1 S2 H8 placements_short_none
                   placements_short_some placements_short_extra).
  - split; [exact H7|].
    exact (Hempty file_a one_empty_file _ H7 H8).
Defined.

(** C9, as stated, fails.  In [batch] the first table has a data line under
    a header without ProductId and the second is a table that
    [add_colors_to_csv] augments on its own; [main] ends with the KeyError
    of the first, prints nothing about it and never reaches the second,
    which stays as it was.  In [batch_short] a line of the first table stops
    before its ProductId cell: the table is not left unmodified, it is
    written with that cell empty and the colour of the text None, then
    [main] ends with the TypeError of [sorted] and never reaches the
    second table.  And a table with no rows is augmented, not left
    unmodified. *)
Lemma batch_not_continued :
  listing batch
  = Some [lit "item_placements_a.csv"; lit "item_placements_b.csv"]
  /\ fs batch !! file_a = Some placements_without_product
  /\ Exists (fun row => cells row !! product_field = None)
            (rows (DictReader placements_without_product))
  /\ fs batch !! file_b = Some placements
  /\ (add_colors_to_csv file_b None batch).2 = Ok tt
  /\ fs (add_colors_to_csv file_b None batch).1 !! file_b
     = Some placements_colored
  /\ (main batch).2 = Raise (KeyError product_field)
  /\ fs (main batch).1 !! file_b = Some placements
  /\ stdout (main batch).1
     = [lit "Found 2 file(s) to process:" ++ newline;
        lit "Processing: item_placements_a.csv"]
  /\ fs batch_short !! file_a = Some placements_short
  /\ fs batch_short !! file_b = Some placements
  /\ (main batch_short).2 = Raise TypeError
  /\ fs (main batch_short).1 !! file_a = Some placements_short_colored
  /\ fs (main batch_short).1 !! file_b = Some placements
  /\ stdout (main batch_short).1
     = [lit "Found 2 file(s) to process:" ++ newline;
        lit "Processing: item_placements_a.csv";
        lit "[OK] Added colors to Results/item_placements_a.csv";
        lit "  - 2 items";
        lit "  - 2 unique ProductIds"]
  /\ (main one_empty_file).2 = Ok tt
  /\ fs (main one_empty_file).1 !! file_a
     = Some [[lit "ItemId"; lit "ProductId"; lit "Color"]].
Proof.
  split; [by_evaluation|]. split; [by_evaluation|].
  split; [apply Exists_cons_hd; by_evaluation|].
  repeat (split; [by_evaluation|]). by_evaluation.
Qed.


Lemma add_colors_to_csv_frame_witness :
  let out := lit "Results/item_placements_z.csv" in
  let w' := (add_colors_to_csv file_a (Some out) one_file).1 in
  fs one_file !! out = None
  /\ file_a <> out
  /\ fs w' !! file_a = fs one_file !! file_a
  /\ fs w' !! out = Some placements_colored
  /\ folders one_file !! results_dir = Some [lit "item_placements_a.csv"]
  /\ exists names',
       folders w' !! results_dir = Some names'
       /\ forall n, n ∈ names'
                    <-> n ∈ [lit "item_placements_a.csv"]
                        \/ n = lit "item_placements_z.csv".
Proof.
  intros out w'.
  assert (H1 : fs one_file !! out = None) by by_evaluation.
  assert (H2 : file_a <> default file_a (Some out))
    by (intros E; vm_compute in E; discriminate E).
  assert (H3 : folders one_file !! results_dir
               = Some [lit "item_placements_a.csv"]) by by_evaluation.
  split; [exact H1|]. split; [exact H2|].
  split; [exact (proj1 (proj2 (add_colors_to_csv_frame file_a (Some out)
                                                       one_file))
                       file_a H2)|].
  split; [by_evaluation|]. split; [exact H3|].
  destruct (proj2 (proj2 (proj2 (add_colors_to_csv_frame file_a (Some out)
                                                         one_file)))
                  results_dir)
    as [E|(names & names' & Hn & Hn' & _ & _ & _ & Hin)].
  - exfalso. fold w' in E.
    assert (E' : folders w' !! results_dir
                 = Some [lit "item_placements_a.csv";
                         lit "item_placements_z.csv"]) by by_evaluation.
    rewrite E', H3 in E. discriminate E.
  - fold w' in Hn'. rewrite H3 in Hn. injection Hn as <-.
    exists names'. split; [exact Hn'|].
    intros n. rewrite (Hin n).
    assert (El : last_component (default file_a (Some out))
                 = lit "item_placements_z.csv") by by_evaluation.
    rewrite El. reflexivity.
Defined.

Lemma placements_plain : Forall plain_row (rows (DictReader placements)).
Proof.
  repeat (apply List.Forall_cons;
          [split; [eexists; by_evaluation|reflexivity]|]).
  apply List.Forall_nil.
Qed.

Lemma well_formed_table_is_augmented_witness :
  let t := DictReader placements in
  table_at one_file file_a = Some t
  /\ fieldnames t = Some [lit "ItemId"; lit "ProductId"]
  /\ (color_field ∉ [lit "ItemId"; lit "ProductId"])
  /\ Forall plain_row (rows t)
  /\ writable one_file (default file_a None)
  /\ open_w one_file (default file_a (Some (lit "missing/out.csv")))
     = Raise (FileNotFoundError (lit "missing/out.csv"))
  /\ (exists w' t',
        add_colors_to_csv file_a None one_file = (w', Ok tt)
        /\ table_at w' (default file_a None) = Some t'
        /\ fieldnames t'
           = Some ([lit "ItemId"; lit "ProductId"] ++ [color_field])
        /\ length (rows t') = length (rows t))
  /\ add_colors_to_csv file_a (Some (lit "missing/out.csv")) one_file
     = (one_file, Raise (FileNotFoundError (lit "missing/out.csv")))
  /\ open_error (default file_a (Some (lit "missing/out.csv")))
                (FileNotFoundError (lit "missing/out.csv")).
Proof.
  intros t.
  assert (H1 : table_at one_file file_a = Some t) by by_evaluation.
  assert (H2 : fieldnames t = Some [lit "ItemId"; lit "ProductId"])
    by reflexivity.
  assert (H3 : color_field ∉ [lit "ItemId"; lit "ProductId"])
    by not_a_field.
  assert (H4 : writable one_file (default file_a None))
    by (eexists; by_evaluation).
  assert (H5 : open_w one_file (default file_a (Some (lit "missing/out.csv")))
               = Raise (FileNotFoundError (lit "missing/out.csv")))
    by by_evaluation.
  split; [exact H1|]. split; [exact H2|]. split; [exact H3|].
  split; [exact placements_plain|]. split; [exact H4|]. split; [exact H5|].
  split.
  - exact (proj1 (well_formed_table_is_augmented file_a None one_file t _
                    H1 H2 H3 placements_plain) H4).
  - exact (proj2 (well_formed_table_is_augmented
                    file_a (Some (lit "missing/out.csv")) one_file t _
                    H1 H2 H3 placements_plain) _ H5).
Defined.

Lemma second_run_is_skipped_witness :
  let w' := (add_colors_to_csv file_a None one_file).1 in
  table_at one_file file_a = Some (DictReader placements)
  /\ fieldnames (DictReader placements) = Some [lit "ItemId"; lit "ProductId"]
  /\ (color_field ∉ [lit "ItemId"; lit "ProductId"])
  /\ add_colors_to_csv file_a None one_file = (w', Ok tt)
  /\ add_colors_to_csv file_a None w'
     = (emit (lit "Color column already exists in " ++ file_a) w', Ok tt).
Proof.
  intros w'.
  assert (H1 : table_at one_file file_a = Some (DictReader placements))
    by by_evaluation.
  assert (H2 : fieldnames (DictReader placements)
               = Some [lit "ItemId"; lit "ProductId"])
    by reflexivity.
  assert (H3 : color_field ∉ [lit "ItemId"; lit "ProductId"])
    by not_a_field.
  assert (H4 : add_colors_to_csv file_a None one_file = (w', Ok tt))
    by by_evaluation.
  split; [exact H1|]. split; [exact H2|]. split; [exact H3|].
  split; [exact H4|].
  exact (second_run_is_skipped file_a one_file w' _ _ H1 H2 H3 H4).
Defined.

Lemma report_counts_witness :
  let w' := (add_colors_to_csv file_a None one_file).1 in
  let t := DictReader placements in
  table_at one_file file_a = Some t
  /\ fieldnames t = Some [lit "ItemId"; lit "ProductId"]
  /\ (color_field ∉ [lit "ItemId"; lit "ProductId"])
  /\ add_colors_to_csv file_a None one_file = (w', Ok tt)
  /\ exists lines,
       stdout w'
       = stdout one_file
         ++ [lit "[OK] Added colors to " ++ default file_a None;
             lit "  - " ++ str_of_nat (length (rows t)) ++ lit " items";
             lit "  - "
             ++ str_of_nat (size (list_to_set (C := gset (option str))
                                    (product_ids (rows t))))
             ++ lit " unique ProductIds"]
         ++ lines
       /\ length lines
          = size (list_to_set (C := gset (option str))
                    (product_ids (rows t))).
Proof.
  intros w' t.
  assert (H1 : table_at one_file file_a = Some t) by by_evaluation.
  assert (H2 : fieldnames t = Some [lit "ItemId"; lit "ProductId"])
    by reflexivity.
  assert (H3 : color_field ∉ [lit "ItemId"; lit "ProductId"])
    by not_a_field.
  assert (H4 : add_colors_to_csv file_a None one_file = (w', Ok tt))
    by by_evaluation.
  split; [exact H1|]. split; [exact H2|]. split; [exact H3|].
  split; [exact H4|].
  exact (report_counts file_a None one_file w' t _ H1 H2 H3 H4).
Defined.

Lemma report_lines_witness :
  let w' := (add_colors_to_csv file_a None one_file).1 in
  let t := DictReader placements in
  table_at one_file file_a = Some t
  /\ fieldnames t = Some [lit "ItemId"; lit "ProductId"]
  /\ (color_field ∉ [lit "ItemId"; lit "ProductId"])
  /\ add_colors_to_csv file_a None one_file = (w', Ok tt)
  /\ exists head items,
       stdout w' = stdout one_file ++ head ++ List.map color_line items
       /\ length head = 3%nat
       /\ (forall p c, (p, c) ∈ items
                       <-> p ∈ product_ids (rows t)
                           /\ generate_color_for_product (str_of p) = Ok c)
       /\ NoDup items.*1
       /\ Sorted keys_in_order items.
Proof.
  intros w' t.
  assert (H1 : table_at one_file file_a = Some t) by by_evaluation.
  assert (H2 : fieldnames t = Some [lit "ItemId"; lit "ProductId"])
    by reflexivity.
  assert (H3 : color_field ∉ [lit "ItemId"; lit "ProductId"])
    by not_a_field.
  assert (H4 : add_colors_to_csv file_a None one_file = (w', Ok tt))
    by by_evaluation.
  split; [exact H1|]. split; [exact H2|]. split; [exact H3|].
  split; [exact H4|].
  exact (report_lines file_a None one_file w' t _ H1 H2 H3 H4).
Defined.

Lemma main_exits_iff_no_work_witness :
  batch_files no_folder = []
  /\ ~ (listing no_folder = None /\ is_Some (fs no_folder !! results_dir))
  /\ (main no_folder).2 = Raise (SystemExit 1)
  /\ fs (main no_folder).1 = fs no_folder
  /\ folders (main no_folder).1 = folders no_folder.
Proof.
  assert (H : batch_files no_folder = []) by reflexivity.
  assert (H' : ~ (listing no_folder = None
                  /\ is_Some (fs no_folder !! results_dir))).
  { intros [_ [x Hx]]. vm_compute in Hx. discriminate Hx. }
  split; [exact H|]. split; [exact H'|].
  exact (proj1 (proj2 (main_exits_iff_no_work no_folder)) H H').
Defined.

Lemma main_touches_only_batch_witness :
  (forall name, name ∈ batch_files one_file ->
                lit "notes.txt" <> path_join results_dir name)
  /\ fs (main one_file).1 !! lit "notes.txt" = fs one_file !! lit "notes.txt".
Proof.
  assert (H : forall name, name ∈ batch_files one_file ->
                           lit "notes.txt" <> path_join results_dir name).
  { intros name Hn E.
    change (batch_files one_file) with [lit "item_placements_a.csv"] in Hn.
    apply list_elem_of_singleton in Hn as ->.
    vm_compute in E. discriminate E. }
  split; [exact H|].
  exact (proj2 (proj2 (main_touches_only_batch one_file))
               (lit "notes.txt") H).
Defined.

Lemma two_files_processable :
  forall name, name ∈ batch_files two_files ->
    exists t, table_at two_files (path_join results_dir name) = Some t
              /\ processable t.
Proof.
  intros name Hn.
  change (batch_files two_files)
    with [lit "item_placements_a.csv"; lit "item_placements_b.csv"] in Hn.
  apply elem_of_cons in Hn as [->|Hn];
    [|apply list_elem_of_singleton in Hn as ->].
  - exists (DictReader placements). split; [by_evaluation|].
    exists [lit "ItemId"; lit "ProductId"]. split; [reflexivity|]. right.
    exact placements_plain.
  - exists (DictReader placements_colored). split; [by_evaluation|].
    exists [lit "ItemId"; lit "ProductId"; lit "Color"].
    split; [reflexivity|]. left. not_a_field.
Qed.

Lemma main_completes_batch_witness :
  batch_files two_files <> []
  /\ (forall name, name ∈ batch_files two_files ->
        exists t, table_at two_files (path_join results_dir name) = Some t
                  /\ processable t)
  /\ exists w',
       main two_files = (w', Ok tt)
       /\ (forall name, name ∈ batch_files two_files ->
             exists t', table_at w' (path_join results_dir name) = Some t'
                        /\ has_color t').
Proof.
  assert (H : batch_files two_files <> [])
    by (intros E; vm_compute in E; discriminate E).
  split; [exact H|]. split; [exact two_files_processable|].
  exact (main_completes_batch two_files H two_files_processable).
Defined.

Lemma main_twice_witness :
  let w' := (main one_file).1 in
  main one_file = (w', Ok tt)
  /\ exists w'', main w' = (w'', Ok tt) /\ fs w'' = fs w'.
Proof.
  intros w'.
  assert (H : main one_file = (w', Ok tt)) by by_evaluation.
  split; [exact H|].
  exact (main_twice one_file w' H).
Defined.



Lemma new_output_file_is_listed_witness :
  let name := lit "item_placements_z.csv" in
  let w' := (add_colors_to_csv file_a (Some (path_join results_dir name))
                               one_file).1 in
  table_at one_file file_a = Some (DictReader placements)
  /\ fieldnames (DictReader placements) = Some [lit "ItemId"; lit "ProductId"]
  /\ (color_field ∉ [lit "ItemId"; lit "ProductId"])
  /\ (chr "/" ∉ name)
  /\ listing one_file = Some [lit "item_placements_a.csv"]
  /\ (name ∉ [lit "item_placements_a.csv"])
  /\ fs one_file !! path_join results_dir name = None
  /\ add_colors_to_csv file_a (Some (path_join results_dir name)) one_file
     = (w', Ok tt)
  /\ is_placements_file name = true
  /\ (exists names', listing w' = Some names'
                     /\ names' ≡ₚ name :: [lit "item_placements_a.csv"])
  /\ is_Some (fs w' !! path_join results_dir name)
  /\ (forall folder, folder <> results_dir ->
        folders w' !! folder = folders one_file !! folder)
  /\ (is_placements_file name = true -> name ∈ batch_files w').
Proof.
  intros name w'.
  assert (H1 : table_at one_file file_a = Some (DictReader placements))
    by by_evaluation.
  assert (H2 : fieldnames (DictReader placements)
               = Some [lit "ItemId"; lit "ProductId"])
    by reflexivity.
  assert (H3 : color_field ∉ [lit "ItemId"; lit "ProductId"])
    by not_a_field.
  assert (H4 : chr "/" ∉ name) by not_a_field.
  assert (H5 : listing one_file = Some [lit "item_placements_a.csv"])
    by by_evaluation.
  assert (H6 : name ∉ [lit "item_placements_a.csv"]) by not_a_field.
  assert (H7 : fs one_file !! path_join results_dir name = None)
    by by_evaluation.
  assert (H8 : add_colors_to_csv file_a (Some (path_join results_dir name))
                                 one_file = (w', Ok tt)) by by_evaluation.
  split; [exact H1|]. split; [exact H2|]. split; [exact H3|].
  split; [exact H4|]. split; [exact H5|]. split; [exact H6|].
  split; [exact H7|]. split; [exact H8|]. split; [by_evaluation|].
  exact (new_output_file_is_listed file_a name one_file w' _ _ _
                                   H1 H2 H3 H4 H5 H6 H7 H8).
Defined.

Lemma packing_data_request_witness :
  startswith (lit "/packing_data/item_placements_a.csv")
             (lit "/packing_data/") = true
  /\ exists filename,
       filename = last_component (lit "/packing_data/item_placements_a.csv")
       /\ (chr "/" ∉ filename)
       /\ (exists before,
             lit "/packing_data/item_placements_a.csv"
             = before ++ lit "/" ++ filename)
       /\ do_GET (lit "/packing_data/item_placements_a.csv") one_file
          = match fs one_file !! path_join results_dir filename with
            | Some content =>
                Respond 200 (lit "text/csv") (FileContent content)
            | None => SendError 404 (lit "File Not Found: " ++ filename)
            end.
Proof.
  assert (H : startswith (lit "/packing_data/item_placements_a.csv")
                         (lit "/packing_data/") = true) by by_evaluation.
  split; [exact H|].
  exact (packing_data_request (lit "/packing_data/item_placements_a.csv")
                              one_file H).
Defined.

Lemma served_files_are_colored_witness :
  let w' := (main one_file).1 in
  main one_file = (w', Ok tt)
  /\ Forall (fun name => chr "/" ∉ name) (batch_files one_file)
  /\ do_GET (lit "/list_csv") w'
     = Respond 200 (lit "application/json")
               (JsonNames (batch_files one_file))
  /\ (forall name, name ∈ batch_files one_file ->
        exists content,
          do_GET (lit "/packing_data/" ++ name) w'
          = Respond 200 (lit "text/csv") (FileContent content)
          /\ has_color (DictReader content)).
Proof.
  intros w'.
  assert (H : main one_file = (w', Ok tt)) by by_evaluation.
  assert (H' : Forall (fun name => chr "/" ∉ name) (batch_files one_file)).
  { change (batch_files one_file) with [lit "item_placements_a.csv"].
    constructor; [not_a_field|constructor]. }
  split; [exact H|]. split; [exact H'|].
  exact (served_files_are_colored one_file w' H H').
Defined.
